(** * Parametric grid tray generator: model and verification

    Shallow embedding of [grid-generator.py]: the box primitive
    ([add_box]), the serializer ([write_ascii_stl]), the layout planner and
    mesh assembler ([generate_grid]) and the command line ([main] and its
    prompts).

    The source is embedded twice.

    Exact arithmetic.  In the first embedding a Python [float] is an exact
    rational ([Q]): the geometry is stated over real-valued millimetres,
    and rounding, infinities and NaN are left out.  Two rationals denote
    the same number when they are [Qeq]-equal ([==]).  Python [int] values
    ([cols], [rows]) are modelled by [Z].  The only effect is writing the
    output file, modelled by a state-and-error monad over a log of file
    operations; a path opens or not, and an open file takes every write.
    This embedding carries what is stated of the geometry in exact
    arithmetic, and of the text of a run that succeeds.  The command line
    adds the console: the lines of standard input and the text written to
    standard output.

    Double precision.  In the second embedding (module [Binary64]) a
    Python [float] is an IEEE 754 binary64 number, with the operations of
    the standard library's specification of floating-point arithmetic; the
    conversion of an [int] to a [float] raises [OverflowError] beyond the
    range, the division by a zero raises [ZeroDivisionError], [open]
    raises [ValueError] on a path with a null character, and the device
    may fail at any write and at the closing of the file.  This embedding
    carries what is stated of the errors of the program and of what
    reaches the file. *)

From Stdlib Require Import QArith Qround Qabs Qpower Lqa ZArith Lia List String Ascii Bool.
From Stdlib Require Import DecimalString SpecFloat.
From Stdlib Require DecimalZ DecimalPos.
Import ListNotations.

Open Scope Q_scope.

(** ** Data model *)

(** [Vec3 = Tuple[float, float, float]] *)
Definition Vec3 : Type := Q * Q * Q.

(** [Triangle = Tuple[Vec3, Vec3, Vec3, Vec3]], that is (normal, v1, v2, v3). *)
Definition Triangle : Type := Vec3 * Vec3 * Vec3 * Vec3.

Definition normal_of (t : Triangle) : Vec3 := let '(n, _, _, _) := t in n.
Definition v1_of (t : Triangle) : Vec3 := let '(_, a, _, _) := t in a.
Definition v2_of (t : Triangle) : Vec3 := let '(_, _, b, _) := t in b.
Definition v3_of (t : Triangle) : Vec3 := let '(_, _, _, c) := t in c.

Definition vertices (t : Triangle) : list Vec3 := [v1_of t; v2_of t; v3_of t].

(** Python's [a < b] on numbers. *)
Definition Qltb (a b : Q) : bool := negb (Qle_bool b a).

(** Python's [a <= b] on numbers. *)
Definition Qleb (a b : Q) : bool := Qle_bool a b.

(** ** The box primitive *)

(** The nested helper [face] of [add_box]: two [triangles.append] calls. *)
Definition face (triangles : list Triangle) (normal a b c d : Vec3)
  : list Triangle :=
  (* Tri 1: a, b, c *)
  let triangles := triangles ++ [(normal, a, b, c)] in
  (* Tri 2: a, c, d *)
  let triangles := triangles ++ [(normal, a, c, d)] in
  triangles.

(** [add_box(triangles, x0, y0, z0, x1, y1, z1)]; the list the Python code
    mutates in place is passed in and returned. *)
Definition add_box (triangles : list Triangle) (x0 y0 z0 x1 y1 z1 : Q)
  : list Triangle :=
  (* Ensure proper ordering *)
  let '(x0, x1) := if Qltb x1 x0 then (x1, x0) else (x0, x1) in
  let '(y0, y1) := if Qltb y1 y0 then (y1, y0) else (y0, y1) in
  let '(z0, z1) := if Qltb z1 z0 then (z1, z0) else (z0, z1) in
  (* Bottom rectangle (z=z0) *)
  let p000 := (x0, y0, z0) in
  let p100 := (x1, y0, z0) in
  let p110 := (x1, y1, z0) in
  let p010 := (x0, y1, z0) in
  (* Top rectangle (z=z1) *)
  let p001 := (x0, y0, z1) in
  let p101 := (x1, y0, z1) in
  let p111 := (x1, y1, z1) in
  let p011 := (x0, y1, z1) in
  (* Bottom face (z = z0), normal pointing -Z *)
  let triangles := face triangles (0.0, 0.0, -1.0) p000 p100 p110 p010 in
  (* Top face (z = z1), normal pointing +Z *)
  let triangles := face triangles (0.0, 0.0, 1.0) p001 p011 p111 p101 in
  (* -X face *)
  let triangles := face triangles (-1.0, 0.0, 0.0) p000 p010 p011 p001 in
  (* +X face *)
  let triangles := face triangles (1.0, 0.0, 0.0) p100 p101 p111 p110 in
  (* -Y face *)
  let triangles := face triangles (0.0, -1.0, 0.0) p000 p001 p101 p100 in
  (* +Y face *)
  let triangles := face triangles (0.0, 1.0, 0.0) p010 p110 p111 p011 in
  triangles.

(** ** Text formatting *)

(** The newline character written as [\n] in the Python source. *)
Definition nl : string := String (ascii_of_nat 10) EmptyString.

(** [str(n)] for a Python [int], as used by the f-string [{cols}]. *)
Definition str_int (n : Z) : string := NilEmpty.string_of_int (Z.to_int n).

(** Round a non-negative rational to the nearest integer, ties to even:
    the rounding of correctly rounded decimal conversion. *)
Definition round_half_even (q : Q) : Z :=
  let f := Qfloor q in
  match Qcompare (q - inject_Z f) (1 # 2) with
  | Lt => f
  | Gt => (f + 1)%Z
  | Eq => if Z.even f then f else (f + 1)%Z
  end.

Fixpoint dexp_search (fuel : nat) (e : Z) (q : Q) : Z :=
  match fuel with
  | O => e
  | S fuel' => if Qleb (10 ^ e) q then e else dexp_search fuel' (e - 1)%Z q
  end.

(** For [q > 0], the decimal exponent [e] with [10^e <= q < 10^(e+1)],
    searched downwards between two bounds read off the binary sizes of the
    numerator and the denominator. *)
Definition decimal_exponent (q : Q) : Z :=
  let hi := (Z.log2 (Qnum q) + 1)%Z in
  let lo := (- (Z.log2 (Zpos (Qden q)) + 1))%Z in
  dexp_search (Z.to_nat (hi - lo)) hi q.

(** For [q > 0], the [p] significant digits of [q] as an integer in
    [10^(p-1), 10^p), with the decimal exponent of the rounded value. *)
Definition sig_digits (p : Z) (q : Q) : Z * Z :=
  let e := decimal_exponent q in
  let m := round_half_even (q / 10 ^ (e - (p - 1))) in
  if (m =? 10 ^ p)%Z then ((10 ^ (p - 1))%Z, (e + 1)%Z) else (m, e).

(** The character of a decimal digit [0 <= d <= 9]. *)
Definition digit_char (d : Z) : ascii := ascii_of_nat (48 + Z.to_nat d).

(** The [n] low-order decimal digits of [m], most significant first. *)
Fixpoint digits_of (n : nat) (m : Z) : list ascii :=
  match n with
  | O => []
  | S n' => digits_of n' (m / 10) ++ [digit_char (m mod 10)]
  end.

(** Remove the trailing ["0"] characters of a digit string. *)
Fixpoint rstrip0 (s : list ascii) : list ascii :=
  match s with
  | [] => []
  | c :: s' =>
      match rstrip0 s' with
      | [] => if Ascii.eqb c "0" then [] else [c]
      | r => c :: r
      end
  end.

(** A fractional part, with its point, or nothing when it is empty. *)
Definition dot_frac (frac : list ascii) : list ascii :=
  match frac with
  | [] => []
  | _ => "."%char :: frac
  end.

(** The exponent field of the scientific style: a sign and at least two
    digits. *)
Definition exp_field (e : Z) : list ascii :=
  let d := list_ascii_of_string (str_int (Z.abs e)) in
  let d := if (Z.abs e <? 10)%Z then "0"%char :: d else d in
  "e"%char :: (if (e <? 0)%Z then "-" else "+")%char :: d.

(** The characters of [format(x, ".<p>g")]. *)
Definition format_g_chars (p : Z) (x : Q) : list ascii :=
  if Qeq_bool x 0 then ["0"%char]
  else
    let sign := if Qltb x 0 then ["-"%char] else [] in
    let '(m, e) := sig_digits p (Qabs x) in
    let ds := digits_of (Z.to_nat p) m in
    let body :=
      if ((e <? -4) || (p <=? e))%Z then
        firstn 1 ds ++ dot_frac (rstrip0 (skipn 1 ds)) ++ exp_field e
      else if (e <? 0)%Z then
        "0"%char :: "."%char :: repeat "0"%char (Z.to_nat (- e - 1)) ++ rstrip0 ds
      else
        let k := Z.to_nat (e + 1) in
        firstn k ds ++ dot_frac (rstrip0 (skipn k ds))
    in
    sign ++ body.

(** Python's [format(x, ".<p>g")] (for [p >= 1]) on an exact value:
    [p] significant digits, correctly rounded; scientific style when the
    exponent is below [-4] or at least [p], fixed style otherwise;
    trailing zeros removed. *)
Definition format_g (p : Z) (x : Q) : string :=
  string_of_list_ascii (format_g_chars p x).

(** The format specification [:.6g] of the f-strings of
    [write_ascii_stl]. *)
Definition g6 (x : Q) : string := format_g 6 x.

(** ** Effects: output files and exceptions *)

(** The exceptions the program can raise. *)
Inductive exn : Type :=
| ValueError (msg : string)
| OSError (filename : string).

(** Operations on the file system, in the order they happen. *)
Inductive io_event : Type :=
| FileOpen (filename : string)
| FileWrite (filename : string) (data : string)
| FileClose (filename : string).

(** The world a run acts on: which paths can be opened for writing, and
    the file operations performed so far. *)
Record world : Type := mkWorld {
  openable : string -> bool;
  oplog : list io_event
}.

(** A computation that may raise and may perform file operations. *)
Definition IO (A : Type) : Type := world -> (exn + A) * world.

Definition ret {A} (a : A) : IO A := fun w => (inr a, w).

Definition raise {A} (e : exn) : IO A := fun w => (inl e, w).

Definition bind {A B} (c : IO A) (k : A -> IO B) : IO B :=
  fun w =>
    match c w with
    | (inl e, w') => (inl e, w')
    | (inr a, w') => k a w'
    end.

Notation "x <- c ;; k" := (bind c (fun x => k))
  (at level 61, c at next level, right associativity).
Notation "c ;;; k" := (bind c (fun _ => k))
  (at level 61, right associativity).

Definition emit (ev : io_event) : IO unit :=
  fun w => (inr tt, mkWorld (openable w) (oplog w ++ [ev])).

(** [open(filename, "w", encoding="utf-8")]: the handle is the file name. *)
Definition open_w (filename : string) : IO string :=
  fun w =>
    if openable w filename
    then (inr filename, mkWorld (openable w) (oplog w ++ [FileOpen filename]))
    else (inl (OSError filename), w).

(** [f.write(data)] *)
Definition f_write (f : string) (data : string) : IO unit :=
  emit (FileWrite f data).

(** Leaving the [with] block. *)
Definition f_close (f : string) : IO unit := emit (FileClose f).

(** [for x in xs: body(x)] *)
Fixpoint for_each {A} (xs : list A) (body : A -> IO unit) : IO unit :=
  match xs with
  | [] => ret tt
  | x :: xs' => body x ;;; for_each xs' body
  end.

(** The text a file holds after the logged operations: opening for writing
    truncates, every write appends. *)
Fixpoint file_text (filename : string) (log : list io_event) (acc : string)
  : string :=
  match log with
  | [] => acc
  | FileOpen f :: log' =>
      file_text filename log' (if String.eqb f filename then ""%string else acc)
  | FileWrite f data :: log' =>
      file_text filename log'
        (if String.eqb f filename then (acc ++ data)%string else acc)
  | FileClose _ :: log' => file_text filename log' acc
  end.

(** ** The serializer *)

(** [v[0]], [v[1]], [v[2]] *)
Definition c0 (v : Vec3) : Q := fst (fst v).
Definition c1 (v : Vec3) : Q := snd (fst v).
Definition c2 (v : Vec3) : Q := snd v.

(** [write_ascii_stl(filename, solid_name, triangles)] *)
Definition write_ascii_stl (filename solid_name : string)
  (triangles : list Triangle) : IO unit :=
  f <- open_w filename ;;
  f_write f ("solid " ++ solid_name ++ nl) ;;;
  for_each triangles (fun '(normal, v1, v2, v3) =>
    let '(nx, ny, nz) := normal in
    f_write f ("  facet normal " ++ g6 nx ++ " " ++ g6 ny ++ " " ++ g6 nz ++ nl) ;;;
    f_write f ("    outer loop" ++ nl) ;;;
    f_write f ("      vertex " ++ g6 (c0 v1) ++ " " ++ g6 (c1 v1) ++ " " ++ g6 (c2 v1) ++ nl) ;;;
    f_write f ("      vertex " ++ g6 (c0 v2) ++ " " ++ g6 (c1 v2) ++ " " ++ g6 (c2 v2) ++ nl) ;;;
    f_write f ("      vertex " ++ g6 (c0 v3) ++ " " ++ g6 (c1 v3) ++ " " ++ g6 (c2 v3) ++ nl) ;;;
    f_write f ("    endloop" ++ nl) ;;;
    f_write f ("  endfacet" ++ nl)) ;;;
  f_write f ("endsolid " ++ solid_name ++ nl) ;;;
  f_close f.

(** ** The layout planner and mesh assembler *)

(** [range(n)] *)
Definition range (n : Z) : list Z := map Z.of_nat (seq 0 (Z.to_nat n)).

(** Body of the loop [for col in range(cols)] over the state
    ([x], [triangles]). *)
Definition vertical_step
  (cell_width wall_thickness base_thickness outer_length total_height : Q)
  (cols : Z) (st : Q * list Triangle) (col : Z) : Q * list Triangle :=
  let '(x, triangles) := st in
  let x_start_cell := x in
  let x_end_cell := x_start_cell + cell_width in
  let x := x_end_cell in
  if (col <? cols - 1)%Z then
    let x_wall_start := x in
    let x_wall_end := x_wall_start + wall_thickness in
    let triangles :=
      add_box triangles
        x_wall_start wall_thickness base_thickness
        x_wall_end (outer_length - wall_thickness) total_height in
    let x := x_wall_end in
    (x, triangles)
  else (x, triangles).

(** Body of the loop [for row in range(rows)] over the state
    ([y], [triangles]). *)
Definition horizontal_step
  (cell_length wall_thickness base_thickness outer_width total_height : Q)
  (rows : Z) (st : Q * list Triangle) (row : Z) : Q * list Triangle :=
  let '(y, triangles) := st in
  let y_start_cell := y in
  let y_end_cell := y_start_cell + cell_length in
  let y := y_end_cell in
  if (row <? rows - 1)%Z then
    let y_wall_start := y in
    let y_wall_end := y_wall_start + wall_thickness in
    let triangles :=
      add_box triangles
        wall_thickness y_wall_start base_thickness
        (outer_width - wall_thickness) y_wall_end total_height in
    let y := y_wall_end in
    (y, triangles)
  else (y, triangles).

(** Lines 107-198 of [generate_grid]: the parameter checks, the mesh and
    the solid name; the result is what line 199 passes to the serializer,
    or the exception raised. *)
Definition grid_mesh
  (outer_width outer_length base_thickness wall_thickness wall_height : Q)
  (cols rows : Z) : exn + string * list Triangle :=
  if ((cols <? 1) || (rows <? 1))%Z then
    inl (ValueError "cols and rows must be >= 1")
  else if Qleb wall_thickness 0 || Qleb base_thickness 0 || Qleb wall_height 0 then
    inl (ValueError "Thicknesses and heights must be > 0")
  else
    (* Available inner area inside the outer walls *)
    let inner_width := outer_width - 2.0 * wall_thickness in
    let inner_length := outer_length - 2.0 * wall_thickness in
    if Qleb inner_width 0 || Qleb inner_length 0 then
      inl (ValueError "Outer size is too small for the chosen wall thickness.")
    else
      (* Space taken up by internal grid walls *)
      let total_internal_walls_x := inject_Z (cols - 1) * wall_thickness in
      let total_internal_walls_y := inject_Z (rows - 1) * wall_thickness in
      (* Compute cell sizes (uniform cells) *)
      let cell_width := (inner_width - total_internal_walls_x) / inject_Z cols in
      let cell_length := (inner_length - total_internal_walls_y) / inject_Z rows in
      if Qleb cell_width 0 || Qleb cell_length 0 then
        inl (ValueError
               "Outer size too small for the chosen wall thickness and grid count.")
      else
        let triangles : list Triangle := [] in
        let total_height := base_thickness + wall_height in
        (* 1) Base slab (solid) *)
        let triangles :=
          add_box triangles 0.0 0.0 0.0 outer_width outer_length base_thickness in
        (* 2) Outer walls *)
        (* Left wall *)
        let triangles :=
          add_box triangles
            0.0 0.0 base_thickness
            wall_thickness outer_length total_height in
        (* Right wall *)
        let triangles :=
          add_box triangles
            (outer_width - wall_thickness) 0.0 base_thickness
            outer_width outer_length total_height in
        (* Front wall (Y = 0 edge) *)
        let triangles :=
          add_box triangles
            wall_thickness 0.0 base_thickness
            (outer_width - wall_thickness) wall_thickness total_height in
        (* Back wall (Y = outer_length edge) *)
        let triangles :=
          add_box triangles
            wall_thickness (outer_length - wall_thickness) base_thickness
            (outer_width - wall_thickness) outer_length total_height in
        (* 3) Internal grid walls *)
        (* Vertical walls (parallel to Y, between columns) *)
        let x := wall_thickness in
        let '(x, triangles) :=
          fold_left
            (vertical_step cell_width wall_thickness base_thickness
               outer_length total_height cols)
            (range cols) (x, triangles) in
        (* Horizontal walls (parallel to X, between rows) *)
        let y := wall_thickness in
        let '(y, triangles) :=
          fold_left
            (horizontal_step cell_length wall_thickness base_thickness
               outer_width total_height rows)
            (range rows) (y, triangles) in
        let solid_name := ("grid_" ++ str_int cols ++ "x" ++ str_int rows)%string in
        inr (solid_name, triangles).

(** [generate_grid(outer_width, outer_length, base_thickness,
    wall_thickness, wall_height, cols, rows, filename)]: lines 107-198,
    then the call of the serializer on line 199. *)
Definition generate_grid
  (outer_width outer_length base_thickness wall_thickness wall_height : Q)
  (cols rows : Z) (filename : string) : IO unit :=
  match grid_mesh outer_width outer_length base_thickness wall_thickness
          wall_height cols rows with
  | inl e => raise e
  | inr (solid_name, triangles) => write_ascii_stl filename solid_name triangles
  end.

(** The default of the parameter [filename]. *)
Definition default_filename : string := "grid.stl".

(** * Specification-side notions *)

(** ** Vectors *)

Definition vsub (a b : Vec3) : Vec3 :=
  (c0 a - c0 b, c1 a - c1 b, c2 a - c2 b).

Definition cross (a b : Vec3) : Vec3 :=
  (c1 a * c2 b - c2 a * c1 b,
   c2 a * c0 b - c0 a * c2 b,
   c0 a * c1 b - c1 a * c0 b).

Definition dot (a b : Vec3) : Q := c0 a * c0 b + c1 a * c1 b + c2 a * c2 b.

Definition vscale (k : Q) (a : Vec3) : Vec3 := (k * c0 a, k * c1 a, k * c2 a).

(** The same point: equal coordinates as numbers. *)
Definition Veq (a b : Vec3) : Prop :=
  c0 a == c0 b /\ c1 a == c1 b /\ c2 a == c2 b.

(** The same triangle: same normal and same vertices, in the same order. *)
Definition Teq (s t : Triangle) : Prop :=
  Veq (normal_of s) (normal_of t) /\ Veq (v1_of s) (v1_of t) /\
  Veq (v2_of s) (v2_of t) /\ Veq (v3_of s) (v3_of t).

(** The same triangle list: same length, same triangles, same order. *)
Definition Meq (l m : list Triangle) : Prop := Forall2 Teq l m.

(** ** The face table of the box builder *)

(** The twelve triangles of the table of section 4.1, for the corners
    [p000 .. p111] of the box [(x0,y0,z0)-(x1,y1,z1)]. *)
Definition box_table (x0 y0 z0 x1 y1 z1 : Q) : list Triangle :=
  let p000 := (x0, y0, z0) in
  let p100 := (x1, y0, z0) in
  let p110 := (x1, y1, z0) in
  let p010 := (x0, y1, z0) in
  let p001 := (x0, y0, z1) in
  let p101 := (x1, y0, z1) in
  let p111 := (x1, y1, z1) in
  let p011 := (x0, y1, z1) in
  [ ((0.0, 0.0, -1.0), p000, p100, p110); ((0.0, 0.0, -1.0), p000, p110, p010);
    ((0.0, 0.0, 1.0), p001, p011, p111);  ((0.0, 0.0, 1.0), p001, p111, p101);
    ((-1.0, 0.0, 0.0), p000, p010, p011); ((-1.0, 0.0, 0.0), p000, p011, p001);
    ((1.0, 0.0, 0.0), p100, p101, p111);  ((1.0, 0.0, 0.0), p100, p111, p110);
    ((0.0, -1.0, 0.0), p000, p001, p101); ((0.0, -1.0, 0.0), p000, p101, p100);
    ((0.0, 1.0, 0.0), p010, p110, p111);  ((0.0, 1.0, 0.0), p010, p111, p011) ].

(** [(lo, hi)] is the pair [(a, b)] put in order: the same two numbers,
    with [lo <= hi]. *)
Definition ordered_pair (a b lo hi : Q) : Prop :=
  lo <= hi /\ ((lo = a /\ hi = b) \/ (lo = b /\ hi = a)).

(** ** The grid plan *)

(** A box extent: two opposite corners. *)
Definition Box : Type := Vec3 * Vec3.

(** The triangles the box builder emits for one extent. *)
Definition box_triangles (b : Box) : list Triangle :=
  let '((x0, y0, z0), (x1, y1, z1)) := b in add_box [] x0 y0 z0 x1 y1 z1.

(** Inner dimension: the outer dimension minus the two outer walls. *)
Definition inner_dim (outer wall_thickness : Q) : Q :=
  outer - 2.0 * wall_thickness.

(** Cell size along one axis, for [n] cells and [n-1] internal walls. *)
Definition cell_size (outer wall_thickness : Q) (n : Z) : Q :=
  (inner_dim outer wall_thickness - inject_Z (n - 1) * wall_thickness) / inject_Z n.

(** The conditions of section 4.2 under which planning fails. *)
Definition invalid_params
  (outer_width outer_length base_thickness wall_thickness wall_height : Q)
  (cols rows : Z) : Prop :=
  (cols < 1)%Z \/ (rows < 1)%Z \/
  wall_thickness <= 0 \/ base_thickness <= 0 \/ wall_height <= 0 \/
  inner_dim outer_width wall_thickness <= 0 \/
  inner_dim outer_length wall_thickness <= 0 \/
  cell_size outer_width wall_thickness cols <= 0 \/
  cell_size outer_length wall_thickness rows <= 0.

(** A parameter set that passes every check. *)
Definition valid_params
  (outer_width outer_length base_thickness wall_thickness wall_height : Q)
  (cols rows : Z) : Prop :=
  (1 <= cols)%Z /\ (1 <= rows)%Z /\
  0 < wall_thickness /\ 0 < base_thickness /\ 0 < wall_height /\
  0 < inner_dim outer_width wall_thickness /\
  0 < inner_dim outer_length wall_thickness /\
  0 < cell_size outer_width wall_thickness cols /\
  0 < cell_size outer_length wall_thickness rows.

(** The positions at which [n] dividers start when the cursor walks from
    [x], advancing by one cell and one wall alternately. *)
Fixpoint divider_starts (x cell wall : Q) (n : nat) : list Q :=
  match n with
  | O => []
  | S n' => (x + cell) :: divider_starts (x + cell + wall) cell wall n'
  end.

Section Plan.
Variables outer_width outer_length base_thickness wall_thickness wall_height : Q.
Variables cols rows : Z.

Let total_height := base_thickness + wall_height.

(** The base slab and the four outer walls (left, right, front, back). *)
Definition shell_boxes : list Box :=
  [ ((0.0, 0.0, 0.0), (outer_width, outer_length, base_thickness));
    ((0.0, 0.0, base_thickness), (wall_thickness, outer_length, total_height));
    ((outer_width - wall_thickness, 0.0, base_thickness),
     (outer_width, outer_length, total_height));
    ((wall_thickness, 0.0, base_thickness),
     (outer_width - wall_thickness, wall_thickness, total_height));
    ((wall_thickness, outer_length - wall_thickness, base_thickness),
     (outer_width - wall_thickness, outer_length, total_height)) ].

(** The divider parallel to Y that starts at [x]. *)
Definition vertical_box (x : Q) : Box :=
  ((x, wall_thickness, base_thickness),
   (x + wall_thickness, outer_length - wall_thickness, total_height)).

(** The divider parallel to X that starts at [y]. *)
Definition horizontal_box (y : Q) : Box :=
  ((wall_thickness, y, base_thickness),
   (outer_width - wall_thickness, y + wall_thickness, total_height)).

Definition vertical_dividers : list Box :=
  map vertical_box
    (divider_starts wall_thickness (cell_size outer_width wall_thickness cols)
       wall_thickness (Z.to_nat (cols - 1))).

Definition horizontal_dividers : list Box :=
  map horizontal_box
    (divider_starts wall_thickness (cell_size outer_length wall_thickness rows)
       wall_thickness (Z.to_nat (rows - 1))).

(** The box extents in the order [generate_grid] passes them to
    [add_box]. *)
Definition grid_plan : list Box :=
  shell_boxes ++ vertical_dividers ++ horizontal_dividers.
End Plan.

(** ** Geometry of boxes and triangles *)

(** The box has its first corner strictly below its second on every axis. *)
Definition proper_box (b : Box) : Prop :=
  let '((x0, y0, z0), (x1, y1, z1)) := b in x0 < x1 /\ y0 < y1 /\ z0 < z1.

(** The point lies in the tray's outer bounding box. *)
Definition in_bounds (outer_width outer_length total_height : Q) (p : Vec3) : Prop :=
  (0 <= c0 p /\ c0 p <= outer_width) /\
  (0 <= c1 p /\ c1 p <= outer_length) /\
  (0 <= c2 p /\ c2 p <= total_height).

(** Both corners of the box lie in the tray's outer bounding box. *)
Definition box_in_bounds (outer_width outer_length total_height : Q) (b : Box) : Prop :=
  in_bounds outer_width outer_length total_height (fst b) /\
  in_bounds outer_width outer_length total_height (snd b).

(** [t] lies strictly between [a] and [b], whichever is the smaller. *)
Definition strictly_between (a b t : Q) : Prop :=
  (a < t /\ t < b) \/ (b < t /\ t < a).

(** The point lies in the open interior of the box. *)
Definition interior (b : Box) (p : Vec3) : Prop :=
  let '((x0, y0, z0), (x1, y1, z1)) := b in
  strictly_between x0 x1 (c0 p) /\ strictly_between y0 y1 (c1 p) /\
  strictly_between z0 z1 (c2 p).

(** The two boxes share no interior point: they meet at most in a face. *)
Definition interiors_disjoint (a b : Box) : Prop :=
  forall p : Vec3, ~ (interior a p /\ interior b p).

(** Any two boxes at distinct positions of the list have disjoint
    interiors. *)
Definition pairwise_disjoint (l : list Box) : Prop :=
  forall (i j : nat) (a b : Box),
    i <> j -> nth_error l i = Some a -> nth_error l j = Some b ->
    interiors_disjoint a b.

(** One box ends, on some axis, where the other has not yet begun. *)
Definition separated (a b : Box) : Prop :=
  let '((ax0, ay0, az0), (ax1, ay1, az1)) := a in
  let '((bx0, by0, bz0), (bx1, by1, bz1)) := b in
  ax1 <= bx0 \/ bx1 <= ax0 \/ ay1 <= by0 \/ by1 <= ay0 \/ az1 <= bz0 \/ bz1 <= az0.

(** [n] is the normalization of [v]: [v] has a positive length [k]
    ([k*k = v.v]) and [v = k n], that is [v / |v| = n]. *)
Definition normalizes_to (v n : Vec3) : Prop :=
  exists k : Q, 0 < k /\ k * k == dot v v /\ Veq v (vscale k n).

(** The normal the right-hand rule gives to the vertex order of a
    triangle, before normalization. *)
Definition winding_normal (t : Triangle) : Vec3 :=
  cross (vsub (v2_of t) (v1_of t)) (vsub (v3_of t) (v1_of t)).

(** The stated normal agrees with the vertex order: the vertices appear
    counter-clockwise when seen from the side the normal points to. *)
Definition winding_consistent (t : Triangle) : Prop :=
  normalizes_to (winding_normal t) (normal_of t).

(** ** The exchange format *)

(** One [vertex] line of the format. *)
Definition vertex_line (v : Vec3) : string :=
  ("      vertex " ++ g6 (c0 v) ++ " " ++ g6 (c1 v) ++ " " ++ g6 (c2 v) ++ nl)%string.

(** The seven lines of one facet, each with its newline. *)
Definition facet_lines (t : Triangle) : list string :=
  [ ("  facet normal " ++ g6 (c0 (normal_of t)) ++ " " ++ g6 (c1 (normal_of t))
     ++ " " ++ g6 (c2 (normal_of t)) ++ nl)%string;
    ("    outer loop" ++ nl)%string;
    vertex_line (v1_of t);
    vertex_line (v2_of t);
    vertex_line (v3_of t);
    ("    endloop" ++ nl)%string;
    ("  endfacet" ++ nl)%string ].

(** The lines of a solid: header, the facets in list order, footer. *)
Definition stl_lines (solid_name : string) (triangles : list Triangle)
  : list string :=
  ("solid " ++ solid_name ++ nl)%string
  :: flat_map facet_lines triangles
  ++ [ ("endsolid " ++ solid_name ++ nl)%string ].

(** The text of a solid in the exchange format. *)
Definition stl_text (solid_name : string) (triangles : list Triangle) : string :=
  String.concat "" (stl_lines solid_name triangles).

(** ** A reader of the exchange format *)

(** Cut a text at every occurrence of the separator. *)
Fixpoint split_on (sep : ascii) (s : list ascii) : list (list ascii) :=
  match s with
  | [] => [[]]
  | c :: s' =>
      if Ascii.eqb c sep then [] :: split_on sep s'
      else
        match split_on sep s' with
        | l :: ls => (c :: l) :: ls
        | [] => [[c]]
        end
  end.

Fixpoint strip_prefix (p s : list ascii) : option (list ascii) :=
  match p, s with
  | [], _ => Some s
  | a :: p', b :: s' => if Ascii.eqb a b then strip_prefix p' s' else None
  | _ :: _, [] => None
  end.

Definition is_digit (c : ascii) : bool :=
  (48 <=? nat_of_ascii c)%nat && (nat_of_ascii c <=? 57)%nat.

(** The number a string of decimal digits denotes, after [acc]. *)
Fixpoint digits_value (acc : Z) (s : list ascii) : Z :=
  match s with
  | [] => acc
  | c :: s' => digits_value (10 * acc + (Z.of_nat (nat_of_ascii c) - 48)) s'
  end.

(** The longest prefix of digits, and the rest. *)
Fixpoint span_digits (s : list ascii) : list ascii * list ascii :=
  match s with
  | c :: s' =>
      if is_digit c then let '(ds, r) := span_digits s' in (c :: ds, r)
      else ([], s)
  | [] => ([], [])
  end.

(** The exponent part of a decimal number: nothing, or [e], a sign and
    digits. *)
Definition read_exponent (s : list ascii) : option Z :=
  match s with
  | [] => Some 0%Z
  | e :: sg :: d :: ds =>
      if Ascii.eqb e "e" then
        match NilEmpty.uint_of_string (string_of_list_ascii (d :: ds)) with
        | Some u =>
            if Ascii.eqb sg "-" then Some (- Z.of_uint u)%Z
            else if Ascii.eqb sg "+" then Some (Z.of_uint u)
            else None
        | None => None
        end
      else None
  | _ => None
  end.

(** The value of a decimal number: an optional sign, digits, an optional
    point and digits, an optional exponent. *)
Definition read_number (s : list ascii) : option Q :=
  let '(neg, s1) :=
    match s with
    | c :: r => if Ascii.eqb c "-" then (true, r) else (false, s)
    | [] => (false, s)
    end in
  let '(ip, s2) := span_digits s1 in
  let '(fp, s3) :=
    match s2 with
    | c :: r => if Ascii.eqb c "." then span_digits r else ([], s2)
    | [] => ([], s2)
    end in
  match ip, read_exponent s3 with
  | _ :: _, Some ex =>
      let v := inject_Z (digits_value 0 (ip ++ fp))
               * 10 ^ (ex - Z.of_nat (List.length fp)) in
      Some (if neg then - v else v)
  | _, _ => None
  end.

(** Three numbers separated by single spaces. *)
Definition read_vec3 (s : list ascii) : option Vec3 :=
  match split_on " " s with
  | [a; b; c] =>
      match read_number a, read_number b, read_number c with
      | Some x, Some y, Some z => Some (x, y, z)
      | _, _, _ => None
      end
  | _ => None
  end.

Definition read_prefixed_vec3 (prefix : string) (line : list ascii) : option Vec3 :=
  match strip_prefix (list_ascii_of_string prefix) line with
  | Some rest => read_vec3 rest
  | None => None
  end.

Definition line_is (expected : string) (line : list ascii) : bool :=
  String.eqb (string_of_list_ascii line) expected.

(** The facets at the head of a list of lines, and the lines after them;
    [None] when a facet is started and not well formed. *)
Fixpoint read_facets (ls : list (list ascii))
  : option (list Triangle * list (list ascii)) :=
  match ls with
  | l1 :: l2 :: l3 :: l4 :: l5 :: l6 :: l7 :: rest =>
      match strip_prefix (list_ascii_of_string "  facet normal ") l1 with
      | None => Some ([], ls)
      | Some _ =>
          match read_prefixed_vec3 "  facet normal " l1,
                read_prefixed_vec3 "      vertex " l3,
                read_prefixed_vec3 "      vertex " l4,
                read_prefixed_vec3 "      vertex " l5,
                read_facets rest with
          | Some n, Some v1, Some v2, Some v3, Some (ts, after) =>
              if line_is "    outer loop" l2 && line_is "    endloop" l6
                 && line_is "  endfacet" l7
              then Some ((n, v1, v2, v3) :: ts, after)
              else None
          | _, _, _, _, _ => None
          end
      end
  | _ => Some ([], ls)
  end.

(** A reader of the exchange format of section 6: the solid name and the
    triangles, in the order of the text. *)
Definition read_stl (text : string) : option (string * list Triangle) :=
  match split_on (ascii_of_nat 10) (list_ascii_of_string text) with
  | header :: ls =>
      match strip_prefix (list_ascii_of_string "solid ") header,
            read_facets ls with
      | Some name, Some (ts, [footer; []]) =>
          if line_is ("endsolid " ++ string_of_list_ascii name) footer
          then Some (string_of_list_ascii name, ts)
          else None
      | _, _ => None
      end
  | [] => None
  end.

(** ** Rounding to significant digits *)

(** The value [x] rounded to [p] significant decimal digits. *)
Definition round_sig (p : Z) (x : Q) : Q :=
  if Qeq_bool x 0 then 0
  else
    let '(m, e) := sig_digits p (Qabs x) in
    let v := inject_Z m * 10 ^ (e - (p - 1)) in
    if Qltb x 0 then - v else v.

Definition round_vec3 (p : Z) (v : Vec3) : Vec3 :=
  (round_sig p (c0 v), round_sig p (c1 v), round_sig p (c2 v)).

Definition round_triangle (p : Z) (t : Triangle) : Triangle :=
  (round_vec3 p (normal_of t), round_vec3 p (v1_of t),
   round_vec3 p (v2_of t), round_vec3 p (v3_of t)).

(** ** The written text as characters *)

(** A character that can occur in a written number. *)
Definition number_char (c : ascii) : Prop :=
  is_digit c = true \/ c = "."%char \/ c = "-"%char \/ c = "+"%char \/ c = "e"%char.

(** The characters of three written numbers separated by spaces. *)
Definition vec3_chars (v : Vec3) : list ascii :=
  format_g_chars 6 (c0 v) ++ " "%char :: format_g_chars 6 (c1 v)
  ++ " "%char :: format_g_chars 6 (c2 v).

(** The seven lines of a facet as characters, without their newlines. *)
Definition facet_bodies (t : Triangle) : list (list ascii) :=
  [ list_ascii_of_string "  facet normal " ++ vec3_chars (normal_of t);
    list_ascii_of_string "    outer loop";
    list_ascii_of_string "      vertex " ++ vec3_chars (v1_of t);
    list_ascii_of_string "      vertex " ++ vec3_chars (v2_of t);
    list_ascii_of_string "      vertex " ++ vec3_chars (v3_of t);
    list_ascii_of_string "    endloop";
    list_ascii_of_string "  endfacet" ].

(** A line with its newline. *)
Definition add_newline (l : list ascii) : list ascii := l ++ [ascii_of_nat 10].

(** ** Values with few significant digits *)

(** The value has at most [p] significant decimal digits: it is an integer
    below [10^p] in absolute value, times a power of ten. *)
Definition short_decimal (p : Z) (x : Q) : Prop :=
  exists k j : Z, (Z.abs k < 10 ^ p)%Z /\ x == inject_Z k * 10 ^ j.

Definition short_vec3 (p : Z) (v : Vec3) : Prop :=
  short_decimal p (c0 v) /\ short_decimal p (c1 v) /\ short_decimal p (c2 v).

Definition short_triangle (p : Z) (t : Triangle) : Prop :=
  short_vec3 p (normal_of t) /\ short_vec3 p (v1_of t) /\
  short_vec3 p (v2_of t) /\ short_vec3 p (v3_of t).

(** The string holds no newline character. *)
Definition no_newline (s : string) : Prop :=
  ~ In (ascii_of_nat 10) (list_ascii_of_string s).

(** ** The default grid *)

(** The triangle list of the default grid. *)
Definition default_mesh : list Triangle :=
  match grid_mesh 215.0 115.0 2.0 2.0 20.0 5 3 with
  | inr (_, ts) => ts
  | inl _ => []
  end.

(** ** Edges and closed surfaces *)

(** One of two numbers, by a flag. *)
Definition pick (swap : bool) (a b : Q) : Q := if swap then b else a.

(** The same point, decided. *)
Definition Veqb (a b : Vec3) : bool :=
  Qeq_bool (c0 a) (c0 b) && Qeq_bool (c1 a) (c1 b) && Qeq_bool (c2 a) (c2 b).

(** The three directed edges of a triangle, in its vertex order. *)
Definition edges (t : Triangle) : list (Vec3 * Vec3) :=
  [ (v1_of t, v2_of t); (v2_of t, v3_of t); (v3_of t, v1_of t) ].

Definition mesh_edges (m : list Triangle) : list (Vec3 * Vec3) := flat_map edges m.

(** How many edges of the list run from [u] to [v]. *)
Definition count_edge (u v : Vec3) (es : list (Vec3 * Vec3)) : nat :=
  List.length (filter (fun e => Veqb (fst e) u && Veqb (snd e) v) es).

(** Every edge of the mesh is used once in its direction and once in the
    opposite direction: the surface is closed and its triangles are
    oriented alike. *)
Definition closed_oriented (m : list Triangle) : Prop :=
  forall u v, In (u, v) (mesh_edges m) ->
    count_edge u v (mesh_edges m) = 1%nat /\ count_edge v u (mesh_edges m) = 1%nat.

(** A corner of a box, named by three flags (low or high on each axis). *)
Definition corner_id : Type := (bool * bool * bool)%type.

Definition corner_at (x0 y0 z0 x1 y1 z1 : Q) (c : corner_id) : Vec3 :=
  let '(i, j, k) := c in (pick i x0 x1, pick j y0 y1, pick k z0 z1).

Definition corner_id_eqb (c d : corner_id) : bool :=
  let '(i, j, k) := c in let '(i', j', k') := d in
  Bool.eqb i i' && Bool.eqb j j' && Bool.eqb k k'.

(** The directed edges of the twelve triangles of the face table, by
    corner names. *)
Definition box_edge_ids : list (corner_id * corner_id) :=
  let p000 := (false, false, false) in
  let p100 := (true, false, false) in
  let p110 := (true, true, false) in
  let p010 := (false, true, false) in
  let p001 := (false, false, true) in
  let p101 := (true, false, true) in
  let p111 := (true, true, true) in
  let p011 := (false, true, true) in
  flat_map (fun '(a, b, c) => [(a, b); (b, c); (c, a)])
    [ (p000, p100, p110); (p000, p110, p010);
      (p001, p011, p111); (p001, p111, p101);
      (p000, p010, p011); (p000, p011, p001);
      (p100, p101, p111); (p100, p111, p110);
      (p000, p001, p101); (p000, p101, p100);
      (p010, p110, p111); (p010, p111, p011) ].

(** ** The command line and the console *)

(** What can end a run of the program: end of input at a prompt, an exit
    of the argument parser, or an exception of [generate_grid]. *)
Inductive run_exn : Type :=
| EOFError
| SystemExit (code : Z)
| Raised (e : exn).

(** The console: the lines still to be read from standard input, and the
    pieces of text written to standard output so far. *)
Record console : Type := mkConsole {
  stdin : list string;
  stdout : list string
}.

(** A computation on the console and the files. *)
Definition Run (A : Type) : Type :=
  console -> world -> (run_exn + A) * console * world.

Definition rret {A} (a : A) : Run A := fun c w => (inr a, c, w).

Definition rbind {A B} (m : Run A) (k : A -> Run B) : Run B :=
  fun c w =>
    match m c w with
    | (inl e, c', w') => (inl e, c', w')
    | (inr a, c', w') => k a c' w'
    end.

Notation "x <~ m ;; k" := (rbind m (fun x => k))
  (at level 61, m at next level, right associativity).
Notation "m ;;> k" := (rbind m (fun _ => k))
  (at level 61, right associativity).

(** A computation on the console alone. *)
Definition on_console {A} (f : console -> (run_exn + A) * console) : Run A :=
  fun c w => let '(r, c') := f c in (r, c', w).

(** A computation on the files alone; its exception, if any, is raised. *)
Definition on_files {A} (m : IO A) : Run A :=
  fun c w =>
    match m w with
    | (inl e, w') => (inl (Raised e), c, w')
    | (inr a, w') => (inr a, c, w')
    end.

(** [print(s)] *)
Definition print (s : string) : Run unit :=
  fun c w => (inr tt, mkConsole (stdin c) (stdout c ++ [(s ++ nl)%string]), w).

(** [input(prompt)]: writes the prompt and reads one line, without its
    newline; at the end of input it raises [EOFError]. *)
Definition input (prompt : string) : Run string :=
  fun c w =>
    match stdin c with
    | [] => (inl EOFError, mkConsole [] (stdout c ++ [prompt]), w)
    | line :: rest => (inr line, mkConsole rest (stdout c ++ [prompt]), w)
    end.

(** The values [parse_args] returns: the attributes of the namespace. *)
Record Namespace : Type := mkNamespace {
  ns_outer_width : Q;
  ns_outer_length : Q;
  ns_base_thickness : Q;
  ns_wall_thickness : Q;
  ns_wall_height : Q;
  ns_cols : Z;
  ns_rows : Z;
  ns_output : string
}.

Section CommandLine.

(** Library functions the program calls, taken as they are: [str.strip],
    [float] and [int] on a string ([None] when they raise [ValueError]),
    [str] on a float, and the argument parser built by [parse_args], which
    returns a namespace or exits, after writing what it writes. *)
Variable strip : string -> string.
Variable float_of_string : string -> option Q.
Variable int_of_string : string -> option Z.
Variable str_float : Q -> string.
Variable parse_args : list string -> Run Namespace.

(** The loop of [prompt_float], on the lines still to be read. *)
Fixpoint prompt_float_from (label : string) (default : Q)
  (lines out : list string) : (run_exn + Q) * console :=
  let out := out ++ [(label ++ " [" ++ str_float default ++ "]: ")%string] in
  match lines with
  | [] => (inl EOFError, mkConsole [] out)
  | line :: rest =>
      let s := strip line in
      if String.eqb s "" then (inr default, mkConsole rest out)
      else
        match float_of_string s with
        | Some v => (inr v, mkConsole rest out)
        | None =>
            prompt_float_from label default rest
              (out ++ [("Invalid number, please try again." ++ nl)%string])
        end
  end.

(** [prompt_float(label, default)] *)
Definition prompt_float (label : string) (default : Q) : Run Q :=
  on_console (fun c => prompt_float_from label default (stdin c) (stdout c)).

(** The loop of [prompt_int], on the lines still to be read. *)
Fixpoint prompt_int_from (label : string) (default : Z)
  (lines out : list string) : (run_exn + Z) * console :=
  let out := out ++ [(label ++ " [" ++ str_int default ++ "]: ")%string] in
  match lines with
  | [] => (inl EOFError, mkConsole [] out)
  | line :: rest =>
      let s := strip line in
      if String.eqb s "" then (inr default, mkConsole rest out)
      else
        match int_of_string s with
        | Some v => (inr v, mkConsole rest out)
        | None =>
            prompt_int_from label default rest
              (out ++ [("Invalid integer, please try again." ++ nl)%string])
        end
  end.

(** [prompt_int(label, default)] *)
Definition prompt_int (label : string) (default : Z) : Run Z :=
  on_console (fun c => prompt_int_from label default (stdin c) (stdout c)).

(** [main()], for the given [sys.argv]. *)
Definition main (argv : list string) : Run unit :=
  if Nat.eqb (List.length argv) 1 then
    (* No arguments -> interactive mode *)
    print "Interactive grid STL generator" ;;>
    print ("Press Enter to accept the value in [brackets]." ++ nl) ;;>
    outer_width <~ prompt_float "Outer width in mm" 215.0 ;;
    outer_length <~ prompt_float "Outer length in mm" 115.0 ;;
    base_thickness <~ prompt_float "Base thickness in mm" 2.0 ;;
    wall_thickness <~ prompt_float "Wall thickness in mm" 2.0 ;;
    wall_height <~ prompt_float "Wall height in mm" 20.0 ;;
    cols <~ prompt_int "Number of columns" 5 ;;
    rows <~ prompt_int "Number of rows" 3 ;;
    line <~ input "Output STL filename [grid.stl]: " ;;
    let output := if String.eqb (strip line) "" then "grid.stl"%string else strip line in
    on_files (generate_grid outer_width outer_length base_thickness
                wall_thickness wall_height cols rows output) ;;>
    print (nl ++ "Done. Wrote STL to: " ++ output)
  else
    (* Arguments provided -> normal argparse mode *)
    args <~ parse_args argv ;;
    on_files (generate_grid (ns_outer_width args) (ns_outer_length args)
                (ns_base_thickness args) (ns_wall_thickness args)
                (ns_wall_height args) (ns_cols args) (ns_rows args)
                (ns_output args)) ;;>
    print ("Done. Wrote STL to: " ++ ns_output args).

End CommandLine.

(** ** Answers to a prompt *)

(** What a prompt makes of a line: the default for a blank line, the
    number read, or nothing when the line is not a number. *)
Definition answer {A} (strip : string -> string) (parse : string -> option A)
  (default : A) (line : string) : option A :=
  if String.eqb (strip line) "" then Some default else parse (strip line).

(** What a prompt writes while it rejects the given lines: the prompt and
    the error message for each of them. *)
Definition rejections (prompt message : string) (bad : list string) : list string :=
  flat_map (fun _ => [prompt; (message ++ nl)%string]) bad.

(** ** Outcomes of the program *)

(** The computation leaves the files as they are. *)
Definition keeps_files {A} (m : Run A) : Prop :=
  forall c w, snd (m c w) = w.

(** The file was opened, written with the lines of some solid and closed,
    and nothing else was done to the files. *)
Definition wrote_solid (w w' : world) (output : string) : Prop :=
  exists (solid_name : string) (triangles : list Triangle),
    w' = mkWorld (openable w)
           (oplog w ++ FileOpen output
              :: map (FileWrite output) (stl_lines solid_name triangles)
              ++ [FileClose output]).

(** The last text written to the console announces the file. *)
Definition announced (c' : console) (output : string) : Prop :=
  exists (before : list string) (lead : string),
    stdout c' = before ++ [((lead ++ "Done. Wrote STL to: " ++ output) ++ nl)%string] /\
    (lead = ""%string \/ lead = nl).

(** A run that returns has written one solid to a file and then announced
    that file; a run that fails otherwise than by an error of the file
    system has left the files untouched.  Nothing is said of a run that
    fails by an error of the file system. *)
Definition done_or_untouched (w : world)
  (res : (run_exn + unit) * console * world) : Prop :=
  match res with
  | (inl (Raised (OSError _)), _, _) => True
  | (inl _, _, w') => w' = w
  | (inr _, c', w') =>
      exists output : string, wrote_solid w w' output /\ announced c' output
  end.

(** * The program in double precision *)

(** The exact model above answers the questions of geometry, which the
    specification asks of real-valued millimetres.  What the program does
    with an [int] too large for a [float], with a sum that rounds, with a
    path [open] refuses or with a disk that fills up is read off a second
    embedding of the same source, in which a Python [float] is an IEEE 754
    binary64 number and every library call fails as it does in Python. *)

Module Binary64.

(** ** Numbers *)

(** A Python [float]: sign, mantissa and exponent of a binary64 number, a
    signed zero, an infinity or NaN. *)
Definition float : Type := spec_float.

(** The precision and the exponent bound of binary64. *)
Definition prec : Z := 53.
Definition emax : Z := 1024.

(** A number in canonical representation. *)
Definition is_double (x : float) : bool := valid_binary prec emax x.

(** The double nearest to the integer [z] (an infinity beyond the range):
    the value of a literal such as [2.0]. *)
Definition of_Z (z : Z) : float := binary_normalize prec emax z 0 false.

(** The double nearest to [m / 2^k]. *)
Definition dyadic (m k : Z) : float := binary_normalize prec emax m (- k) false.

(** [x + y], [x - y], [x * y] on floats: correctly rounded, never raising. *)
Definition fadd (x y : float) : float := SFadd prec emax x y.
Definition fsub (x y : float) : float := SFsub prec emax x y.
Definition fmul (x y : float) : float := SFmul prec emax x y.

(** [x < y] and [x <= y] on floats: false when an operand is NaN. *)
Definition fltb (x y : float) : bool := SFltb x y.
Definition fleb (x y : float) : bool := SFleb x y.

(** The number a finite double stands for; 0 for the others. *)
Definition to_Q (x : float) : Q :=
  match x with
  | S754_finite s m e => inject_Z (cond_Zopp s (Zpos m)) * 2 ^ e
  | _ => 0
  end.

(** [Vec3] and [Triangle] over doubles. *)
Definition Vec3 : Type := float * float * float.
Definition Triangle : Type := Vec3 * Vec3 * Vec3 * Vec3.

(** ** Exceptions *)

Inductive exn : Type :=
| ValueError (msg : string)
| OverflowError
| ZeroDivisionError
| OSError (filename : string).

(** A computation without effect that may raise. *)
Definition andthen {A B} (c : exn + A) (k : A -> exn + B) : exn + B :=
  match c with
  | inl e => inl e
  | inr a => k a
  end.

Notation "'let?' x ':=' c 'in' k" := (andthen c (fun x => k))
  (at level 10, x name, c at level 100, k at level 200).

(** The conversion of an [int] operand of a float operation: the nearest
    double, ties to even; [OverflowError] when that is beyond the range. *)
Definition float_of_int (n : Z) : exn + float :=
  match of_Z n with
  | S754_infinity _ => inl OverflowError
  | x => inr x
  end.

(** [n * x] for an [int] [n] and a [float] [x]. *)
Definition int_mul_float (n : Z) (x : float) : exn + float :=
  let? y := float_of_int n in
  inr (fmul y x).

(** [x / n] for a [float] [x] and an [int] [n]. *)
Definition float_div_int (x : float) (n : Z) : exn + float :=
  let? y := float_of_int n in
  if SFeqb y (S754_zero false) then inl ZeroDivisionError
  else inr (SFdiv prec emax x y).

(** ** The box primitive *)

Definition face (triangles : list Triangle) (normal a b c d : Vec3)
  : list Triangle :=
  (* Tri 1: a, b, c *)
  let triangles := triangles ++ [(normal, a, b, c)] in
  (* Tri 2: a, c, d *)
  let triangles := triangles ++ [(normal, a, c, d)] in
  triangles.

Definition add_box (triangles : list Triangle) (x0 y0 z0 x1 y1 z1 : float)
  : list Triangle :=
  (* Ensure proper ordering *)
  let '(x0, x1) := if fltb x1 x0 then (x1, x0) else (x0, x1) in
  let '(y0, y1) := if fltb y1 y0 then (y1, y0) else (y0, y1) in
  let '(z0, z1) := if fltb z1 z0 then (z1, z0) else (z0, z1) in
  (* Bottom rectangle (z=z0) *)
  let p000 := (x0, y0, z0) in
  let p100 := (x1, y0, z0) in
  let p110 := (x1, y1, z0) in
  let p010 := (x0, y1, z0) in
  (* Top rectangle (z=z1) *)
  let p001 := (x0, y0, z1) in
  let p101 := (x1, y0, z1) in
  let p111 := (x1, y1, z1) in
  let p011 := (x0, y1, z1) in
  (* Bottom face (z = z0), normal pointing -Z *)
  let triangles := face triangles (of_Z 0, of_Z 0, of_Z (-1)) p000 p100 p110 p010 in
  (* Top face (z = z1), normal pointing +Z *)
  let triangles := face triangles (of_Z 0, of_Z 0, of_Z 1) p001 p011 p111 p101 in
  (* -X face *)
  let triangles := face triangles (of_Z (-1), of_Z 0, of_Z 0) p000 p010 p011 p001 in
  (* +X face *)
  let triangles := face triangles (of_Z 1, of_Z 0, of_Z 0) p100 p101 p111 p110 in
  (* -Y face *)
  let triangles := face triangles (of_Z 0, of_Z (-1), of_Z 0) p000 p001 p101 p100 in
  (* +Y face *)
  let triangles := face triangles (of_Z 0, of_Z 1, of_Z 0) p010 p110 p111 p011 in
  triangles.

(** ** Files *)

(** The world a run acts on: which paths can be opened for writing, which
    operation on an open file fails (the device decides, knowing the
    operations made so far), and the file operations made so far. *)
Record world : Type := mkWorld {
  openable : string -> bool;
  faulty : list io_event -> bool;
  oplog : list io_event
}.

(** A computation that may raise and may perform file operations. *)
Definition IO (A : Type) : Type := world -> (exn + A) * world.

Definition ret {A} (a : A) : IO A := fun w => (inr a, w).

Definition raise {A} (e : exn) : IO A := fun w => (inl e, w).

Definition bind {A B} (c : IO A) (k : A -> IO B) : IO B :=
  fun w =>
    match c w with
    | (inl e, w') => (inl e, w')
    | (inr a, w') => k a w'
    end.

Declare Scope io64_scope.
Notation "x <- c ;; k" := (bind c (fun x => k))
  (at level 61, c at next level, right associativity) : io64_scope.
Notation "c ;;; k" := (bind c (fun _ => k))
  (at level 61, right associativity) : io64_scope.
Open Scope io64_scope.

Definition emit (ev : io_event) : IO unit :=
  fun w => (inr tt, mkWorld (openable w) (faulty w) (oplog w ++ [ev])).

(** A path holding the character of code 0. *)
Definition has_nul (path : string) : bool :=
  existsb (Ascii.eqb zero) (list_ascii_of_string path).

(** [open(filename, "w", encoding="utf-8")]: [ValueError] on a path with
    an embedded null character, [OSError] on a path that cannot be opened;
    the handle is the file name. *)
Definition open_w (filename : string) : IO string :=
  fun w =>
    if has_nul filename then (inl (ValueError "embedded null byte"), w)
    else if openable w filename
    then (inr filename,
          mkWorld (openable w) (faulty w) (oplog w ++ [FileOpen filename]))
    else (inl (OSError filename), w).

(** [f.write(data)]: [OSError] when the device fails. *)
Definition f_write (f : string) (data : string) : IO unit :=
  fun w =>
    if faulty w (oplog w) then (inl (OSError f), w)
    else emit (FileWrite f data) w.

(** Closing the file: the handle is released, and [OSError] is raised when
    the device fails on the last flush. *)
Definition f_close (f : string) : IO unit :=
  fun w =>
    if faulty w (oplog w)
    then (inl (OSError f), mkWorld (openable w) (faulty w) (oplog w ++ [FileClose f]))
    else emit (FileClose f) w.

(** [with open(filename, "w", encoding="utf-8") as f: body]: the file is
    closed on the way out, also when [body] raises, and the exception of
    [body] goes on. *)
Definition with_open (filename : string) (body : string -> IO unit) : IO unit :=
  f <- open_w filename ;;
  fun w =>
    match body f w with
    | (inl e, w') =>
        (inl e, mkWorld (openable w') (faulty w') (oplog w' ++ [FileClose f]))
    | (inr _, w') => f_close f w'
    end.

(** [for x in xs: body(x)] *)
Fixpoint for_each {A} (xs : list A) (body : A -> IO unit) : IO unit :=
  match xs with
  | [] => ret tt
  | x :: xs' => body x ;;; for_each xs' body
  end.

(** ** The serializer *)

(** The format specification [:.6g] on a double. *)
Definition g6 (x : float) : string :=
  match x with
  | S754_zero false => "0"
  | S754_zero true => "-0"
  | S754_infinity false => "inf"
  | S754_infinity true => "-inf"
  | S754_nan => "nan"
  | S754_finite _ _ _ => format_g 6 (to_Q x)
  end.

(** [v[0]], [v[1]], [v[2]] *)
Definition c0 (v : Vec3) : float := fst (fst v).
Definition c1 (v : Vec3) : float := snd (fst v).
Definition c2 (v : Vec3) : float := snd v.

(** [write_ascii_stl(filename, solid_name, triangles)] *)
Definition write_ascii_stl (filename solid_name : string)
  (triangles : list Triangle) : IO unit :=
  with_open filename (fun f =>
    f_write f ("solid " ++ solid_name ++ nl) ;;;
    for_each triangles (fun '(normal, v1, v2, v3) =>
      let '(nx, ny, nz) := normal in
      f_write f ("  facet normal " ++ g6 nx ++ " " ++ g6 ny ++ " " ++ g6 nz ++ nl) ;;;
      f_write f ("    outer loop" ++ nl) ;;;
      f_write f ("      vertex " ++ g6 (c0 v1) ++ " " ++ g6 (c1 v1) ++ " " ++ g6 (c2 v1) ++ nl) ;;;
      f_write f ("      vertex " ++ g6 (c0 v2) ++ " " ++ g6 (c1 v2) ++ " " ++ g6 (c2 v2) ++ nl) ;;;
      f_write f ("      vertex " ++ g6 (c0 v3) ++ " " ++ g6 (c1 v3) ++ " " ++ g6 (c2 v3) ++ nl) ;;;
      f_write f ("    endloop" ++ nl) ;;;
      f_write f ("  endfacet" ++ nl)) ;;;
    f_write f ("endsolid " ++ solid_name ++ nl)).

(** ** The layout planner and mesh assembler *)

(** Body of the loop [for col in range(cols)] over the state
    ([x], [triangles]). *)
Definition vertical_step
  (cell_width wall_thickness base_thickness outer_length total_height : float)
  (cols : Z) (st : float * list Triangle) (col : Z) : float * list Triangle :=
  let '(x, triangles) := st in
  let x_start_cell := x in
  let x_end_cell := fadd x_start_cell cell_width in
  let x := x_end_cell in
  if (col <? cols - 1)%Z then
    let x_wall_start := x in
    let x_wall_end := fadd x_wall_start wall_thickness in
    let triangles :=
      add_box triangles
        x_wall_start wall_thickness base_thickness
        x_wall_end (fsub outer_length wall_thickness) total_height in
    let x := x_wall_end in
    (x, triangles)
  else (x, triangles).

(** Body of the loop [for row in range(rows)] over the state
    ([y], [triangles]). *)
Definition horizontal_step
  (cell_length wall_thickness base_thickness outer_width total_height : float)
  (rows : Z) (st : float * list Triangle) (row : Z) : float * list Triangle :=
  let '(y, triangles) := st in
  let y_start_cell := y in
  let y_end_cell := fadd y_start_cell cell_length in
  let y := y_end_cell in
  if (row <? rows - 1)%Z then
    let y_wall_start := y in
    let y_wall_end := fadd y_wall_start wall_thickness in
    let triangles :=
      add_box triangles
        wall_thickness y_wall_start base_thickness
        (fsub outer_width wall_thickness) y_wall_end total_height in
    let y := y_wall_end in
    (y, triangles)
  else (y, triangles).

(** Lines 107-198 of [generate_grid]: the parameter checks, the mesh and
    the solid name; the result is what line 199 passes to the serializer,
    or the exception raised. *)
Definition grid_mesh
  (outer_width outer_length base_thickness wall_thickness wall_height : float)
  (cols rows : Z) : exn + string * list Triangle :=
  if ((cols <? 1) || (rows <? 1))%Z then
    inl (ValueError "cols and rows must be >= 1")
  else if fleb wall_thickness (of_Z 0) || fleb base_thickness (of_Z 0)
          || fleb wall_height (of_Z 0) then
    inl (ValueError "Thicknesses and heights must be > 0")
  else
    (* Available inner area inside the outer walls *)
    let inner_width := fsub outer_width (fmul (of_Z 2) wall_thickness) in
    let inner_length := fsub outer_length (fmul (of_Z 2) wall_thickness) in
    if fleb inner_width (of_Z 0) || fleb inner_length (of_Z 0) then
      inl (ValueError "Outer size is too small for the chosen wall thickness.")
    else
      (* Space taken up by internal grid walls *)
      let? total_internal_walls_x := int_mul_float (cols - 1) wall_thickness in
      let? total_internal_walls_y := int_mul_float (rows - 1) wall_thickness in
      (* Compute cell sizes (uniform cells) *)
      let? cell_width := float_div_int (fsub inner_width total_internal_walls_x) cols in
      let? cell_length := float_div_int (fsub inner_length total_internal_walls_y) rows in
      if fleb cell_width (of_Z 0) || fleb cell_length (of_Z 0) then
        inl (ValueError
               "Outer size too small for the chosen wall thickness and grid count.")
      else
        let triangles : list Triangle := [] in
        let total_height := fadd base_thickness wall_height in
        (* 1) Base slab (solid) *)
        let triangles :=
          add_box triangles (of_Z 0) (of_Z 0) (of_Z 0)
            outer_width outer_length base_thickness in
        (* 2) Outer walls *)
        (* Left wall *)
        let triangles :=
          add_box triangles
            (of_Z 0) (of_Z 0) base_thickness
            wall_thickness outer_length total_height in
        (* Right wall *)
        let triangles :=
          add_box triangles
            (fsub outer_width wall_thickness) (of_Z 0) base_thickness
            outer_width outer_length total_height in
        (* Front wall (Y = 0 edge) *)
        let triangles :=
          add_box triangles
            wall_thickness (of_Z 0) base_thickness
            (fsub outer_width wall_thickness) wall_thickness total_height in
        (* Back wall (Y = outer_length edge) *)
        let triangles :=
          add_box triangles
            wall_thickness (fsub outer_length wall_thickness) base_thickness
            (fsub outer_width wall_thickness) outer_length total_height in
        (* 3) Internal grid walls *)
        (* Vertical walls (parallel to Y, between columns) *)
        let x := wall_thickness in
        let '(x, triangles) :=
          fold_left
            (vertical_step cell_width wall_thickness base_thickness
               outer_length total_height cols)
            (range cols) (x, triangles) in
        (* Horizontal walls (parallel to X, between rows) *)
        let y := wall_thickness in
        let '(y, triangles) :=
          fold_left
            (horizontal_step cell_length wall_thickness base_thickness
               outer_width total_height rows)
            (range rows) (y, triangles) in
        let solid_name := ("grid_" ++ str_int cols ++ "x" ++ str_int rows)%string in
        inr (solid_name, triangles).

(** [generate_grid(outer_width, outer_length, base_thickness,
    wall_thickness, wall_height, cols, rows, filename)]: lines 107-198,
    then the call of the serializer on line 199. *)
Definition generate_grid
  (outer_width outer_length base_thickness wall_thickness wall_height : float)
  (cols rows : Z) (filename : string) : IO unit :=
  match grid_mesh outer_width outer_length base_thickness wall_thickness
          wall_height cols rows with
  | inl e => raise e
  | inr (solid_name, triangles) => write_ascii_stl filename solid_name triangles
  end.

(** ** Specification-side notions *)

(** The messages of the four parameter checks. *)
Definition validation_messages : list string :=
  ["cols and rows must be >= 1";
   "Thicknesses and heights must be > 0";
   "Outer size is too small for the chosen wall thickness.";
   "Outer size too small for the chosen wall thickness and grid count."]%string.

(** The error the specification calls [InvalidParameter]: a [ValueError]
    of one of the parameter checks. *)
Definition invalid_parameter (e : exn) : Prop :=
  exists msg, e = ValueError msg /\ In msg validation_messages.

(** [x <= 0] holds. *)
Definition nonpositive (x : float) : Prop := fleb x (of_Z 0) = true.

(** [outer - 2.0 * wall_thickness] *)
Definition inner_dim (outer wall_thickness : float) : float :=
  fsub outer (fmul (of_Z 2) wall_thickness).

(** [(outer - 2.0 * wall_thickness - (n - 1) * wall_thickness) / n] for a
    count [n >= 1], evaluated from left to right in doubles; nothing when
    [n - 1] or [n] does not convert to a double. *)
Definition cell_size (outer wall_thickness : float) (n : Z) : option float :=
  match float_of_int (n - 1), float_of_int n with
  | inr a, inr b =>
      Some (SFdiv prec emax (fsub (inner_dim outer wall_thickness) (fmul a wall_thickness)) b)
  | _, _ => None
  end.

(** The cell width and the cell length, when both are computed. *)
Definition cell_sizes (outer_width outer_length wall_thickness : float)
  (cols rows : Z) : option (float * float) :=
  match cell_size outer_width wall_thickness cols,
        cell_size outer_length wall_thickness rows with
  | Some cell_width, Some cell_length => Some (cell_width, cell_length)
  | _, _ => None
  end.

Definition counts_ok (cols rows : Z) : Prop := (1 <= cols /\ 1 <= rows)%Z.

Definition thickness_ok (wall_thickness base_thickness wall_height : float) : Prop :=
  ~ nonpositive wall_thickness /\ ~ nonpositive base_thickness /\
  ~ nonpositive wall_height.

Definition inner_ok (outer_width outer_length wall_thickness : float) : Prop :=
  ~ nonpositive (inner_dim outer_width wall_thickness) /\
  ~ nonpositive (inner_dim outer_length wall_thickness).

(** The conditions under which the specification has the planner fail with
    [InvalidParameter], each comparison made on the double the program
    computes. *)
Definition invalid_params
  (outer_width outer_length base_thickness wall_thickness wall_height : float)
  (cols rows : Z) : Prop :=
  (cols < 1)%Z \/ (rows < 1)%Z \/
  nonpositive wall_thickness \/ nonpositive base_thickness \/
  nonpositive wall_height \/
  nonpositive (inner_dim outer_width wall_thickness) \/
  nonpositive (inner_dim outer_length wall_thickness) \/
  exists cell_width cell_length,
    cell_sizes outer_width outer_length wall_thickness cols rows
      = Some (cell_width, cell_length) /\
    (nonpositive cell_width \/ nonpositive cell_length).

(** The counts and the sizes pass their checks, and a count is too large
    for a double. *)
Definition unconvertible_params
  (outer_width outer_length base_thickness wall_thickness wall_height : float)
  (cols rows : Z) : Prop :=
  counts_ok cols rows /\
  thickness_ok wall_thickness base_thickness wall_height /\
  inner_ok outer_width outer_length wall_thickness /\
  cell_sizes outer_width outer_length wall_thickness cols rows = None.

(** All the checks pass. *)
Definition valid_params
  (outer_width outer_length base_thickness wall_thickness wall_height : float)
  (cols rows : Z) : Prop :=
  counts_ok cols rows /\
  thickness_ok wall_thickness base_thickness wall_height /\
  inner_ok outer_width outer_length wall_thickness /\
  exists cell_width cell_length,
    cell_sizes outer_width outer_length wall_thickness cols rows
      = Some (cell_width, cell_length) /\
    ~ nonpositive cell_width /\ ~ nonpositive cell_length.

(** The lines of the exchange format, one per [f.write]. *)
Definition vertex_line (v : Vec3) : string :=
  "      vertex " ++ g6 (c0 v) ++ " " ++ g6 (c1 v) ++ " " ++ g6 (c2 v) ++ nl.

Definition facet_lines (t : Triangle) : list string :=
  let '(normal, v1, v2, v3) := t in
  let '(nx, ny, nz) := normal in
  [ "  facet normal " ++ g6 nx ++ " " ++ g6 ny ++ " " ++ g6 nz ++ nl;
    "    outer loop" ++ nl;
    vertex_line v1; vertex_line v2; vertex_line v3;
    "    endloop" ++ nl;
    "  endfacet" ++ nl ]%string.

Definition stl_lines (solid_name : string) (triangles : list Triangle)
  : list string :=
  (("solid " ++ solid_name ++ nl)%string :: flat_map facet_lines triangles)
  ++ [("endsolid " ++ solid_name ++ nl)%string].

Definition stl_text (solid_name : string) (triangles : list Triangle) : string :=
  String.concat "" (stl_lines solid_name triangles).

(** The log once [filename] has been opened and the first [k] of [lines]
    written. *)
Definition after_writes (w : world) (filename : string) (lines : list string)
  (k : nat) : list io_event :=
  oplog w ++ FileOpen filename :: map (FileWrite filename) (firstn k lines).

(** The device lets [filename] be opened and the first [k] of [lines] be
    written, and fails on the next operation: the write of line [k], or
    the closing of the file when [k] is the number of lines. *)
Definition fails_at (w : world) (filename : string) (lines : list string)
  (k : nat) : Prop :=
  (k <= List.length lines)%nat /\
  faulty w (after_writes w filename lines k) = true /\
  forall j, (j < k)%nat -> faulty w (after_writes w filename lines j) = false.

(** The device does not fail while [lines] are written to [filename] and
    the file is closed. *)
Definition fault_free (w : world) (filename : string) (lines : list string) : Prop :=
  forall k, (k <= List.length lines)%nat ->
    faulty w (after_writes w filename lines k) = false.

(** The extent of box [k] of a mesh, read off its triangles: the first
    vertex of triangle [12 k] and the third vertex of triangle [12 k + 2],
    which [add_box] makes of the corners [p000] and [p111]. *)
Definition box_extent (mesh : list Triangle) (k : nat) : option (Vec3 * Vec3) :=
  match nth_error mesh (12 * k), nth_error mesh (12 * k + 2) with
  | Some (_, p000, _, _), Some (_, _, _, p111) => Some (p000, p111)
  | _, _ => None
  end.

(** The numbers the coordinates of a point stand for. *)
Definition numbers (v : Vec3) : Q * Q * Q :=
  (to_Q (c0 v), to_Q (c1 v), to_Q (c2 v)).

(** ** Concrete inputs *)

(** A device on which every path opens and no operation fails, with no
    operation made yet. *)
Definition sound_world : world := mkWorld (fun _ => true) (fun _ => false) [].

(** A device that fails once the file has been opened and [n] lines
    written. *)
Definition full_after (n : nat) : world :=
  mkWorld (fun _ => true) (fun log => (n <? List.length log)%nat) [].

(** The doubles written [2.1], [0.3], [132.75], [2.4] and
    [1.1000000000000005] in Python. *)
Definition d2_1 : float := dyadic 4728779608739021 51.
Definition d0_3 : float := dyadic 5404319552844595 54.
Definition d132_75 : float := dyadic 531 2.
Definition d2_4 : float := dyadic 5404319552844595 51.
Definition d0_1 : float := dyadic 3602879701896397 55.
Definition d1_1000000000000005 : float := dyadic 1238489897526887 50.

(** A path with an embedded null character. *)
Definition nul_path : string := String "a" (String zero "b").

End Binary64.

(** * Lemmas *)

Lemma Qltb_true (a b : Q) : Qltb a b = true <-> a < b.
Proof.
  unfold Qltb. rewrite negb_true_iff, <- not_true_iff_false, Qle_bool_iff.
  split; intro H; [ now apply Qnot_le_lt | now apply Qlt_not_le ].
Qed.

Lemma Qltb_false (a b : Q) : Qltb a b = false <-> b <= a.
Proof.
  unfold Qltb. rewrite negb_false_iff. apply Qle_bool_iff.
Qed.

Lemma Qleb_true (a b : Q) : Qleb a b = true <-> a <= b.
Proof. apply Qle_bool_iff. Qed.

Lemma Qleb_false (a b : Q) : Qleb a b = false <-> b < a.
Proof.
  unfold Qleb. rewrite <- not_true_iff_false, Qle_bool_iff.
  split; intro H; [ now apply Qnot_le_lt | now apply Qlt_not_le ].
Qed.

(** ** The box builder *)

Lemma swap_ordered (a b : Q) :
  let '(lo, hi) := if Qltb b a then (b, a) else (a, b) in ordered_pair a b lo hi.
Proof.
  destruct (Qltb b a) eqn:E; unfold ordered_pair.
  - apply Qltb_true in E. split; [ now apply Qlt_le_weak | now right ].
  - apply Qltb_false in E. split; [ exact E | now left ].
Qed.

Lemma add_box_table (ts : list Triangle) (x0 y0 z0 x1 y1 z1 : Q) :
  add_box ts x0 y0 z0 x1 y1 z1 =
  let '(a0, a1) := if Qltb x1 x0 then (x1, x0) else (x0, x1) in
  let '(b0, b1) := if Qltb y1 y0 then (y1, y0) else (y0, y1) in
  let '(d0, d1) := if Qltb z1 z0 then (z1, z0) else (z0, z1) in
  ts ++ box_table a0 b0 d0 a1 b1 d1.
Proof.
  unfold add_box, face, box_table.
  destruct (Qltb x1 x0), (Qltb y1 y0), (Qltb z1 z0);
    repeat rewrite <- app_assoc; reflexivity.
Qed.

(** C3. For any two opposite corners, [add_box] appends to the list exactly
    the twelve triangles of the table of section 4.1 (two per face, in the
    face order bottom, top, -X, +X, -Y, +Y, with the table's normals and
    vertex orders), built on the corners put in order per axis; nothing is
    required of the corners, so degenerate boxes are included. *)
Theorem add_box_appends_table (ts : list Triangle) (x0 y0 z0 x1 y1 z1 : Q) :
  exists a0 a1 b0 b1 d0 d1 : Q,
    ordered_pair x0 x1 a0 a1 /\ ordered_pair y0 y1 b0 b1 /\
    ordered_pair z0 z1 d0 d1 /\
    add_box ts x0 y0 z0 x1 y1 z1 = ts ++ box_table a0 b0 d0 a1 b1 d1 /\
    List.length (box_table a0 b0 d0 a1 b1 d1) = 12%nat.
Proof.
  rewrite add_box_table.
  pose proof (swap_ordered x0 x1) as Hx.
  pose proof (swap_ordered y0 y1) as Hy.
  pose proof (swap_ordered z0 z1) as Hz.
  destruct (if Qltb x1 x0 then (x1, x0) else (x0, x1)) as [a0 a1].
  destruct (if Qltb y1 y0 then (y1, y0) else (y0, y1)) as [b0 b1].
  destruct (if Qltb z1 z0 then (z1, z0) else (z0, z1)) as [d0 d1].
  exists a0, a1, b0, b1, d0, d1.
  split; [ exact Hx | split; [ exact Hy | split; [ exact Hz | split; reflexivity ] ] ].
Qed.

(** ** Equality of points, triangles and meshes as numbers *)

Lemma Veq_refl (a : Vec3) : Veq a a.
Proof. unfold Veq. repeat split; reflexivity. Qed.

Lemma Teq_refl (t : Triangle) : Teq t t.
Proof. unfold Teq. repeat split; reflexivity. Qed.

Lemma Meq_refl (l : list Triangle) : Meq l l.
Proof. induction l; constructor; [ apply Teq_refl | exact IHl ]. Qed.

Lemma Veq_sym (a b : Vec3) : Veq a b -> Veq b a.
Proof. unfold Veq. intros (H0 & H1 & H2). repeat split; symmetry; assumption. Qed.

Lemma Veq_trans (a b c : Vec3) : Veq a b -> Veq b c -> Veq a c.
Proof.
  unfold Veq. intros (H0 & H1 & H2) (K0 & K1 & K2).
  repeat split; etransitivity; eassumption.
Qed.

Lemma Teq_sym (s t : Triangle) : Teq s t -> Teq t s.
Proof. unfold Teq. intros (H0 & H1 & H2 & H3). repeat split; apply Veq_sym; assumption. Qed.

Lemma Teq_trans (s t u : Triangle) : Teq s t -> Teq t u -> Teq s u.
Proof.
  unfold Teq. intros (H0 & H1 & H2 & H3) (K0 & K1 & K2 & K3).
  repeat split; eapply Veq_trans; eassumption.
Qed.

Lemma Meq_sym (l m : list Triangle) : Meq l m -> Meq m l.
Proof. induction 1; constructor; [ now apply Teq_sym | assumption ]. Qed.

Lemma Meq_trans (l m n : list Triangle) : Meq l m -> Meq m n -> Meq l n.
Proof.
  intros H; revert n. induction H; intros n K; inversion K; subst; constructor.
  - eapply Teq_trans; eassumption.
  - now apply IHForall2.
Qed.

Lemma Meq_length (l m : list Triangle) : Meq l m -> List.length l = List.length m.
Proof. induction 1; simpl; congruence. Qed.

Lemma box_table_Meq (x0 y0 z0 x1 y1 z1 x0' y0' z0' x1' y1' z1' : Q) :
  x0 == x0' -> y0 == y0' -> z0 == z0' -> x1 == x1' -> y1 == y1' -> z1 == z1' ->
  Meq (box_table x0 y0 z0 x1 y1 z1) (box_table x0' y0' z0' x1' y1' z1').
Proof.
  intros. unfold box_table, Meq.
  repeat (constructor; [ unfold Teq, Veq; simpl; repeat split; assumption || reflexivity | ]).
  constructor.
Qed.

Lemma swap_symmetric (a b : Q) :
  let '(lo, hi) := if Qltb b a then (b, a) else (a, b) in
  let '(lo', hi') := if Qltb a b then (a, b) else (b, a) in
  lo == lo' /\ hi == hi'.
Proof.
  destruct (Qltb b a) eqn:E1, (Qltb a b) eqn:E2;
    rewrite ?Qltb_true, ?Qltb_false in E1, E2; split; try reflexivity; lra.
Qed.

(** ** The loops of the planner *)

Lemma add_box_app (ts : list Triangle) (x0 y0 z0 x1 y1 z1 : Q) :
  add_box ts x0 y0 z0 x1 y1 z1 = ts ++ add_box [] x0 y0 z0 x1 y1 z1.
Proof.
  rewrite (add_box_table ts), (add_box_table []).
  destruct (Qltb x1 x0), (Qltb y1 y0), (Qltb z1 z0); reflexivity.
Qed.

Lemma range_last (n : Z) :
  (1 <= n)%Z ->
  range n = map Z.of_nat (seq 0 (Z.to_nat (n - 1))) ++ [(n - 1)%Z].
Proof.
  intros Hn. unfold range.
  replace (Z.to_nat n) with (S (Z.to_nat (n - 1))) by lia.
  rewrite seq_S, map_app. simpl. f_equal. f_equal. lia.
Qed.

Section Loops.
Variables cell wall : Q.
Variable count : Z.
Variable step : Q * list Triangle -> Z -> Q * list Triangle.
Variable mk : Q -> Box.

(** Away from the last iteration the body advances the cursor by a cell
    and a wall and appends the box of the wall. *)
Hypothesis step_wall : forall x ts col,
  (col < count - 1)%Z ->
  step (x, ts) col = (x + cell + wall, ts ++ box_triangles (mk (x + cell))).

(** The last iteration advances the cursor by a cell and appends nothing. *)
Hypothesis step_last : forall x ts,
  step (x, ts) (count - 1)%Z = (x + cell, ts).

Lemma cursor_loop_walls (n k : nat) (x : Q) (ts : list Triangle) :
  (Z.of_nat (k + n) <= count - 1)%Z ->
  snd (fold_left step (map Z.of_nat (seq k n)) (x, ts))
  = ts ++ flat_map box_triangles (map mk (divider_starts x cell wall n)).
Proof.
  revert k x ts. induction n as [|n IH]; intros k x ts Hk.
  - simpl. now rewrite app_nil_r.
  - cbn [seq map fold_left divider_starts flat_map].
    rewrite step_wall by lia. rewrite IH by lia.
    now rewrite <- app_assoc.
Qed.

Lemma cursor_loop (x : Q) (ts : list Triangle) :
  (1 <= count)%Z ->
  snd (fold_left step (range count) (x, ts))
  = ts ++ flat_map box_triangles
            (map mk (divider_starts x cell wall (Z.to_nat (count - 1)))).
Proof.
  intros Hc. rewrite range_last by exact Hc. rewrite fold_left_app.
  pose proof (cursor_loop_walls (Z.to_nat (count - 1)) 0 x ts) as H.
  destruct (fold_left step (map Z.of_nat (seq 0 (Z.to_nat (count - 1)))) (x, ts))
    as [x' ts'].
  cbn [fold_left]. rewrite step_last. simpl in *. apply H. lia.
Qed.
End Loops.

Lemma vertical_step_wall cell wt bt outer th count x ts col :
  (col < count - 1)%Z ->
  vertical_step cell wt bt outer th count (x, ts) col
  = (x + cell + wt,
     ts ++ box_triangles ((x + cell, wt, bt), (x + cell + wt, outer - wt, th))).
Proof.
  intros H. unfold vertical_step, box_triangles.
  apply Z.ltb_lt in H. rewrite H. now rewrite add_box_app.
Qed.

Lemma vertical_step_last cell wt bt outer th count x ts :
  vertical_step cell wt bt outer th count (x, ts) (count - 1)%Z = (x + cell, ts).
Proof. unfold vertical_step. now rewrite Z.ltb_irrefl. Qed.

Lemma horizontal_step_wall cell wt bt outer th count y ts row :
  (row < count - 1)%Z ->
  horizontal_step cell wt bt outer th count (y, ts) row
  = (y + cell + wt,
     ts ++ box_triangles ((wt, y + cell, bt), (outer - wt, y + cell + wt, th))).
Proof.
  intros H. unfold horizontal_step, box_triangles.
  apply Z.ltb_lt in H. rewrite H. now rewrite add_box_app.
Qed.

Lemma horizontal_step_last cell wt bt outer th count y ts :
  horizontal_step cell wt bt outer th count (y, ts) (count - 1)%Z = (y + cell, ts).
Proof. unfold horizontal_step. now rewrite Z.ltb_irrefl. Qed.

(** ** The checks of the planner *)

Section Checks.
Variables outer_width outer_length base_thickness wall_thickness wall_height : Q.
Variables cols rows : Z.

Lemma grid_mesh_invalid :
  invalid_params outer_width outer_length base_thickness wall_thickness
    wall_height cols rows ->
  exists msg,
    grid_mesh outer_width outer_length base_thickness wall_thickness
      wall_height cols rows = inl (ValueError msg).
Proof.
  intros H. unfold grid_mesh.
  destruct ((cols <? 1) || (rows <? 1))%Z eqn:E1; [ eexists; reflexivity | ].
  destruct (Qleb wall_thickness 0 || Qleb base_thickness 0 || Qleb wall_height 0)
    eqn:E2; [ eexists; reflexivity | ].
  destruct (Qleb (outer_width - 2.0 * wall_thickness) 0
            || Qleb (outer_length - 2.0 * wall_thickness) 0)
    eqn:E3; [ eexists; reflexivity | ].
  destruct (Qleb ((outer_width - 2.0 * wall_thickness
                   - inject_Z (cols - 1) * wall_thickness) / inject_Z cols) 0
            || Qleb ((outer_length - 2.0 * wall_thickness
                      - inject_Z (rows - 1) * wall_thickness) / inject_Z rows) 0)
    eqn:E4; [ eexists; reflexivity | ].
  exfalso.
  rewrite !orb_false_iff in *. rewrite !Z.ltb_ge in E1. rewrite !Qleb_false in *.
  unfold invalid_params, cell_size, inner_dim in H.
  destruct E1, E2 as [[? ?] ?], E3, E4.
  destruct H as [H|[H|[H|[H|[H|[H|[H|[H|H]]]]]]]]; try lia; lra.
Qed.

Lemma grid_mesh_valid :
  valid_params outer_width outer_length base_thickness wall_thickness
    wall_height cols rows ->
  grid_mesh outer_width outer_length base_thickness wall_thickness
    wall_height cols rows
  = inr (("grid_" ++ str_int cols ++ "x" ++ str_int rows)%string,
         flat_map box_triangles
           (grid_plan outer_width outer_length base_thickness wall_thickness
              wall_height cols rows)).
Proof.
  intros (Hc & Hr & Hwt & Hbt & Hwh & Hiw & Hil & Hcw & Hcl).
  unfold cell_size, inner_dim in *. unfold grid_mesh.
  replace ((cols <? 1) || (rows <? 1))%Z with false
    by (symmetry; apply orb_false_iff; split; apply Z.ltb_ge; lia).
  replace (Qleb wall_thickness 0 || Qleb base_thickness 0 || Qleb wall_height 0)
    with false
    by (symmetry; rewrite !orb_false_iff, !Qleb_false; tauto).
  replace (Qleb (outer_width - 2.0 * wall_thickness) 0
           || Qleb (outer_length - 2.0 * wall_thickness) 0) with false
    by (symmetry; rewrite !orb_false_iff, !Qleb_false; tauto).
  replace (Qleb ((outer_width - 2.0 * wall_thickness
                  - inject_Z (cols - 1) * wall_thickness) / inject_Z cols) 0
           || Qleb ((outer_length - 2.0 * wall_thickness
                     - inject_Z (rows - 1) * wall_thickness) / inject_Z rows) 0)
    with false
    by (symmetry; rewrite !orb_false_iff, !Qleb_false; tauto).
  cbv zeta.
  match goal with
  | |- context [fold_left ?f (range cols) (?x, ?ts)] =>
      pose proof (cursor_loop _ wall_thickness cols f
                    (vertical_box outer_length base_thickness wall_thickness wall_height)
                    (vertical_step_wall _ _ _ _ _ _)
                    (vertical_step_last _ _ _ _ _ _) x ts Hc) as Hv;
      destruct (fold_left f (range cols) (x, ts)) as [x' tsv]
  end.
  match goal with
  | |- context [fold_left ?f (range rows) (?y, ?ts)] =>
      pose proof (cursor_loop _ wall_thickness rows f
                    (horizontal_box outer_width base_thickness wall_thickness wall_height)
                    (horizontal_step_wall _ _ _ _ _ _)
                    (horizontal_step_last _ _ _ _ _ _) y ts Hr) as Hh;
      destruct (fold_left f (range rows) (y, ts)) as [y' tsh]
  end.
  simpl snd in Hv, Hh. subst tsh tsv.
  f_equal. f_equal.
  unfold grid_plan, vertical_dividers, horizontal_dividers, shell_boxes,
    cell_size, inner_dim.
  rewrite !flat_map_app. cbn [flat_map box_triangles].
  rewrite (add_box_app (add_box _ _ _ _ _ _ _)).
  rewrite (add_box_app (add_box _ _ _ _ _ _ _)).
  rewrite (add_box_app (add_box _ _ _ _ _ _ _)).
  rewrite (add_box_app (add_box _ _ _ _ _ _ _)).
  rewrite app_nil_r, <- !app_assoc. reflexivity.
Qed.
End Checks.

(** ** Positions of the dividers *)

Lemma divider_starts_length (x c w : Q) (n : nat) :
  List.length (divider_starts x c w n) = n.
Proof. revert x; induction n; intros x; simpl; [ reflexivity | now rewrite IHn ]. Qed.

Lemma inject_Z_S (n : nat) :
  inject_Z (Z.of_nat (S n)) == inject_Z (Z.of_nat n) + 1.
Proof. rewrite Nat2Z.inj_succ. unfold Z.succ. now rewrite inject_Z_plus. Qed.

Lemma inject_Z_nat_nonneg (n : nat) : 0 <= inject_Z (Z.of_nat n).
Proof. change 0 with (inject_Z 0). rewrite <- Zle_Qle. lia. Qed.

Lemma divider_starts_bounds (c w : Q) (n : nat) (x s : Q) :
  0 < c -> 0 < w -> In s (divider_starts x c w n) ->
  x + c <= s /\ s + w <= x + inject_Z (Z.of_nat n) * (c + w).
Proof.
  intros Hc Hw. revert x. induction n as [|n IH]; intros x Hin; [ contradiction | ].
  pose proof (inject_Z_S n) as HS. pose proof (inject_Z_nat_nonneg n) as Hn.
  assert (0 <= inject_Z (Z.of_nat n) * (c + w)) by (apply Qmult_le_0_compat; lra).
  destruct Hin as [<- | Hin].
  - rewrite HS. split; lra.
  - apply IH in Hin. rewrite HS. split; lra.
Qed.

(** A divider ends at least a cell before every later divider starts. *)
Lemma divider_starts_apart (c w : Q) (n : nat) (x : Q) :
  0 < c -> 0 < w ->
  ForallOrdPairs (fun s s' => s + w + c <= s') (divider_starts x c w n).
Proof.
  intros Hc Hw. revert x. induction n as [|n IH]; intros x; simpl.
  - constructor.
  - constructor; [ | apply IH ].
    apply Forall_forall. intros s Hs.
    apply (divider_starts_bounds c w n _ s Hc Hw) in Hs. lra.
Qed.

Lemma cell_size_total (outer wt : Q) (n : Z) :
  (1 <= n)%Z ->
  inject_Z n * cell_size outer wt n
  == inner_dim outer wt - (inject_Z n - 1) * wt.
Proof.
  intros Hn. unfold cell_size.
  assert (~ inject_Z n == 0).
  { assert (0 < inject_Z n) by (change 0 with (inject_Z 0); rewrite <- Zlt_Qlt; lia).
    lra. }
  replace (n - 1)%Z with (n + -1)%Z by lia. rewrite inject_Z_plus.
  change (inject_Z (-1)) with (-1). field. assumption.
Qed.

(** Every divider lies strictly inside the inner area, a cell away from
    both outer walls. *)
Lemma dividers_inside (outer wt : Q) (n : Z) (s : Q) :
  (1 <= n)%Z -> 0 < wt -> 0 < cell_size outer wt n ->
  In s (divider_starts wt (cell_size outer wt n) wt (Z.to_nat (n - 1))) ->
  wt + cell_size outer wt n <= s /\
  s + wt + cell_size outer wt n <= outer - wt.
Proof.
  intros Hn Hwt Hc Hin.
  apply divider_starts_bounds in Hin; try assumption.
  rewrite Z2Nat.id in Hin by lia.
  pose proof (cell_size_total outer wt n Hn) as Ht.
  replace (n - 1)%Z with (n + -1)%Z in Hin by lia.
  rewrite inject_Z_plus in Hin. change (inject_Z (-1)) with (-1) in Hin.
  unfold inner_dim in Ht. split; [ tauto | ]. lra.
Qed.

(** ** The boxes of the plan *)

Section PlanFacts.
Variables outer_width outer_length base_thickness wall_thickness wall_height : Q.
Variables cols rows : Z.
Hypothesis Hvalid :
  valid_params outer_width outer_length base_thickness wall_thickness
    wall_height cols rows.

Let plan :=
  grid_plan outer_width outer_length base_thickness wall_thickness
    wall_height cols rows.

Lemma plan_length :
  Z.of_nat (List.length plan) = (5 + (cols - 1) + (rows - 1))%Z.
Proof.
  destruct Hvalid as (Hc & Hr & _).
  unfold plan, grid_plan, vertical_dividers, horizontal_dividers, shell_boxes.
  rewrite !length_app, !length_map, !divider_starts_length. simpl List.length. lia.
Qed.

Lemma plan_proper_in_bounds :
  Forall (fun b => proper_box b /\
                   box_in_bounds outer_width outer_length
                     (base_thickness + wall_height) b) plan.
Proof.
  destruct Hvalid as (Hc & Hr & Hwt & Hbt & Hwh & Hiw & Hil & Hcw & Hcl).
  unfold inner_dim in Hiw, Hil.
  unfold plan, grid_plan. rewrite !Forall_app. repeat split.
  - unfold shell_boxes, proper_box, box_in_bounds, in_bounds, c0, c1, c2.
    repeat (constructor; [ simpl; repeat split; lra | ]). constructor.
  - unfold vertical_dividers. rewrite Forall_map. apply Forall_forall.
    intros s Hs. apply dividers_inside in Hs; try assumption.
    unfold vertical_box, proper_box, box_in_bounds, in_bounds, c0, c1, c2.
    simpl. repeat split; lra.
  - unfold horizontal_dividers. rewrite Forall_map. apply Forall_forall.
    intros s Hs. apply dividers_inside in Hs; try assumption.
    unfold horizontal_box, proper_box, box_in_bounds, in_bounds, c0, c1, c2.
    simpl. repeat split; lra.
Qed.
End PlanFacts.

(** ** Triangles of a box in order *)

Lemma box_triangles_proper (b : Box) :
  proper_box b ->
  box_triangles b
  = box_table (c0 (fst b)) (c1 (fst b)) (c2 (fst b))
      (c0 (snd b)) (c1 (snd b)) (c2 (snd b)).
Proof.
  destruct b as [[[x0 y0] z0] [[x1 y1] z1]]. intros (Hx & Hy & Hz).
  unfold box_triangles. rewrite add_box_table.
  replace (Qltb x1 x0) with false by (symmetry; apply Qltb_false; lra).
  replace (Qltb y1 y0) with false by (symmetry; apply Qltb_false; lra).
  replace (Qltb z1 z0) with false by (symmetry; apply Qltb_false; lra).
  reflexivity.
Qed.

Lemma box_triangles_length (b : Box) : List.length (box_triangles b) = 12%nat.
Proof.
  destruct b as [[[x0 y0] z0] [[x1 y1] z1]].
  unfold box_triangles. rewrite add_box_table.
  destruct (Qltb x1 x0), (Qltb y1 y0), (Qltb z1 z0); reflexivity.
Qed.

Lemma flat_map_box_triangles_length (l : list Box) :
  List.length (flat_map box_triangles l) = (12 * List.length l)%nat.
Proof.
  induction l as [|b l IH]; [ reflexivity | ].
  cbn [flat_map]. rewrite length_app, box_triangles_length, IH. simpl List.length. lia.
Qed.

(** Every vertex of a triangle of the table is a corner of the box. *)
Lemma box_table_vertices (x0 y0 z0 x1 y1 z1 : Q) (t : Triangle) (p : Vec3) :
  In t (box_table x0 y0 z0 x1 y1 z1) -> In p (vertices t) ->
  (c0 p = x0 \/ c0 p = x1) /\ (c1 p = y0 \/ c1 p = y1) /\ (c2 p = z0 \/ c2 p = z1).
Proof.
  unfold box_table. intros Ht Hp. simpl in Ht.
  repeat (destruct Ht as [<- | Ht];
          [ simpl in Hp; repeat (destruct Hp as [<- | Hp]; [ simpl; tauto | ]);
            contradiction | ]).
  contradiction.
Qed.

Lemma in_bounds_corner (ow ol th : Q) (lo hi p : Vec3) :
  in_bounds ow ol th lo -> in_bounds ow ol th hi ->
  (c0 p = c0 lo \/ c0 p = c0 hi) -> (c1 p = c1 lo \/ c1 p = c1 hi) ->
  (c2 p = c2 lo \/ c2 p = c2 hi) ->
  in_bounds ow ol th p.
Proof.
  unfold in_bounds. intros Hlo Hhi [-> | ->] [-> | ->] [-> | ->]; tauto.
Qed.

(** C1. For every parameter set that passes all the checks, the triangle
    list [generate_grid] builds for the serializer has exactly
    [12 * (5 + (cols-1) + (rows-1))] triangles; for [cols = 1] and [rows = 1]
    these are the 60 triangles of the base slab and the four outer walls, no
    divider box being emitted. *)
Theorem mesh_triangle_count
  (outer_width outer_length base_thickness wall_thickness wall_height : Q)
  (cols rows : Z) :
  valid_params outer_width outer_length base_thickness wall_thickness
    wall_height cols rows ->
  exists (solid_name : string) (triangles : list Triangle),
    grid_mesh outer_width outer_length base_thickness wall_thickness
      wall_height cols rows = inr (solid_name, triangles) /\
    (forall filename,
        generate_grid outer_width outer_length base_thickness wall_thickness
          wall_height cols rows filename
        = write_ascii_stl filename solid_name triangles) /\
    Z.of_nat (List.length triangles) = (12 * (5 + (cols - 1) + (rows - 1)))%Z /\
    (cols = 1%Z -> rows = 1%Z ->
     List.length triangles = 60%nat /\
     triangles = flat_map box_triangles
                   (shell_boxes outer_width outer_length base_thickness
                      wall_thickness wall_height)).
Proof.
  intros Hv. pose proof (grid_mesh_valid _ _ _ _ _ _ _ Hv) as Hm.
  eexists; eexists. split; [ exact Hm | ]. split; [ | split ].
  - intros filename. unfold generate_grid. rewrite Hm. reflexivity.
  - rewrite flat_map_box_triangles_length, Nat2Z.inj_mul.
    rewrite (plan_length _ _ _ _ _ _ _ Hv). reflexivity.
  - intros -> ->. split.
    + rewrite flat_map_box_triangles_length. reflexivity.
    + unfold grid_plan, vertical_dividers, horizontal_dividers. simpl.
      rewrite app_nil_r. reflexivity.
Qed.

(** Checks a concrete parameter set by evaluation. *)
Ltac check_valid_params :=
  unfold valid_params, cell_size, inner_dim; repeat split; try lia; reflexivity.

Lemma mesh_triangle_count_witness :
  valid_params 10 10 1 1 1 1 1 /\
  exists (solid_name : string) (triangles : list Triangle),
    grid_mesh 10 10 1 1 1 1 1 = inr (solid_name, triangles) /\
    (forall filename,
        generate_grid 10 10 1 1 1 1 1 filename
        = write_ascii_stl filename solid_name triangles) /\
    Z.of_nat (List.length triangles) = (12 * (5 + (1 - 1) + (1 - 1)))%Z /\
    (1%Z = 1%Z -> 1%Z = 1%Z ->
     List.length triangles = 60%nat /\
     triangles = flat_map box_triangles (shell_boxes 10 10 1 1 1)).
Proof.
  split; [ check_valid_params | ].
  apply (mesh_triangle_count 10 10 1 1 1 1 1). check_valid_params.
Defined.

(** ** Vertices stay in the bounding box *)

Lemma box_vertices_in_bounds (ow ol th : Q) (b : Box) (t : Triangle) (p : Vec3) :
  proper_box b -> box_in_bounds ow ol th b ->
  In t (box_triangles b) -> In p (vertices t) -> in_bounds ow ol th p.
Proof.
  intros Hp [Hlo Hhi] Ht Hin. rewrite box_triangles_proper in Ht by exact Hp.
  destruct (box_table_vertices _ _ _ _ _ _ t p Ht Hin) as (Hx & Hy & Hz).
  apply (in_bounds_corner ow ol th (fst b) (snd b)); assumption.
Qed.

Lemma plan_triangles_in_bounds
  (outer_width outer_length base_thickness wall_thickness wall_height : Q)
  (cols rows : Z) (l : list Box) (t : Triangle) (p : Vec3) :
  valid_params outer_width outer_length base_thickness wall_thickness
    wall_height cols rows ->
  incl l (grid_plan outer_width outer_length base_thickness wall_thickness
            wall_height cols rows) ->
  In t (flat_map box_triangles l) -> In p (vertices t) ->
  in_bounds outer_width outer_length (base_thickness + wall_height) p.
Proof.
  intros Hv Hl Ht Hin.
  pose proof (plan_proper_in_bounds _ _ _ _ _ _ _ Hv) as Hp.
  rewrite Forall_forall in Hp.
  apply in_flat_map in Ht. destruct Ht as (b & Hb & Ht).
  destruct (Hp b (Hl b Hb)) as [Hpr Hbd].
  eapply box_vertices_in_bounds; eassumption.
Qed.

(** C10. For every valid parameter set, every vertex of every triangle of
    the mesh lies in the tray's outer bounding box: [0 <= x <= outer_width],
    [0 <= y <= outer_length], [0 <= z <= base_thickness + wall_height].  The
    bound holds after each appended box: for every [k], the triangles of the
    first [k] planned boxes satisfy it. *)
Theorem mesh_vertices_in_bounds
  (outer_width outer_length base_thickness wall_thickness wall_height : Q)
  (cols rows : Z) :
  valid_params outer_width outer_length base_thickness wall_thickness
    wall_height cols rows ->
  exists (solid_name : string) (triangles : list Triangle),
    grid_mesh outer_width outer_length base_thickness wall_thickness
      wall_height cols rows = inr (solid_name, triangles) /\
    (forall t p, In t triangles -> In p (vertices t) ->
       in_bounds outer_width outer_length (base_thickness + wall_height) p) /\
    (forall k t p,
       In t (flat_map box_triangles
               (firstn k (grid_plan outer_width outer_length base_thickness
                            wall_thickness wall_height cols rows))) ->
       In p (vertices t) ->
       in_bounds outer_width outer_length (base_thickness + wall_height) p).
Proof.
  intros Hv. pose proof (grid_mesh_valid _ _ _ _ _ _ _ Hv) as Hm.
  eexists; eexists. split; [ exact Hm | ]. split.
  - intros t p. apply (plan_triangles_in_bounds _ _ _ _ _ _ _ _ t p Hv).
    apply incl_refl.
  - intros k t p. apply (plan_triangles_in_bounds _ _ _ _ _ _ _ _ t p Hv).
    intros b Hb. rewrite <- (firstn_skipn k (grid_plan _ _ _ _ _ _ _)).
    apply in_or_app. now left.
Qed.

Lemma mesh_vertices_in_bounds_witness :
  valid_params 215.0 115.0 2.0 2.0 20.0 5 3 /\
  exists (solid_name : string) (triangles : list Triangle),
    grid_mesh 215.0 115.0 2.0 2.0 20.0 5 3 = inr (solid_name, triangles) /\
    (forall t p, In t triangles -> In p (vertices t) ->
       in_bounds 215.0 115.0 (2.0 + 20.0) p) /\
    (forall k t p,
       In t (flat_map box_triangles
               (firstn k (grid_plan 215.0 115.0 2.0 2.0 20.0 5 3))) ->
       In p (vertices t) ->
       in_bounds 215.0 115.0 (2.0 + 20.0) p).
Proof.
  split; [ check_valid_params | ].
  apply (mesh_vertices_in_bounds 215.0 115.0 2.0 2.0 20.0 5 3). check_valid_params.
Defined.

(** C9. For the default parameter set (215.0, 115.0, 2.0, 2.0, 20.0, 5, 3)
    [generate_grid] raises nothing before the serializer call, passes it
    exactly 132 triangles under the solid name [grid_5x3], and every vertex
    z-coordinate of every triangle lies in the closed interval [0.0, 22.0]. *)
Theorem default_grid_scenario :
  exists triangles : list Triangle,
    grid_mesh 215.0 115.0 2.0 2.0 20.0 5 3 = inr ("grid_5x3"%string, triangles) /\
    (forall filename,
        generate_grid 215.0 115.0 2.0 2.0 20.0 5 3 filename
        = write_ascii_stl filename "grid_5x3" triangles) /\
    List.length triangles = 132%nat /\
    (forall t p, In t triangles -> In p (vertices t) ->
       0.0 <= c2 p /\ c2 p <= 22.0).
Proof.
  assert (Hv : valid_params 215.0 115.0 2.0 2.0 20.0 5 3) by check_valid_params.
  pose proof (grid_mesh_valid _ _ _ _ _ _ _ Hv) as Hm.
  change ("grid_" ++ str_int 5 ++ "x" ++ str_int 3)%string
    with "grid_5x3"%string in Hm.
  eexists. split; [ exact Hm | ]. split; [ | split ].
  - intros filename. unfold generate_grid. rewrite Hm. reflexivity.
  - rewrite flat_map_box_triangles_length. reflexivity.
  - intros t p Ht Hp.
    pose proof (plan_triangles_in_bounds _ _ _ _ _ _ _ _ t p Hv
                  (incl_refl _) Ht Hp) as (_ & _ & Hz).
    lra.
Qed.

(** ** Winding order against the stated normals *)

(** A vector has at most one normalization: it cannot normalize to a
    vector and to its opposite. *)
Lemma normalizes_to_opposite (v n : Vec3) :
  normalizes_to v n -> normalizes_to v (vscale (-1) n) -> False.
Proof.
  destruct v as [[v0 v1] v2], n as [[n0 n1] n2].
  unfold normalizes_to, dot, vscale, Veq, c0, c1, c2; simpl.
  intros (k & Hk & Hkk & E0 & E1 & E2) (k' & Hk' & _ & F0 & F1 & F2).
  assert (Hs : 0 < k + k') by lra.
  assert (Z0 : (k + k') * n0 == 0) by lra.
  assert (Z1 : (k + k') * n1 == 0) by lra.
  assert (Z2 : (k + k') * n2 == 0) by lra.
  apply Qmult_integral in Z0, Z1, Z2.
  assert (N0 : n0 == 0) by (destruct Z0; [ lra | assumption ]).
  assert (N1 : n1 == 0) by (destruct Z1; [ lra | assumption ]).
  assert (N2 : n2 == 0) by (destruct Z2; [ lra | assumption ]).
  rewrite N0 in E0. rewrite N1 in E1. rewrite N2 in E2.
  rewrite E0, E1, E2 in Hkk.
  assert (Hpos : 0 < k * k) by (apply Qmult_lt_0_compat; assumption).
  lra.
Qed.

Ltac reversed_face k :=
  exists k;
  unfold winding_normal, cross, vsub, dot, vscale, Veq, c0, c1, c2; simpl;
  split; [ apply Qmult_lt_0_compat; lra | split; [ ring | repeat split; ring ] ].

(** On a box of positive extent, the vertex order of each of the twelve
    triangles of the table gives, by the right-hand rule, the opposite of
    the stated normal. *)
Lemma box_table_winding_reversed (x0 y0 z0 x1 y1 z1 : Q) (t : Triangle) :
  x0 < x1 -> y0 < y1 -> z0 < z1 ->
  In t (box_table x0 y0 z0 x1 y1 z1) ->
  normalizes_to (winding_normal t) (vscale (-1) (normal_of t)).
Proof.
  intros Hx Hy Hz Ht. unfold box_table in Ht. simpl in Ht.
  destruct Ht as [<-|[<-|[<-|[<-|Ht]]]];
    [ reversed_face ((x1 - x0) * (y1 - y0)) .. | ].
  destruct Ht as [<-|[<-|[<-|[<-|Ht]]]];
    [ reversed_face ((y1 - y0) * (z1 - z0)) .. | ].
  destruct Ht as [<-|[<-|[<-|[<-|Ht]]]];
    [ reversed_face ((x1 - x0) * (z1 - z0)) .. | ].
  contradiction.
Qed.

(** In every mesh built from a valid parameter set, every triangle is wound
    against its stated normal. *)
Lemma mesh_winding_reversed
  (outer_width outer_length base_thickness wall_thickness wall_height : Q)
  (cols rows : Z) (solid_name : string) (triangles : list Triangle) (t : Triangle) :
  valid_params outer_width outer_length base_thickness wall_thickness
    wall_height cols rows ->
  grid_mesh outer_width outer_length base_thickness wall_thickness
    wall_height cols rows = inr (solid_name, triangles) ->
  In t triangles ->
  normalizes_to (winding_normal t) (vscale (-1) (normal_of t)) /\
  ~ winding_consistent t.
Proof.
  intros Hv Hm Ht. rewrite (grid_mesh_valid _ _ _ _ _ _ _ Hv) in Hm.
  assert (E : triangles
              = flat_map box_triangles
                  (grid_plan outer_width outer_length base_thickness
                     wall_thickness wall_height cols rows)) by congruence.
  rewrite E in Ht. clear E Hm.
  pose proof (plan_proper_in_bounds _ _ _ _ _ _ _ Hv) as Hp.
  rewrite Forall_forall in Hp.
  apply in_flat_map in Ht. destruct Ht as (b & Hb & Ht).
  destruct (Hp b Hb) as [Hpr _].
  rewrite box_triangles_proper in Ht by exact Hpr.
  destruct b as [[[x0 y0] z0] [[x1 y1] z1]]. destruct Hpr as (Hx & Hy & Hz).
  unfold c0, c1, c2 in Ht. cbn [fst snd] in Ht.
  assert (Hrev : normalizes_to (winding_normal t) (vscale (-1) (normal_of t)))
    by (apply (box_table_winding_reversed x0 y0 z0 x1 y1 z1); assumption).
  split; [ exact Hrev | ].
  intros Hc. exact (normalizes_to_opposite _ _ Hc Hrev).
Qed.

(** C2, at the default parameter set.  The first triangle passed to the
    serializer is the first triangle of the bottom face of the base slab:
    its stated normal is (0, 0, -1), the cross product of (v2-v1) and
    (v3-v1) is (0, 0, 24725), which normalizes to (0, 0, 1), the opposite of
    the stated normal; and no triangle of the mesh has a normal that agrees
    with its vertex order. *)
Theorem default_grid_winding_against_normals :
  exists triangles : list Triangle,
    grid_mesh 215.0 115.0 2.0 2.0 20.0 5 3 = inr ("grid_5x3"%string, triangles) /\
    nth_error triangles 0
    = Some ((0.0, 0.0, -1.0),
            (0.0, 0.0, 0.0), (215.0, 0.0, 0.0), (215.0, 115.0, 0.0)) /\
    (forall t, nth_error triangles 0 = Some t ->
       Veq (winding_normal t) (0, 0, 24725) /\
       normalizes_to (winding_normal t) (0, 0, 1) /\
       ~ winding_consistent t) /\
    (forall t, In t triangles -> ~ winding_consistent t).
Proof.
  assert (Hv : valid_params 215.0 115.0 2.0 2.0 20.0 5 3) by check_valid_params.
  pose proof (grid_mesh_valid _ _ _ _ _ _ _ Hv) as Hm.
  change ("grid_" ++ str_int 5 ++ "x" ++ str_int 3)%string
    with "grid_5x3"%string in Hm.
  eexists. split; [ exact Hm | ].
  assert (Hall : forall t,
             In t (flat_map box_triangles (grid_plan 215.0 115.0 2.0 2.0 20.0 5 3)) ->
             ~ winding_consistent t).
  { intros t Ht. eapply mesh_winding_reversed; eassumption. }
  split; [ reflexivity | ]. split; [ | exact Hall ].
  intros t Ht.
  assert (Hin : In t (flat_map box_triangles
                        (grid_plan 215.0 115.0 2.0 2.0 20.0 5 3)))
    by (eapply nth_error_In; exact Ht).
  injection Ht as <-.
  split; [ | split ].
  - unfold Veq; simpl; repeat split; reflexivity.
  - exists 24725. unfold Veq, dot; simpl. repeat split; reflexivity.
  - apply Hall. exact Hin.
Qed.

(** ** Disjointness of the planned boxes *)

Lemma separated_disjoint (a b : Box) :
  proper_box a -> proper_box b -> separated a b -> interiors_disjoint a b.
Proof.
  destruct a as [[[ax0 ay0] az0] [[ax1 ay1] az1]].
  destruct b as [[[bx0 by0] bz0] [[bx1 by1] bz1]].
  unfold proper_box, separated, interiors_disjoint, interior, strictly_between.
  intros (Hax & Hay & Haz) (Hbx & Hby & Hbz) Hsep [[px py] pz].
  unfold c0, c1, c2; simpl. intros [(Ix & Iy & Iz) (Jx & Jy & Jz)].
  destruct Hsep as [H|[H|[H|[H|[H|H]]]]]; lra.
Qed.

Lemma interiors_disjoint_sym (a b : Box) :
  interiors_disjoint a b -> interiors_disjoint b a.
Proof. intros H p [Hb Ha]. apply (H p). now split. Qed.

Lemma ForallOrdPairs_app {A} (R : A -> A -> Prop) (l1 l2 : list A) :
  ForallOrdPairs R l1 -> ForallOrdPairs R l2 ->
  (forall a b, In a l1 -> In b l2 -> R a b) ->
  ForallOrdPairs R (l1 ++ l2).
Proof.
  intros H1 H2 H12. induction H1 as [|a l Ha Hl IH]; simpl; [ exact H2 | ].
  constructor.
  - apply Forall_app. split; [ exact Ha | ].
    apply Forall_forall. intros b Hb. apply H12; [ now left | exact Hb ].
  - apply IH. intros x y Hx Hy. apply H12; [ now right | exact Hy ].
Qed.

Lemma ForallOrdPairs_map {A B} (f : A -> B) (R : A -> A -> Prop)
  (S : B -> B -> Prop) (l : list A) :
  (forall x y, R x y -> S (f x) (f y)) ->
  ForallOrdPairs R l -> ForallOrdPairs S (map f l).
Proof.
  intros HRS H. induction H as [|a l Ha Hl IH]; simpl; constructor.
  - rewrite Forall_map. eapply Forall_impl; [ | exact Ha ]. intros y. apply HRS.
  - exact IH.
Qed.

Lemma ForallOrdPairs_nth {A} (R : A -> A -> Prop) (l : list A) :
  ForallOrdPairs R l ->
  forall i j a b, (i < j)%nat ->
    nth_error l i = Some a -> nth_error l j = Some b -> R a b.
Proof.
  induction 1 as [|x l Hx Hl IH]; intros i j a b Hij Hi Hj.
  - destruct i; discriminate.
  - destruct j as [|j]; [ lia | ]. simpl in Hj. destruct i as [|i].
    + simpl in Hi. injection Hi as <-.
      rewrite Forall_forall in Hx. apply Hx. eapply nth_error_In; exact Hj.
    + simpl in Hi. apply (IH i j); [ lia | assumption | assumption ].
Qed.

Lemma ordered_pairs_disjoint (l : list Box) :
  Forall proper_box l -> ForallOrdPairs separated l -> pairwise_disjoint l.
Proof.
  intros Hp Hs i j a b Hij Hi Hj.
  assert (Ha : proper_box a)
    by (rewrite Forall_forall in Hp; apply Hp; eapply nth_error_In; exact Hi).
  assert (Hb : proper_box b)
    by (rewrite Forall_forall in Hp; apply Hp; eapply nth_error_In; exact Hj).
  destruct (Nat.lt_ge_cases i j) as [Hlt | Hge].
  - apply separated_disjoint; try assumption.
    exact (ForallOrdPairs_nth _ _ Hs i j a b Hlt Hi Hj).
  - apply interiors_disjoint_sym. apply separated_disjoint; try assumption.
    apply (ForallOrdPairs_nth _ _ Hs j i b a); [ lia | assumption | assumption ].
Qed.

Section Disjointness.
Variables outer_width outer_length base_thickness wall_thickness wall_height : Q.
Variables cols rows : Z.
Hypothesis Hvalid :
  valid_params outer_width outer_length base_thickness wall_thickness
    wall_height cols rows.

Let shell :=
  shell_boxes outer_width outer_length base_thickness wall_thickness wall_height.
Let vdiv :=
  vertical_dividers outer_width outer_length base_thickness wall_thickness
    wall_height cols.
Let hdiv :=
  horizontal_dividers outer_width outer_length base_thickness wall_thickness
    wall_height rows.

Lemma shell_separated : ForallOrdPairs separated shell.
Proof.
  destruct Hvalid as (Hc & Hr & Hwt & Hbt & Hwh & Hiw & Hil & Hcw & Hcl).
  unfold inner_dim in Hiw, Hil. unfold shell, shell_boxes.
  repeat (constructor;
          [ repeat (constructor; [ unfold separated; lra | ]); constructor | ]).
  constructor.
Qed.

Lemma vertical_separated : ForallOrdPairs separated vdiv.
Proof.
  destruct Hvalid as (Hc & Hr & Hwt & Hbt & Hwh & Hiw & Hil & Hcw & Hcl).
  unfold vdiv, vertical_dividers.
  eapply ForallOrdPairs_map; [ | apply divider_starts_apart; assumption ].
  intros s s' H. cbv beta in H. unfold vertical_box, separated. lra.
Qed.

Lemma horizontal_separated : ForallOrdPairs separated hdiv.
Proof.
  destruct Hvalid as (Hc & Hr & Hwt & Hbt & Hwh & Hiw & Hil & Hcw & Hcl).
  unfold hdiv, horizontal_dividers.
  eapply ForallOrdPairs_map; [ | apply divider_starts_apart; assumption ].
  intros s s' H. cbv beta in H. unfold horizontal_box, separated. lra.
Qed.

Lemma shell_vertical_separated (a b : Box) :
  In a shell -> In b vdiv -> separated a b.
Proof.
  destruct Hvalid as (Hc & Hr & Hwt & Hbt & Hwh & Hiw & Hil & Hcw & Hcl).
  unfold inner_dim in Hiw, Hil.
  unfold shell, shell_boxes, vdiv, vertical_dividers. intros Ha Hb.
  apply in_map_iff in Hb. destruct Hb as (s & <- & Hs).
  apply dividers_inside in Hs; try assumption.
  simpl in Ha.
  destruct Ha as [<-|[<-|[<-|[<-|[<-|[]]]]]];
    unfold vertical_box, separated; lra.
Qed.

Lemma shell_horizontal_separated (a b : Box) :
  In a shell -> In b hdiv -> separated a b.
Proof.
  destruct Hvalid as (Hc & Hr & Hwt & Hbt & Hwh & Hiw & Hil & Hcw & Hcl).
  unfold inner_dim in Hiw, Hil.
  unfold shell, shell_boxes, hdiv, horizontal_dividers. intros Ha Hb.
  apply in_map_iff in Hb. destruct Hb as (s & <- & Hs).
  apply dividers_inside in Hs; try assumption.
  simpl in Ha.
  destruct Ha as [<-|[<-|[<-|[<-|[<-|[]]]]]];
    unfold horizontal_box, separated; lra.
Qed.

Lemma plan_parts_proper :
  Forall proper_box shell /\ Forall proper_box vdiv /\ Forall proper_box hdiv.
Proof.
  pose proof (plan_proper_in_bounds _ _ _ _ _ _ _ Hvalid) as H.
  unfold grid_plan in H. rewrite !Forall_app in H.
  destruct H as (H1 & H2 & H3).
  repeat split; eapply Forall_impl; try eassumption; intros b Hb; apply Hb.
Qed.

Lemma shell_vertical_disjoint : pairwise_disjoint (shell ++ vdiv).
Proof.
  destruct plan_parts_proper as (P1 & P2 & P3).
  apply ordered_pairs_disjoint.
  - apply Forall_app. now split.
  - apply ForallOrdPairs_app;
      [ apply shell_separated | apply vertical_separated
      | apply shell_vertical_separated ].
Qed.

Lemma shell_horizontal_disjoint : pairwise_disjoint (shell ++ hdiv).
Proof.
  destruct plan_parts_proper as (P1 & P2 & P3).
  apply ordered_pairs_disjoint.
  - apply Forall_app. now split.
  - apply ForallOrdPairs_app;
      [ apply shell_separated | apply horizontal_separated
      | apply shell_horizontal_separated ].
Qed.

(** A vertical and a horizontal divider cross: the point in the middle of
    the crossing is interior to both. *)
Lemma dividers_cross (v h : Box) :
  In v vdiv -> In h hdiv -> exists p : Vec3, interior v p /\ interior h p.
Proof.
  destruct Hvalid as (Hc & Hr & Hwt & Hbt & Hwh & Hiw & Hil & Hcw & Hcl).
  unfold inner_dim in Hiw, Hil.
  unfold vdiv, vertical_dividers, hdiv, horizontal_dividers. intros Hv Hh.
  apply in_map_iff in Hv. destruct Hv as (s & <- & Hs).
  apply in_map_iff in Hh. destruct Hh as (s' & <- & Hs').
  apply dividers_inside in Hs; try assumption.
  apply dividers_inside in Hs'; try assumption.
  exists (s + wall_thickness / 2, s' + wall_thickness / 2,
          base_thickness + wall_height / 2).
  assert (Hd : wall_thickness / 2 == wall_thickness * (1 # 2)) by (field; lra).
  assert (Hd' : wall_height / 2 == wall_height * (1 # 2)) by (field; lra).
  unfold vertical_box, horizontal_box, interior, strictly_between, c0, c1, c2.
  simpl. repeat split; left; split; lra.
Qed.
End Disjointness.

(** C4, as stated, fails at the default parameter set: the first vertical
    divider (box 5 of the plan) and the first horizontal divider (box 9)
    both contain the point (43, 38, 10) in their open interiors. *)
Lemma default_plan_dividers_overlap :
  valid_params 215.0 115.0 2.0 2.0 20.0 5 3 /\
  grid_mesh 215.0 115.0 2.0 2.0 20.0 5 3
  = inr ("grid_5x3"%string,
         flat_map box_triangles (grid_plan 215.0 115.0 2.0 2.0 20.0 5 3)) /\
  ~ pairwise_disjoint (grid_plan 215.0 115.0 2.0 2.0 20.0 5 3).
Proof.
  assert (Hv : valid_params 215.0 115.0 2.0 2.0 20.0 5 3) by check_valid_params.
  split; [ exact Hv | ]. split; [ exact (grid_mesh_valid _ _ _ _ _ _ _ Hv) | ].
  intros H.
  apply (H 5%nat 9%nat _ _ ltac:(lia) eq_refl eq_refl (43, 38, 10)).
  unfold interior, strictly_between, c0, c1, c2; simpl.
  repeat split; left; split; reflexivity.
Qed.

(** C4, amended.  In exact arithmetic, for every valid parameter set the
    plan is the base slab and the four outer walls, then the vertical
    dividers, then the horizontal dividers.  Any two distinct boxes among the slab, the outer
    walls and the vertical dividers have disjoint open interiors, and so do
    any two distinct boxes among the slab, the outer walls and the
    horizontal dividers; the only pairs that share interior points are a
    vertical divider with a horizontal divider, and every such pair does. *)
Theorem plan_disjoint_except_crossings
  (outer_width outer_length base_thickness wall_thickness wall_height : Q)
  (cols rows : Z) :
  valid_params outer_width outer_length base_thickness wall_thickness
    wall_height cols rows ->
  let shell :=
    shell_boxes outer_width outer_length base_thickness wall_thickness wall_height in
  let vdiv :=
    vertical_dividers outer_width outer_length base_thickness wall_thickness
      wall_height cols in
  let hdiv :=
    horizontal_dividers outer_width outer_length base_thickness wall_thickness
      wall_height rows in
  grid_plan outer_width outer_length base_thickness wall_thickness wall_height
    cols rows = shell ++ vdiv ++ hdiv /\
  (exists solid_name,
     grid_mesh outer_width outer_length base_thickness wall_thickness wall_height
       cols rows = inr (solid_name, flat_map box_triangles (shell ++ vdiv ++ hdiv))) /\
  pairwise_disjoint (shell ++ vdiv) /\
  pairwise_disjoint (shell ++ hdiv) /\
  (forall v h, In v vdiv -> In h hdiv ->
     exists p : Vec3, interior v p /\ interior h p).
Proof.
  intros Hv shell vdiv hdiv. split; [ reflexivity | ]. split; [ | split; [ | split ] ].
  - eexists. exact (grid_mesh_valid _ _ _ _ _ _ _ Hv).
  - exact (shell_vertical_disjoint _ _ _ _ _ _ _ Hv).
  - exact (shell_horizontal_disjoint _ _ _ _ _ _ _ Hv).
  - exact (dividers_cross _ _ _ _ _ _ _ Hv).
Qed.

Lemma plan_disjoint_except_crossings_witness :
  valid_params 215.0 115.0 2.0 2.0 20.0 5 3 /\
  let shell := shell_boxes 215.0 115.0 2.0 2.0 20.0 in
  let vdiv := vertical_dividers 215.0 115.0 2.0 2.0 20.0 5 in
  let hdiv := horizontal_dividers 215.0 115.0 2.0 2.0 20.0 3 in
  grid_plan 215.0 115.0 2.0 2.0 20.0 5 3 = shell ++ vdiv ++ hdiv /\
  (exists solid_name,
     grid_mesh 215.0 115.0 2.0 2.0 20.0 5 3
     = inr (solid_name, flat_map box_triangles (shell ++ vdiv ++ hdiv))) /\
  pairwise_disjoint (shell ++ vdiv) /\
  pairwise_disjoint (shell ++ hdiv) /\
  (forall v h, In v vdiv -> In h hdiv ->
     exists p : Vec3, interior v p /\ interior h p).
Proof.
  split; [ check_valid_params | ].
  apply (plan_disjoint_except_crossings 215.0 115.0 2.0 2.0 20.0 5 3).
  check_valid_params.
Defined.

(** ** Runs of the serializer *)

Lemma world_eta (w : world) : mkWorld (openable w) (oplog w) = w.
Proof. now destruct w. Qed.

Lemma for_each_writes {A} (f : string) (lines : A -> list string)
  (body : A -> IO unit) (xs : list A) (w : world) :
  (forall x w', body x w'
     = (inr tt, mkWorld (openable w') (oplog w' ++ map (FileWrite f) (lines x)))) ->
  for_each xs body w
  = (inr tt, mkWorld (openable w) (oplog w ++ map (FileWrite f) (flat_map lines xs))).
Proof.
  intros Hbody. revert w. induction xs as [|x xs IH]; intros w.
  - simpl. unfold ret. now rewrite app_nil_r, world_eta.
  - cbn [for_each flat_map]. unfold bind. rewrite Hbody, IH.
    cbn [openable oplog]. now rewrite map_app, app_assoc.
Qed.

Lemma write_ascii_stl_run (filename solid_name : string)
  (triangles : list Triangle) (w : world) :
  write_ascii_stl filename solid_name triangles w
  = if openable w filename
    then (inr tt,
          mkWorld (openable w)
            (oplog w ++ FileOpen filename
               :: map (FileWrite filename) (stl_lines solid_name triangles)
               ++ [FileClose filename]))
    else (inl (OSError filename), w).
Proof.
  unfold write_ascii_stl. unfold bind at 1. unfold open_w.
  destruct (openable w filename); [ | reflexivity ].
  unfold bind at 1. unfold f_write at 1. unfold emit. cbn [openable oplog].
  unfold bind at 1.
  rewrite (for_each_writes filename facet_lines).
  - cbn [openable oplog].
    unfold bind, f_write, f_close, emit. cbn [openable oplog].
    unfold stl_lines. cbn [map]. rewrite map_app. cbn [map].
    repeat (rewrite <- app_assoc; cbn [app]). reflexivity.
  - intros [[[[[nx ny] nz] v1] v2] v3] w'.
    unfold bind, f_write, emit. cbn [openable oplog].
    unfold facet_lines, vertex_line, normal_of, v1_of, v2_of, v3_of, c0, c1, c2.
    cbn [fst snd map]. repeat rewrite <- app_assoc. reflexivity.
Qed.

Lemma string_app_nil_r (s : string) : (s ++ "")%string = s.
Proof. induction s; simpl; congruence. Qed.

Lemma string_app_assoc (a b c : string) :
  ((a ++ b) ++ c)%string = (a ++ b ++ c)%string.
Proof. induction a; simpl; congruence. Qed.

Lemma concat_nosep_cons (l : string) (lines : list string) :
  String.concat "" (l :: lines) = (l ++ String.concat "" lines)%string.
Proof.
  destruct lines; cbn [String.concat]; [ now rewrite string_app_nil_r | reflexivity ].
Qed.

Lemma concat_nosep_app (l1 l2 : list string) :
  String.concat "" (l1 ++ l2)
  = (String.concat "" l1 ++ String.concat "" l2)%string.
Proof.
  induction l1 as [|l l1 IH]; [ reflexivity | ].
  cbn [app]. now rewrite !concat_nosep_cons, IH, string_app_assoc.
Qed.

Lemma file_text_writes (filename : string) (lines : list string)
  (rest : list io_event) (acc : string) :
  file_text filename (map (FileWrite filename) lines ++ rest) acc
  = file_text filename rest (acc ++ String.concat "" lines).
Proof.
  revert acc. induction lines as [|l lines IH]; intros acc.
  - simpl. now rewrite string_app_nil_r.
  - cbn [map app file_text]. rewrite String.eqb_refl, IH.
    now rewrite concat_nosep_cons, string_app_assoc.
Qed.

Lemma file_text_app (filename : string) (log1 log2 : list io_event) (acc : string) :
  file_text filename (log1 ++ log2) acc
  = file_text filename log2 (file_text filename log1 acc).
Proof.
  revert acc. induction log1 as [|ev log1 IH]; intros acc; [ reflexivity | ].
  destruct ev; simpl; apply IH.
Qed.

(** ** Validity is decidable *)

Lemma valid_not_invalid ow ol bt wt wh cols rows :
  valid_params ow ol bt wt wh cols rows ->
  ~ invalid_params ow ol bt wt wh cols rows.
Proof.
  intros (Hc & Hr & Hwt & Hbt & Hwh & Hiw & Hil & Hcw & Hcl) H.
  destruct H as [H|[H|[H|[H|[H|[H|[H|[H|H]]]]]]]]; try lia; lra.
Qed.

Lemma valid_or_invalid ow ol bt wt wh cols rows :
  valid_params ow ol bt wt wh cols rows \/
  invalid_params ow ol bt wt wh cols rows.
Proof.
  unfold valid_params, invalid_params.
  destruct (Z_lt_le_dec cols 1); [ tauto | ].
  destruct (Z_lt_le_dec rows 1); [ tauto | ].
  destruct (Qlt_le_dec 0 wt); [ | tauto ].
  destruct (Qlt_le_dec 0 bt); [ | tauto ].
  destruct (Qlt_le_dec 0 wh); [ | tauto ].
  destruct (Qlt_le_dec 0 (inner_dim ow wt)); [ | tauto ].
  destruct (Qlt_le_dec 0 (inner_dim ol wt)); [ | tauto ].
  destruct (Qlt_le_dec 0 (cell_size ow wt cols)); [ | tauto ].
  destruct (Qlt_le_dec 0 (cell_size ol wt rows)); [ | tauto ].
  left. tauto.
Qed.

Lemma generate_grid_invalid ow ol bt wt wh cols rows filename w :
  invalid_params ow ol bt wt wh cols rows ->
  exists msg,
    generate_grid ow ol bt wt wh cols rows filename w = (inl (ValueError msg), w).
Proof.
  intros H. destruct (grid_mesh_invalid _ _ _ _ _ _ _ H) as [msg Hm].
  exists msg. unfold generate_grid. rewrite Hm. reflexivity.
Qed.

Lemma generate_grid_valid ow ol bt wt wh cols rows filename w :
  valid_params ow ol bt wt wh cols rows ->
  fst (generate_grid ow ol bt wt wh cols rows filename w) = inr tt \/
  fst (generate_grid ow ol bt wt wh cols rows filename w) = inl (OSError filename).
Proof.
  intros H. unfold generate_grid. rewrite (grid_mesh_valid _ _ _ _ _ _ _ H).
  rewrite write_ascii_stl_run. destruct (openable w filename); simpl; tauto.
Qed.

(** C6. When [generate_grid] fails with the invalid-parameter error, the
    world is left as it was: no file has been opened, written or closed.
    The parameter checks come before the serializer call, the only place
    where files are touched. *)
Theorem invalid_parameters_no_io ow ol bt wt wh cols rows filename w msg :
  fst (generate_grid ow ol bt wt wh cols rows filename w) = inl (ValueError msg) ->
  snd (generate_grid ow ol bt wt wh cols rows filename w) = w /\
  oplog (snd (generate_grid ow ol bt wt wh cols rows filename w)) = oplog w.
Proof.
  intros E.
  destruct (valid_or_invalid ow ol bt wt wh cols rows) as [Hv | Hi].
  - destruct (generate_grid_valid ow ol bt wt wh cols rows filename w Hv) as [R | R];
      rewrite R in E; discriminate.
  - destruct (generate_grid_invalid ow ol bt wt wh cols rows filename w Hi)
      as [msg' E'].
    rewrite E'. split; reflexivity.
Qed.

Lemma invalid_parameters_no_io_witness :
  let w := mkWorld (fun _ => true) [] in
  fst (generate_grid 215.0 115.0 2.0 2.0 20.0 0 3 "grid.stl" w)
  = inl (ValueError "cols and rows must be >= 1") /\
  snd (generate_grid 215.0 115.0 2.0 2.0 20.0 0 3 "grid.stl" w) = w /\
  oplog (snd (generate_grid 215.0 115.0 2.0 2.0 20.0 0 3 "grid.stl" w)) = oplog w.
Proof.
  intros w. split; [ reflexivity | ].
  apply (invalid_parameters_no_io 215.0 115.0 2.0 2.0 20.0 0 3 "grid.stl" w
           "cols and rows must be >= 1").
  reflexivity.
Defined.

(** ** Powers of ten *)

Lemma pow10_pos (z : Z) : 0 < 10 ^ z.
Proof. apply Qpower_0_lt. reflexivity. Qed.

Lemma pow10_plus (a b : Z) : 10 ^ (a + b) == 10 ^ a * 10 ^ b.
Proof. apply Qpower_plus. discriminate. Qed.

Lemma pow10_succ (a : Z) : 10 ^ (a + 1) == 10 ^ a * 10.
Proof. rewrite pow10_plus. reflexivity. Qed.

Lemma pow10_minus (a b : Z) : 10 ^ (a - b) == 10 ^ a / 10 ^ b.
Proof. apply Qpower_minus. discriminate. Qed.

Lemma pow10_Z (n : Z) : (0 <= n)%Z -> 10 ^ n == inject_Z (10 ^ n).
Proof. intros H. rewrite Zpower_Qpower by exact H. reflexivity. Qed.

Lemma pow10_le (a b : Z) : (a <= b)%Z -> 10 ^ a <= 10 ^ b.
Proof. intros H. apply Qpower_le_compat_l; [ exact H | discriminate ]. Qed.

Lemma pow10_lt (a b : Z) : (a < b)%Z -> 10 ^ a < 10 ^ b.
Proof. intros H. apply Qpower_lt_compat_l; [ exact H | reflexivity ]. Qed.

Lemma pow10_lt_inv (a b : Z) : 10 ^ a < 10 ^ b -> (a < b)%Z.
Proof. intros H. eapply Qpower_lt_compat_l_inv; [ exact H | reflexivity ]. Qed.

(** ** The decimal exponent *)

Lemma dexp_search_spec (fuel : nat) (e : Z) (q : Q) :
  q < 10 ^ (e + 1) -> 10 ^ (e - Z.of_nat fuel) <= q ->
  10 ^ dexp_search fuel e q <= q /\ q < 10 ^ (dexp_search fuel e q + 1).
Proof.
  revert e. induction fuel as [|fuel IH]; intros e Hhi Hlo.
  - simpl. rewrite Z.sub_0_r in Hlo. now split.
  - cbn [dexp_search]. destruct (Qleb (10 ^ e) q) eqn:E.
    + apply Qleb_true in E. now split.
    + apply Qleb_false in E. apply IH.
      * now replace (e - 1 + 1)%Z with e by lia.
      * now replace (e - 1 - Z.of_nat fuel)%Z with (e - Z.of_nat (S fuel))%Z by lia.
Qed.

Lemma Q_upper_bound (q : Q) : 0 < q -> q < 10 ^ (Z.log2 (Qnum q) + 1 + 1).
Proof.
  intros Hq. destruct q as [n d]. cbn [Qnum].
  assert (Hn : (0 < n)%Z) by (unfold Qlt in Hq; simpl in Hq; lia).
  pose proof (Z.log2_spec n Hn) as [_ Hl].
  pose proof (Z.log2_nonneg n) as Hnn.
  set (k := Z.log2 n) in *.
  apply Qle_lt_trans with (inject_Z n).
  - unfold Qle, inject_Z; simpl. nia.
  - apply Qlt_le_trans with (inject_Z (2 ^ (k + 1))).
    + rewrite <- Zlt_Qlt. replace (k + 1)%Z with (Z.succ k) by lia. exact Hl.
    + rewrite pow10_Z by lia. rewrite <- Zle_Qle.
      apply Z.le_trans with (10 ^ (k + 1))%Z.
      * apply Z.pow_le_mono_l. lia.
      * apply Z.pow_le_mono_r; lia.
Qed.

Lemma Q_lower_bound (q : Q) : 0 < q -> 10 ^ (- (Z.log2 (Zpos (Qden q)) + 1)) <= q.
Proof.
  intros Hq. destruct q as [n d]. cbn [Qden].
  assert (Hn : (0 < n)%Z) by (unfold Qlt in Hq; simpl in Hq; lia).
  pose proof (Z.log2_spec (Zpos d) (Pos2Z.is_pos d)) as [_ Hl].
  pose proof (Z.log2_nonneg (Zpos d)) as Hnn.
  set (k := Z.log2 (Zpos d)) in *.
  rewrite Qpower_opp. rewrite pow10_Z by lia.
  assert (Hd : (Zpos d < 10 ^ (k + 1))%Z).
  { apply Z.lt_le_trans with (2 ^ (k + 1))%Z.
    - replace (k + 1)%Z with (Z.succ k) by lia. exact Hl.
    - apply Z.pow_le_mono_l. lia. }
  assert (Hp : (0 < 10 ^ (k + 1))%Z) by (apply Z.pow_pos_nonneg; lia).
  apply Qle_shift_inv_r.
  - change 0 with (inject_Z 0). rewrite <- Zlt_Qlt. exact Hp.
  - unfold Qle, Qmult, inject_Z; simpl. nia.
Qed.

Lemma decimal_exponent_spec (q : Q) :
  0 < q ->
  10 ^ decimal_exponent q <= q /\ q < 10 ^ (decimal_exponent q + 1).
Proof.
  intros Hq. unfold decimal_exponent.
  pose proof (Z.log2_nonneg (Qnum q)). pose proof (Z.log2_nonneg (Zpos (Qden q))).
  apply dexp_search_spec.
  - now apply Q_upper_bound.
  - rewrite Z2Nat.id by lia.
    match goal with |- 10 ^ ?z <= _ =>
      replace z with (- (Z.log2 (Zpos (Qden q)) + 1))%Z by lia end.
    now apply Q_lower_bound.
Qed.

(** The decimal exponent is the only [e] with [10^e <= q < 10^(e+1)]. *)
Lemma decimal_exponent_unique (q : Q) (e : Z) :
  10 ^ e <= q -> q < 10 ^ (e + 1) -> decimal_exponent q = e.
Proof.
  intros Hlo Hhi.
  assert (Hq : 0 < q) by (eapply Qlt_le_trans; [ apply (pow10_pos e) | exact Hlo ]).
  destruct (decimal_exponent_spec q Hq) as [Dlo Dhi].
  assert (decimal_exponent q < e + 1)%Z
    by (apply pow10_lt_inv; eapply Qle_lt_trans; eassumption).
  assert (e < decimal_exponent q + 1)%Z
    by (apply pow10_lt_inv; eapply Qle_lt_trans; eassumption).
  lia.
Qed.

(** ** Rounding to the nearest integer *)

Lemma round_half_even_spec (q : Q) :
  (round_half_even q = Qfloor q \/ round_half_even q = (Qfloor q + 1)%Z) /\
  - (1 # 2) <= q - inject_Z (round_half_even q) /\
  q - inject_Z (round_half_even q) <= 1 # 2.
Proof.
  pose proof (Qfloor_le q) as Hlo. pose proof (Qlt_floor q) as Hhi.
  rewrite inject_Z_plus in Hhi. change (inject_Z 1) with 1 in Hhi.
  unfold round_half_even.
  destruct (Qcompare (q - inject_Z (Qfloor q)) (1 # 2)) eqn:E.
  - apply Qeq_alt in E. destruct (Z.even (Qfloor q)).
    + split; [ now left | ]. split; lra.
    + split; [ now right | ]. rewrite inject_Z_plus. change (inject_Z 1) with 1.
      split; lra.
  - apply Qlt_alt in E. split; [ now left | ]. split; lra.
  - apply Qgt_alt in E. split; [ now right | ].
    rewrite inject_Z_plus. change (inject_Z 1) with 1. split; lra.
Qed.

Lemma round_half_even_Z (z : Z) : round_half_even (inject_Z z) = z.
Proof.
  unfold round_half_even. rewrite Qfloor_Z.
  destruct (Qcompare (inject_Z z - inject_Z z) (1 # 2)) eqn:E.
  - apply Qeq_alt in E. lra.
  - reflexivity.
  - apply Qgt_alt in E. lra.
Qed.

Lemma round_half_even_mono_lo (q : Q) (z : Z) :
  inject_Z z <= q -> (z <= round_half_even q)%Z.
Proof.
  intros H. destruct (round_half_even_spec q) as [[E | E] _]; rewrite E.
  - rewrite <- (Qfloor_Z z). now apply Qfloor_resp_le.
  - assert (z <= Qfloor q)%Z by (rewrite <- (Qfloor_Z z); now apply Qfloor_resp_le).
    lia.
Qed.

Lemma round_half_even_mono_hi (q : Q) (z : Z) :
  q < inject_Z z -> (round_half_even q <= z)%Z.
Proof.
  intros H.
  assert (Hf : (Qfloor q < z)%Z).
  { rewrite Zlt_Qlt. eapply Qle_lt_trans; [ apply Qfloor_le | exact H ]. }
  destruct (round_half_even_spec q) as [[E | E] _]; rewrite E; lia.
Qed.

(** ** Significant digits *)

Lemma sig_digits_spec (p : Z) (q : Q) :
  (1 <= p)%Z -> 0 < q ->
  let s := 10 ^ (decimal_exponent q - (p - 1)) in
  let '(m, e) := sig_digits p q in
  (10 ^ (p - 1) <= m < 10 ^ p)%Z /\
  (e = decimal_exponent q \/ e = (decimal_exponent q + 1)%Z) /\
  inject_Z m * 10 ^ (e - (p - 1)) == inject_Z (round_half_even (q / s)) * s.
Proof.
  intros Hp Hq s.
  destruct (decimal_exponent_spec q Hq) as [Hlo Hhi].
  set (e0 := decimal_exponent q) in *.
  assert (Hs : 0 < s) by apply pow10_pos.
  assert (Ylo : inject_Z (10 ^ (p - 1)) <= q / s).
  { rewrite <- pow10_Z by lia. apply Qle_shift_div_l; [ exact Hs | ].
    unfold s. rewrite <- pow10_plus.
    now replace (p - 1 + (e0 - (p - 1)))%Z with e0 by lia. }
  assert (Yhi : q / s < inject_Z (10 ^ p)).
  { rewrite <- pow10_Z by lia. apply Qlt_shift_div_r; [ exact Hs | ].
    unfold s. rewrite <- pow10_plus.
    now replace (p + (e0 - (p - 1)))%Z with (e0 + 1)%Z by lia. }
  pose proof (round_half_even_mono_lo _ _ Ylo) as Mlo.
  pose proof (round_half_even_mono_hi _ _ Yhi) as Mhi.
  unfold sig_digits. fold e0. fold s.
  destruct (Z.eqb_spec (round_half_even (q / s)) (10 ^ p)) as [E | E].
  - split; [ | split; [ now right | ] ].
    + split; [ lia | ]. apply Z.pow_lt_mono_r; lia.
    + rewrite E. unfold s.
      rewrite <- !pow10_Z by lia. rewrite <- !pow10_plus.
      now replace (p - 1 + (e0 + 1 - (p - 1)))%Z with (p + (e0 - (p - 1)))%Z by lia.
  - split; [ lia | ]. split; [ now left | reflexivity ].
Qed.

(** Rounding to [p] significant digits moves a positive value by at most
    half a unit of its last digit. *)
Lemma sig_digits_error (p : Z) (q : Q) :
  (1 <= p)%Z -> 0 < q ->
  let '(m, e) := sig_digits p q in
  Qabs (q - inject_Z m * 10 ^ (e - (p - 1)))
  <= (1 # 2) * 10 ^ (decimal_exponent q - (p - 1)).
Proof.
  intros Hp Hq. pose proof (sig_digits_spec p q Hp Hq) as H. cbv zeta in H.
  destruct (sig_digits p q) as [m e]. destruct H as (_ & _ & Hv).
  set (s := 10 ^ (decimal_exponent q - (p - 1))) in *.
  assert (Hs : 0 < s) by apply pow10_pos.
  rewrite Hv.
  destruct (round_half_even_spec (q / s)) as (_ & Rlo & Rhi).
  set (r := inject_Z (round_half_even (q / s))) in *.
  assert (Hq' : q == (q / s) * s) by (field; lra).
  apply Qabs_Qle_condition.
  assert (E : q - r * s == (q / s - r) * s) by (field; lra).
  rewrite E. split.
  - setoid_replace (- ((1 # 2) * s)) with ((- (1 # 2)) * s) by ring.
    apply Qmult_le_compat_r; lra.
  - apply Qmult_le_compat_r; lra.
Qed.

(** ** Digit strings *)

Lemma digit_char_code (d : Z) :
  (0 <= d < 10)%Z -> nat_of_ascii (digit_char d) = (48 + Z.to_nat d)%nat.
Proof.
  intros H. unfold digit_char. apply nat_ascii_embedding. lia.
Qed.

Lemma digit_char_is_digit (d : Z) : (0 <= d < 10)%Z -> is_digit (digit_char d) = true.
Proof.
  intros H. unfold is_digit. rewrite digit_char_code by exact H.
  apply andb_true_iff. split; apply Nat.leb_le; lia.
Qed.

Lemma digits_length (n : nat) (m : Z) : List.length (digits_of n m) = n.
Proof.
  revert m. induction n as [|n IH]; intros m; [ reflexivity | ].
  cbn [digits_of]. rewrite length_app, IH. simpl. lia.
Qed.

Lemma digits_all_digit (n : nat) (m : Z) :
  Forall (fun c => is_digit c = true) (digits_of n m).
Proof.
  revert m. induction n as [|n IH]; intros m; [ constructor | ].
  cbn [digits_of]. apply Forall_app. split; [ apply IH | ].
  constructor; [ | constructor ]. apply digit_char_is_digit.
  apply Z.mod_pos_bound. lia.
Qed.

Lemma digits_value_app (acc : Z) (a b : list ascii) :
  digits_value acc (a ++ b) = digits_value (digits_value acc a) b.
Proof. revert acc. induction a as [|c a IH]; intros acc; [ reflexivity | apply IH ]. Qed.

Lemma digits_value_digits (n : nat) (m acc : Z) :
  digits_value acc (digits_of n m) = (acc * 10 ^ Z.of_nat n + m mod 10 ^ Z.of_nat n)%Z.
Proof.
  revert m acc. induction n as [|n IH]; intros m acc.
  - simpl. rewrite Z.mod_1_r. lia.
  - cbn [digits_of]. rewrite digits_value_app, IH. cbn [digits_value].
    rewrite digit_char_code by (apply Z.mod_pos_bound; lia).
    rewrite Nat2Z.inj_succ, Z.pow_succ_r by lia.
    rewrite (Z.rem_mul_r m 10 (10 ^ Z.of_nat n)) by lia.
    assert (0 <= m mod 10 < 10)%Z by (apply Z.mod_pos_bound; lia).
    lia.
Qed.

Lemma digits_value_zeros (k : nat) (acc : Z) :
  digits_value acc (repeat "0"%char k) = (acc * 10 ^ Z.of_nat k)%Z.
Proof.
  revert acc. induction k as [|k IH]; intros acc.
  - simpl. lia.
  - cbn [repeat digits_value]. rewrite IH.
    rewrite Nat2Z.inj_succ, Z.pow_succ_r by lia.
    change (Z.of_nat (nat_of_ascii "0")) with 48%Z. lia.
Qed.

(** ** Stripping trailing zeros *)

Lemma rstrip0_spec (s : list ascii) :
  exists k : nat, s = rstrip0 s ++ repeat "0"%char k.
Proof.
  induction s as [|c s [k IH]].
  - exists 0%nat. reflexivity.
  - cbn [rstrip0]. destruct (rstrip0 s) as [|r rs] eqn:E.
    + destruct (Ascii.eqb_spec c "0") as [-> | Hc].
      * exists (S k). simpl. simpl in IH. now rewrite IH at 1.
      * exists k. simpl. simpl in IH. now rewrite IH at 1.
    + exists k. rewrite IH at 1. reflexivity.
Qed.

Lemma rstrip0_Forall (P : ascii -> Prop) (s : list ascii) :
  Forall P s -> Forall P (rstrip0 s).
Proof.
  intros H. destruct (rstrip0_spec s) as [k E]. rewrite E in H.
  apply Forall_app in H. tauto.
Qed.

(** ** Reading digits *)

Lemma span_digits_app (ds rest : list ascii) :
  Forall (fun c => is_digit c = true) ds ->
  (match rest with [] => True | c :: _ => is_digit c = false end) ->
  span_digits (ds ++ rest) = (ds, rest).
Proof.
  intros Hd Hr. induction Hd as [|c ds Hc Hd IH].
  - simpl. destruct rest as [|c r]; [ reflexivity | ]. simpl. now rewrite Hr.
  - cbn [app span_digits]. now rewrite Hc, IH.
Qed.

(** ** The exponent field *)

Lemma str_int_nonneg (n : Z) :
  (0 <= n)%Z ->
  exists u, str_int n = NilEmpty.string_of_uint u /\ Z.of_uint u = n /\ u <> Decimal.Nil.
Proof.
  intros H. unfold str_int. destruct n as [|p|p]; [ | | lia ].
  - exists (Decimal.D0 Decimal.Nil). repeat split. discriminate.
  - exists (Pos.to_uint p). split; [ reflexivity | ]. split.
    + pose proof (DecimalZ.of_to (Zpos p)) as E. exact E.
    + apply DecimalPos.Unsigned.to_uint_nonnil.
Qed.

Lemma read_exponent_field (e : Z) : read_exponent (exp_field e) = Some e.
Proof.
  unfold exp_field.
  destruct (str_int_nonneg (Z.abs e) (Z.abs_nonneg e)) as (u & Hs & Hu & Hnil).
  rewrite Hs.
  assert (Hne : exists c cs, list_ascii_of_string (NilEmpty.string_of_uint u) = c :: cs).
  { destruct u; try contradiction; simpl; eauto. }
  destruct Hne as (c & cs & Hcs).
  destruct (Z.abs e <? 10)%Z.
  - cbn [read_exponent]. rewrite Ascii.eqb_refl.
    rewrite Hcs, <- Hcs. cbn [string_of_list_ascii].
    rewrite string_of_list_ascii_of_string.
    cbn [NilEmpty.uint_of_string]. rewrite NilEmpty.usu. cbn [uint_of_char].
    destruct (e <? 0)%Z eqn:En.
    + rewrite Ascii.eqb_refl. f_equal. apply Z.ltb_lt in En.
      change (Z.of_uint (Decimal.D0 u)) with (Z.of_uint u). lia.
    + apply Z.ltb_ge in En. cbn [Ascii.eqb]. simpl. f_equal.
      change (Z.of_uint (Decimal.D0 u)) with (Z.of_uint u). lia.
  - rewrite Hcs. cbn [read_exponent]. rewrite Ascii.eqb_refl.
    rewrite <- Hcs. rewrite string_of_list_ascii_of_string, NilEmpty.usu.
    destruct (e <? 0)%Z eqn:En.
    + rewrite Ascii.eqb_refl. f_equal. apply Z.ltb_lt in En. lia.
    + apply Z.ltb_ge in En. simpl. f_equal. lia.
Qed.

(** ** Reading a formatted number *)

Lemma digit_not_symbol (c : ascii) :
  is_digit c = true ->
  Ascii.eqb c "-" = false /\ Ascii.eqb c "." = false /\ Ascii.eqb c "e" = false.
Proof.
  intros H. repeat split; apply Ascii.eqb_neq; intros ->; discriminate H.
Qed.

Lemma exponent_starts_nondigit (exs : list ascii) :
  exs = [] \/ (exists r, exs = "e"%char :: r) ->
  match exs with [] => True | c :: _ => is_digit c = false end.
Proof. intros [-> | [r ->]]; [ exact I | reflexivity ]. Qed.

Lemma read_number_parts (neg : bool) (ip dp fp exs : list ascii) (ex : Z) :
  Forall (fun c => is_digit c = true) ip -> ip <> [] ->
  Forall (fun c => is_digit c = true) fp ->
  (dp = "."%char :: fp \/ (dp = [] /\ fp = [])) ->
  (exs = [] \/ exists r, exs = "e"%char :: r) ->
  read_exponent exs = Some ex ->
  read_number ((if neg then ["-"%char] else []) ++ ip ++ dp ++ exs)
  = Some (let v := inject_Z (digits_value 0 (ip ++ fp))
                   * 10 ^ (ex - Z.of_nat (List.length fp)) in
          if neg then - v else v).
Proof.
  intros Hip Hne Hfp Hdp Hexs Hex.
  pose proof (exponent_starts_nondigit exs Hexs) as Hnd.
  assert (Hrest : match dp ++ exs with [] => True | c :: _ => is_digit c = false end).
  { destruct Hdp as [-> | [-> ->]]; [ reflexivity | exact Hnd ]. }
  assert (Hspan : span_digits (ip ++ dp ++ exs) = (ip, dp ++ exs))
    by (apply span_digits_app; assumption).
  assert (Hfrac : match dp ++ exs with
                  | c :: r => if Ascii.eqb c "." then span_digits r else ([], dp ++ exs)
                  | [] => ([], dp ++ exs)
                  end = (fp, exs)).
  { destruct Hdp as [-> | [-> ->]].
    - cbn [app]. rewrite Ascii.eqb_refl. now apply span_digits_app.
    - cbn [app]. destruct Hexs as [-> | [r ->]]; reflexivity. }
  unfold read_number.
  destruct neg.
  - cbn [app]. rewrite Ascii.eqb_refl. rewrite Hspan, Hfrac, Hex.
    destruct ip; [ contradiction | reflexivity ].
  - cbn [app]. destruct ip as [|c ip]; [ contradiction | ].
    cbn [app]. inversion Hip as [|? ? Hc Hip']; subst.
    destruct (digit_not_symbol c Hc) as (-> & _ & _).
    change (c :: ip ++ dp ++ exs) with ((c :: ip) ++ dp ++ exs).
    rewrite Hspan, Hfrac, Hex. reflexivity.
Qed.

Lemma scale_pow10 (dv m : Z) (k : nat) (a b : Z) :
  m = (dv * 10 ^ Z.of_nat k)%Z -> a = (b + Z.of_nat k)%Z ->
  inject_Z dv * 10 ^ a == inject_Z m * 10 ^ b.
Proof.
  intros -> ->. rewrite inject_Z_mult, <- pow10_Z by lia.
  rewrite pow10_plus. ring.
Qed.

Section Mantissa.
Variables (p m : Z).
Hypothesis Hp : (1 <= p)%Z.
Hypothesis Hm : (10 ^ (p - 1) <= m < 10 ^ p)%Z.

Let D := digits_of (Z.to_nat p) m.

Lemma mantissa_value : digits_value 0 D = m.
Proof.
  unfold D. rewrite digits_value_digits. rewrite Z2Nat.id by lia.
  assert (0 < 10 ^ (p - 1))%Z by (apply Z.pow_pos_nonneg; lia).
  rewrite Z.mod_small by lia. lia.
Qed.

Lemma mantissa_length : List.length D = Z.to_nat p.
Proof. apply digits_length. Qed.

(** Cutting the mantissa after [j] digits and dropping the trailing zeros
    of the fraction keeps the value, once the scale accounts for the
    [p - j] digits after the cut. *)
Lemma mantissa_cut (j : nat) (ex : Z) :
  (j <= Z.to_nat p)%nat ->
  inject_Z (digits_value 0 (firstn j D ++ rstrip0 (skipn j D)))
  * 10 ^ (ex - Z.of_nat (List.length (rstrip0 (skipn j D))))
  == inject_Z m * 10 ^ (ex - (p - Z.of_nat j)).
Proof.
  intros Hj. destruct (rstrip0_spec (skipn j D)) as [k Hk].
  set (fp := rstrip0 (skipn j D)) in *.
  assert (HD : D = (firstn j D ++ fp) ++ repeat "0"%char k).
  { rewrite <- app_assoc, <- Hk. symmetry. apply firstn_skipn. }
  assert (Hlen : (List.length fp + k = Z.to_nat p - j)%nat).
  { pose proof mantissa_length as HL. rewrite <- (firstn_skipn j D) in HL.
    rewrite length_app, length_firstn, Hk, length_app, repeat_length in HL.
    rewrite mantissa_length in HL. lia. }
  apply scale_pow10 with (k := k).
  - rewrite <- mantissa_value. rewrite HD at 1.
    now rewrite digits_value_app, digits_value_zeros.
  - lia.
Qed.

(** The same for a mantissa written after leading zeros. *)
Lemma mantissa_shifted (z : nat) :
  inject_Z (digits_value 0 (["0"%char] ++ repeat "0"%char z ++ rstrip0 D))
  * 10 ^ (0 - Z.of_nat (List.length (repeat "0"%char z ++ rstrip0 D)))
  == inject_Z m * 10 ^ (- Z.of_nat z - p).
Proof.
  destruct (rstrip0_spec D) as [k Hk]. set (fp := rstrip0 D) in *.
  assert (Hlen : (List.length fp + k = Z.to_nat p)%nat).
  { pose proof mantissa_length as HL. rewrite Hk, length_app, repeat_length in HL.
    exact HL. }
  apply scale_pow10 with (k := k).
  - rewrite <- mantissa_value. rewrite Hk at 1.
    rewrite !digits_value_app, !digits_value_zeros. cbn [digits_value].
    change (Z.of_nat (nat_of_ascii "0")) with 48%Z.
    replace (10 * 0 + (48 - 48))%Z with 0%Z by lia.
    now rewrite Z.mul_0_l.
  - rewrite length_app, repeat_length. lia.
Qed.

Lemma mantissa_first_nonempty (j : nat) : (1 <= j)%nat -> firstn j D <> [].
Proof.
  intros Hj E. apply (f_equal (@List.length ascii)) in E.
  rewrite length_firstn, mantissa_length in E. simpl in E. lia.
Qed.
End Mantissa.

Lemma Forall_firstn_skipn {A} (P : A -> Prop) (j : nat) (l : list A) :
  Forall P l -> Forall P (firstn j l) /\ Forall P (skipn j l).
Proof.
  intros H. rewrite <- (firstn_skipn j l) in H. now apply Forall_app in H.
Qed.

Lemma dot_frac_cases (fp : list ascii) :
  dot_frac fp = "."%char :: fp \/ (dot_frac fp = [] /\ fp = []).
Proof. destruct fp; [ now right | now left ]. Qed.

Lemma exp_field_starts (e : Z) : exists r, exp_field e = "e"%char :: r.
Proof. unfold exp_field. eauto. Qed.

(** Reading back a number written with [p] significant digits gives the
    value rounded to [p] significant digits. *)
Lemma read_format_g (p : Z) (x : Q) :
  (1 <= p)%Z ->
  exists v : Q, read_number (format_g_chars p x) = Some v /\ v == round_sig p x.
Proof.
  intros Hp. unfold format_g_chars, round_sig.
  destruct (Qeq_bool x 0) eqn:Ez.
  - eexists. split; [ reflexivity | reflexivity ].
  - assert (Hx : ~ x == 0) by (now apply Qeq_bool_neq).
    assert (Ha : 0 < Qabs x).
    { pose proof (Qabs_nonneg x) as H0.
      destruct (Qlt_le_dec 0 (Qabs x)) as [H | H]; [ exact H | ].
      exfalso. apply Hx. apply Qabs_Qle_condition in H. lra. }
    pose proof (sig_digits_spec p (Qabs x) Hp Ha) as Hs. cbv zeta in Hs.
    destruct (sig_digits p (Qabs x)) as [m e]. destruct Hs as (Hm & _ & _).
    set (D := digits_of (Z.to_nat p) m).
    assert (HD : Forall (fun c => is_digit c = true) D) by apply digits_all_digit.
    set (neg := Qltb x 0).
    destruct ((e <? -4) || (p <=? e))%Z eqn:Esci; [ | destruct (e <? 0)%Z eqn:Eneg ].
    + (* scientific style *)
      destruct (exp_field_starts e) as [r Hr].
      rewrite (read_number_parts neg (firstn 1 D) (dot_frac (rstrip0 (skipn 1 D)))
                 (rstrip0 (skipn 1 D)) (exp_field e) e).
      * eexists. split; [ reflexivity | ]. cbv zeta.
        pose proof (mantissa_cut p m Hp Hm 1 e ltac:(lia)) as Hv. fold D in Hv.
        replace (e - (p - Z.of_nat 1))%Z with (e - (p - 1))%Z in Hv by lia.
        destruct neg; [ now rewrite Hv | exact Hv ].
      * apply (Forall_firstn_skipn _ _ _ HD).
      * apply (mantissa_first_nonempty p m Hp 1). lia.
      * apply rstrip0_Forall. apply (Forall_firstn_skipn _ _ _ HD).
      * apply dot_frac_cases.
      * right. eauto.
      * apply read_exponent_field.
    + (* fixed style, value below one *)
      apply Z.ltb_lt in Eneg. apply orb_false_iff in Esci. destruct Esci as [E4 _].
      apply Z.ltb_ge in E4.
      set (z := Z.to_nat (- e - 1)).
      replace ("0"%char :: "."%char :: repeat "0"%char z ++ rstrip0 D)
        with (["0"%char] ++ ("."%char :: repeat "0"%char z ++ rstrip0 D) ++ [])
        by (now rewrite List.app_nil_r).
      rewrite (read_number_parts neg ["0"%char]
                 ("."%char :: repeat "0"%char z ++ rstrip0 D)
                 (repeat "0"%char z ++ rstrip0 D) [] 0).
      * eexists. split; [ reflexivity | ]. cbv zeta.
        pose proof (mantissa_shifted p m Hp Hm z) as Hv. fold D in Hv.
        replace (- Z.of_nat z - p)%Z with (e - (p - 1))%Z in Hv by (unfold z; lia).
        destruct neg; [ now rewrite Hv | exact Hv ].
      * constructor; [ reflexivity | constructor ].
      * discriminate.
      * apply Forall_app. split.
        -- apply Forall_forall. intros c Hc. apply repeat_spec in Hc. now subst.
        -- apply rstrip0_Forall. exact HD.
      * now left.
      * now left.
      * reflexivity.
    + (* fixed style, value at least one *)
      apply Z.ltb_ge in Eneg. apply orb_false_iff in Esci. destruct Esci as [_ Ep].
      apply Z.leb_gt in Ep.
      set (j := Z.to_nat (e + 1)).
      replace (firstn j D ++ dot_frac (rstrip0 (skipn j D)))
        with (firstn j D ++ dot_frac (rstrip0 (skipn j D)) ++ [])
        by (now rewrite List.app_nil_r).
      rewrite (read_number_parts neg (firstn j D) (dot_frac (rstrip0 (skipn j D)))
                 (rstrip0 (skipn j D)) [] 0).
      * eexists. split; [ reflexivity | ]. cbv zeta.
        pose proof (mantissa_cut p m Hp Hm j 0 ltac:(unfold j; lia)) as Hv. fold D in Hv.
        replace (0 - (p - Z.of_nat j))%Z with (e - (p - 1))%Z in Hv by (unfold j; lia).
        destruct neg; [ now rewrite Hv | exact Hv ].
      * apply (Forall_firstn_skipn _ _ _ HD).
      * apply (mantissa_first_nonempty p m Hp j). unfold j. lia.
      * apply rstrip0_Forall. apply (Forall_firstn_skipn _ _ _ HD).
      * apply dot_frac_cases.
      * now left.
      * reflexivity.
Qed.

(** ** Properties of rounding to significant digits *)

Lemma round_half_even_comp (q q' : Q) :
  q == q' -> round_half_even q = round_half_even q'.
Proof.
  intros E. unfold round_half_even.
  assert (Ef : Qfloor q = Qfloor q') by (now rewrite E).
  assert (Ec : Qcompare (q - inject_Z (Qfloor q)) (1 # 2)
               = Qcompare (q' - inject_Z (Qfloor q')) (1 # 2))
    by (now rewrite Ef, E).
  now rewrite Ec, Ef.
Qed.

Lemma Qabs_pos_of_nonzero (x : Q) : ~ x == 0 -> 0 < Qabs x.
Proof.
  intros Hx. pose proof (Qabs_nonneg x) as H0.
  destruct (Qlt_le_dec 0 (Qabs x)) as [H | H]; [ exact H | ].
  exfalso. apply Hx. apply Qabs_Qle_condition in H. lra.
Qed.

(** [round_sig p x] is [x] up to sign-symmetric rounding of [|x|]. *)
Lemma round_sig_abs (p : Z) (x : Q) :
  ~ x == 0 ->
  let '(m, e) := sig_digits p (Qabs x) in
  (x < 0 -> round_sig p x == - (inject_Z m * 10 ^ (e - (p - 1)))) /\
  (0 < x -> round_sig p x == inject_Z m * 10 ^ (e - (p - 1))).
Proof.
  intros Hx. unfold round_sig.
  destruct (Qeq_bool x 0) eqn:E; [ apply Qeq_bool_iff in E; contradiction | ].
  destruct (sig_digits p (Qabs x)) as [m e].
  destruct (Qltb x 0) eqn:En.
  - apply Qltb_true in En. split; [ reflexivity | lra ].
  - apply Qltb_false in En. split; [ lra | reflexivity ].
Qed.

(** Rounding to [p] significant digits has relative error at most
    [10^(1-p) / 2]. *)
Lemma round_sig_error (p : Z) (x : Q) :
  (1 <= p)%Z ->
  Qabs (x - round_sig p x) <= (1 # 2) * 10 ^ (1 - p) * Qabs x.
Proof.
  intros Hp. destruct (Qeq_dec x 0) as [Hz | Hx].
  - unfold round_sig. apply Qeq_bool_iff in Hz. rewrite Hz.
    apply Qeq_bool_iff in Hz. rewrite Hz. simpl (Qabs (0 - 0)).
    change (Qabs 0) with 0. rewrite Qmult_0_r. apply Qle_refl.
  - pose proof (Qabs_pos_of_nonzero x Hx) as Ha.
    pose proof (sig_digits_error p (Qabs x) Hp Ha) as He.
    pose proof (round_sig_abs p x Hx) as Hr.
    destruct (sig_digits p (Qabs x)) as [m e]. destruct Hr as [Hneg Hpos].
    destruct (decimal_exponent_spec (Qabs x) Ha) as [Hlo _].
    set (e0 := decimal_exponent (Qabs x)) in *.
    set (v := inject_Z m * 10 ^ (e - (p - 1))) in *.
    assert (Hscale : (1 # 2) * 10 ^ (e0 - (p - 1))
                     <= (1 # 2) * 10 ^ (1 - p) * Qabs x).
    { replace (e0 - (p - 1))%Z with ((1 - p) + e0)%Z by lia.
      rewrite pow10_plus.
      pose proof (pow10_pos (1 - p)) as Hpp.
      setoid_replace ((1 # 2) * 10 ^ (1 - p) * Qabs x)
        with ((1 # 2) * (10 ^ (1 - p) * Qabs x)) by ring.
      apply Qmult_le_l; [ reflexivity | ].
      apply Qmult_le_l; assumption. }
    eapply Qle_trans; [ | exact Hscale ].
    destruct (Qlt_le_dec x 0) as [Hn | Hn].
    + assert (E : x - round_sig p x == - (Qabs x - v)).
      { rewrite (Hneg Hn). rewrite (Qabs_neg x) by lra. ring. }
      rewrite E, Qabs_opp. exact He.
    + assert (Hp' : 0 < x) by (destruct (Qlt_le_dec 0 x); [ assumption | exfalso; apply Hx; lra ]).
      assert (E : x - round_sig p x == Qabs x - v).
      { rewrite (Hpos Hp'). rewrite (Qabs_pos x) by lra. ring. }
      rewrite E. exact He.
Qed.

(** A value with at most [p] significant digits is its own rounding. *)
Lemma round_sig_exact (p : Z) (k j : Z) :
  (1 <= p)%Z -> (Z.abs k < 10 ^ p)%Z ->
  round_sig p (inject_Z k * 10 ^ j) == inject_Z k * 10 ^ j.
Proof.
  intros Hp Hk. set (x := inject_Z k * 10 ^ j).
  pose proof (pow10_pos j) as Hj.
  destruct (Z.eq_dec k 0) as [-> | Hk0].
  - assert (E : x == 0) by (unfold x; change (inject_Z 0) with 0; ring).
    unfold round_sig. rewrite (proj2 (Qeq_bool_iff _ _) E). now rewrite E.
  - assert (Hx : ~ x == 0).
    { unfold x. intros E. apply Qmult_integral in E. destruct E as [E | E]; [ | lra ].
      apply Hk0. unfold Qeq, inject_Z in E. simpl in E. lia. }
    assert (Habs : Qabs x == inject_Z (Z.abs k) * 10 ^ j).
    { unfold x. rewrite Qabs_Qmult. rewrite (Qabs_pos (10 ^ j)) by lra.
      apply Qmult_comp; [ | reflexivity ]. unfold Qabs, inject_Z. reflexivity. }
    pose proof (Qabs_pos_of_nonzero x Hx) as Ha.
    pose proof (sig_digits_spec p (Qabs x) Hp Ha) as Hs. cbv zeta in Hs.
    pose proof (round_sig_abs p x Hx) as Hr.
    destruct (sig_digits p (Qabs x)) as [m e].
    destruct Hs as (_ & _ & Hv). destruct Hr as [Hneg Hpos].
    destruct (decimal_exponent_spec (Qabs x) Ha) as [Hlo Hhi].
    set (e0 := decimal_exponent (Qabs x)) in *.
    (* the scaled value is an integer *)
    assert (He0 : (e0 < p + j)%Z).
    { apply pow10_lt_inv. eapply Qle_lt_trans; [ exact Hlo | ].
      rewrite Habs, pow10_plus. apply Qmult_lt_compat_r; [ exact Hj | ].
      rewrite pow10_Z by lia. rewrite <- Zlt_Qlt. exact Hk. }
    set (d := (j - (e0 - (p - 1)))%Z).
    assert (Hd : (0 <= d)%Z) by (unfold d; lia).
    assert (Hy : Qabs x / 10 ^ (e0 - (p - 1)) == inject_Z (Z.abs k * 10 ^ d)).
    { rewrite Habs, inject_Z_mult, <- pow10_Z by exact Hd.
      unfold d. rewrite (pow10_minus j). field.
      pose proof (pow10_pos (e0 - (p - 1))). lra. }
    rewrite (round_half_even_comp _ _ Hy), round_half_even_Z in Hv.
    assert (Hval : inject_Z m * 10 ^ (e - (p - 1)) == Qabs x).
    { rewrite Hv, <- Hy. field. pose proof (pow10_pos (e0 - (p - 1))). lra. }
    destruct (Qlt_le_dec x 0) as [Hn | Hn].
    + rewrite (Hneg Hn), Hval. rewrite (Qabs_neg x) by lra. ring.
    + assert (Hp' : 0 < x) by (destruct (Qlt_le_dec 0 x); [ assumption | exfalso; apply Hx; lra ]).
      rewrite (Hpos Hp'), Hval. apply Qabs_pos. lra.
Qed.

(** ** Characters of the written numbers *)

Lemma chars_app (a b : string) :
  list_ascii_of_string (a ++ b)
  = list_ascii_of_string a ++ list_ascii_of_string b.
Proof. induction a; simpl; congruence. Qed.

Lemma chars_concat (ls : list string) :
  list_ascii_of_string (String.concat "" ls)
  = List.concat (map list_ascii_of_string ls).
Proof.
  induction ls as [|l ls IH]; [ reflexivity | ].
  rewrite concat_nosep_cons, chars_app, IH. reflexivity.
Qed.

Lemma g6_chars (x : Q) : list_ascii_of_string (g6 x) = format_g_chars 6 x.
Proof. unfold g6, format_g. apply list_ascii_of_string_of_list_ascii. Qed.

Lemma string_of_uint_digits (u : Decimal.uint) :
  Forall (fun c => is_digit c = true)
    (list_ascii_of_string (NilEmpty.string_of_uint u)).
Proof. induction u; simpl; constructor; (reflexivity || assumption). Qed.

Lemma digit_number_char (l : list ascii) :
  Forall (fun c => is_digit c = true) l -> Forall number_char l.
Proof. apply Forall_impl. intros c H. now left. Qed.

Lemma exp_field_chars (e : Z) : Forall number_char (exp_field e).
Proof.
  unfold exp_field.
  destruct (str_int_nonneg (Z.abs e) (Z.abs_nonneg e)) as (u & -> & _ & _).
  pose proof (digit_number_char _ (string_of_uint_digits u)) as Hd.
  constructor; [ unfold number_char; tauto | ].
  constructor; [ destruct (e <? 0)%Z; unfold number_char; tauto | ].
  destruct (Z.abs e <? 10)%Z; [ constructor; [ now left | exact Hd ] | exact Hd ].
Qed.

Lemma dot_frac_chars (fp : list ascii) :
  Forall number_char fp -> Forall number_char (dot_frac fp).
Proof.
  intros H. destruct fp; [ constructor | ].
  constructor; [ unfold number_char; tauto | exact H ].
Qed.

Lemma format_g_chars_number (p : Z) (x : Q) : Forall number_char (format_g_chars p x).
Proof.
  unfold format_g_chars. destruct (Qeq_bool x 0).
  - constructor; [ now left | constructor ].
  - destruct (sig_digits p (Qabs x)) as [m e].
    pose proof (digit_number_char _ (digits_all_digit (Z.to_nat p) m)) as HD.
    set (D := digits_of (Z.to_nat p) m) in *.
    apply Forall_app. split.
    + destruct (Qltb x 0); [ | constructor ].
      constructor; [ unfold number_char; tauto | constructor ].
    + destruct ((e <? -4) || (p <=? e))%Z; [ | destruct (e <? 0)%Z ].
      * apply Forall_app. split; [ apply (Forall_firstn_skipn _ _ _ HD) | ].
        apply Forall_app. split; [ | apply exp_field_chars ].
        apply dot_frac_chars, rstrip0_Forall. apply (Forall_firstn_skipn _ _ _ HD).
      * constructor; [ now left | ]. constructor; [ unfold number_char; tauto | ].
        apply Forall_app. split; [ | now apply rstrip0_Forall ].
        apply Forall_forall. intros c Hc. apply repeat_spec in Hc. subst. now left.
      * apply Forall_app. split; [ apply (Forall_firstn_skipn _ _ _ HD) | ].
        apply dot_frac_chars, rstrip0_Forall. apply (Forall_firstn_skipn _ _ _ HD).
Qed.

Lemma number_char_not (c : ascii) (l : list ascii) :
  Forall number_char l -> ~ number_char c -> ~ In c l.
Proof.
  intros H Hc Hin. rewrite Forall_forall in H. exact (Hc (H c Hin)).
Qed.

Lemma space_not_number : ~ number_char " "%char.
Proof. intros [H | [H | [H | [H | H]]]]; discriminate H. Qed.

Lemma newline_not_number : ~ number_char (ascii_of_nat 10).
Proof. intros [H | [H | [H | [H | H]]]]; discriminate H. Qed.

(** ** Cutting a text at separators *)

Lemma split_on_nonempty (sep : ascii) (s : list ascii) : split_on sep s <> [].
Proof.
  induction s as [|c s IH]; simpl; [ discriminate | ].
  destruct (Ascii.eqb c sep); [ discriminate | ].
  destruct (split_on sep s); [ contradiction | discriminate ].
Qed.

Lemma split_on_app (sep : ascii) (l rest : list ascii) :
  ~ In sep l -> split_on sep (l ++ sep :: rest) = l :: split_on sep rest.
Proof.
  induction l as [|c l IH]; intros Hin.
  - simpl. now rewrite Ascii.eqb_refl.
  - cbn [app split_on].
    destruct (Ascii.eqb_spec c sep) as [-> | Hc]; [ exfalso; apply Hin; now left | ].
    rewrite IH by (intros H; apply Hin; now right). reflexivity.
Qed.

Lemma split_on_none (sep : ascii) (l : list ascii) :
  ~ In sep l -> split_on sep l = [l].
Proof.
  induction l as [|c l IH]; intros Hin; [ reflexivity | ].
  cbn [split_on].
  destruct (Ascii.eqb_spec c sep) as [-> | Hc]; [ exfalso; apply Hin; now left | ].
  rewrite IH by (intros H; apply Hin; now right). reflexivity.
Qed.

(** A text made of lines, each ended by a newline, is cut back into these
    lines, followed by the empty piece after the last newline. *)
Lemma split_lines (ls : list (list ascii)) :
  Forall (fun l => ~ In (ascii_of_nat 10) l) ls ->
  split_on (ascii_of_nat 10) (List.concat (map (fun l => l ++ [ascii_of_nat 10]) ls))
  = ls ++ [[]].
Proof.
  induction 1 as [|l ls Hl Hls IH]; [ reflexivity | ].
  cbn [map List.concat]. rewrite <- app_assoc. cbn [app].
  rewrite split_on_app by exact Hl. now rewrite IH.
Qed.

Lemma strip_prefix_app (p s : list ascii) : strip_prefix p (p ++ s) = Some s.
Proof.
  induction p as [|c p IH]; [ reflexivity | ].
  cbn [app strip_prefix]. now rewrite Ascii.eqb_refl.
Qed.

(** ** Reading a line of three numbers *)

Lemma read_vec3_written (a b c : Q) :
  exists v : Vec3,
    read_vec3 (format_g_chars 6 a ++ " "%char :: format_g_chars 6 b
               ++ " "%char :: format_g_chars 6 c) = Some v /\
    Veq v (round_vec3 6 (a, b, c)).
Proof.
  assert (Hsp : forall x, ~ In " "%char (format_g_chars 6 x)).
  { intros x. apply (number_char_not _ _ (format_g_chars_number 6 x)).
    exact space_not_number. }
  destruct (read_format_g 6 a ltac:(lia)) as (va & Ha & Ea).
  destruct (read_format_g 6 b ltac:(lia)) as (vb & Hb & Eb).
  destruct (read_format_g 6 c ltac:(lia)) as (vc & Hc & Ec).
  exists (va, vb, vc). split.
  - unfold read_vec3. rewrite split_on_app by apply Hsp.
    rewrite split_on_app by apply Hsp. rewrite split_on_none by apply Hsp.
    now rewrite Ha, Hb, Hc.
  - unfold Veq, round_vec3, c0, c1, c2. simpl. tauto.
Qed.

(** ** Lines of the written text *)

Lemma vec3_line_chars (prefix : string) (v : Vec3) :
  list_ascii_of_string
    (prefix ++ g6 (c0 v) ++ " " ++ g6 (c1 v) ++ " " ++ g6 (c2 v) ++ nl)
  = add_newline (list_ascii_of_string prefix ++ vec3_chars v).
Proof.
  unfold add_newline, vec3_chars.
  rewrite !chars_app, !g6_chars. cbn [list_ascii_of_string nl].
  repeat (rewrite <- app_assoc; cbn [app]). reflexivity.
Qed.

Lemma facet_lines_chars (t : Triangle) :
  map list_ascii_of_string (facet_lines t) = map add_newline (facet_bodies t).
Proof.
  unfold facet_lines, facet_bodies, vertex_line. cbn [map].
  rewrite !vec3_line_chars. reflexivity.
Qed.

Lemma stl_lines_chars (name : string) (ts : list Triangle) :
  map list_ascii_of_string (stl_lines name ts)
  = map add_newline
      ((list_ascii_of_string "solid " ++ list_ascii_of_string name)
       :: flat_map facet_bodies ts
       ++ [list_ascii_of_string "endsolid " ++ list_ascii_of_string name]).
Proof.
  unfold stl_lines. cbn [map]. rewrite !map_app. cbn [map].
  f_equal.
  - unfold add_newline. rewrite !chars_app. cbn [list_ascii_of_string nl].
    now rewrite <- app_assoc.
  - f_equal.
    + induction ts as [|t ts IH]; [ reflexivity | ].
      cbn [flat_map]. rewrite !map_app, IH, facet_lines_chars. reflexivity.
    + unfold add_newline. rewrite !chars_app. cbn [list_ascii_of_string nl].
      now rewrite <- app_assoc.
Qed.

Lemma vec3_chars_no_newline (prefix : string) (v : Vec3) :
  ~ In (ascii_of_nat 10) (list_ascii_of_string prefix) ->
  ~ In (ascii_of_nat 10) (list_ascii_of_string prefix ++ vec3_chars v).
Proof.
  intros Hp Hin. unfold vec3_chars in Hin.
  assert (Hn : forall x, ~ In (ascii_of_nat 10) (format_g_chars 6 x)).
  { intros x. apply (number_char_not _ _ (format_g_chars_number 6 x)).
    exact newline_not_number. }
  repeat (apply in_app_or in Hin; destruct Hin as [Hin | Hin];
          [ first [ exact (Hp Hin) | exact (Hn _ Hin) ] | ];
          try (destruct Hin as [Hin | Hin]; [ discriminate Hin | ])).
  exact (Hn _ Hin).
Qed.

Lemma facet_bodies_no_newline (ts : list Triangle) :
  Forall (fun l => ~ In (ascii_of_nat 10) l) (flat_map facet_bodies ts).
Proof.
  assert (Hconst : forall s : string,
             forallb (fun c => negb (Ascii.eqb c (ascii_of_nat 10)))
               (list_ascii_of_string s) = true ->
             ~ In (ascii_of_nat 10) (list_ascii_of_string s)).
  { intros s H Hin. rewrite forallb_forall in H. specialize (H _ Hin).
    now rewrite Ascii.eqb_refl in H. }
  induction ts as [|t ts IH]; [ constructor | ].
  cbn [flat_map]. apply Forall_app. split; [ | exact IH ].
  unfold facet_bodies.
  repeat (constructor;
          [ first [ apply vec3_chars_no_newline; apply Hconst; reflexivity
                  | apply Hconst; reflexivity ] | ]).
  constructor.
Qed.

(** ** Reading the facets back *)

Lemma read_prefixed_vec3_written (prefix : string) (v : Vec3) :
  exists v' : Vec3,
    read_prefixed_vec3 prefix (list_ascii_of_string prefix ++ vec3_chars v) = Some v' /\
    Veq v' (round_vec3 6 v).
Proof.
  destruct v as [[a b] c].
  destruct (read_vec3_written a b c) as (v' & Hr & Hv).
  exists v'. split; [ | exact Hv ].
  unfold read_prefixed_vec3. rewrite strip_prefix_app. exact Hr.
Qed.

Lemma read_facets_written (ts : list Triangle) (footer : list ascii) :
  exists ts' : list Triangle,
    read_facets (flat_map facet_bodies ts ++ [footer; []]) = Some (ts', [footer; []]) /\
    Meq ts' (map (round_triangle 6) ts).
Proof.
  induction ts as [|t ts (ts' & IHr & IHm)].
  - exists []. split; [ reflexivity | constructor ].
  - destruct (read_prefixed_vec3_written "  facet normal " (normal_of t))
      as (n' & Hn & En).
    destruct (read_prefixed_vec3_written "      vertex " (v1_of t)) as (a' & Ha & Ea).
    destruct (read_prefixed_vec3_written "      vertex " (v2_of t)) as (b' & Hb & Eb).
    destruct (read_prefixed_vec3_written "      vertex " (v3_of t)) as (c' & Hc & Ec).
    exists ((n', a', b', c') :: ts'). split.
    + cbn [flat_map facet_bodies app read_facets].
      rewrite strip_prefix_app, Hn, Ha, Hb, Hc, IHr. reflexivity.
    + constructor; [ | exact IHm ].
      unfold Teq, round_triangle. simpl. tauto.
Qed.

(** Reading back the text of a solid gives its name and its triangles in
    order, each number rounded to 6 significant digits. *)
Lemma read_stl_written (name : string) (ts : list Triangle) :
  ~ In (ascii_of_nat 10) (list_ascii_of_string name) ->
  exists ts' : list Triangle,
    read_stl (stl_text name ts) = Some (name, ts') /\
    Meq ts' (map (round_triangle 6) ts).
Proof.
  intros Hname.
  destruct (read_facets_written ts
              (list_ascii_of_string "endsolid " ++ list_ascii_of_string name))
    as (ts' & Hr & Hm).
  exists ts'. split; [ | exact Hm ].
  unfold read_stl, stl_text. rewrite chars_concat, stl_lines_chars.
  rewrite split_lines.
  - cbn [app]. rewrite strip_prefix_app. rewrite <- app_assoc. cbn [app].
    rewrite Hr. rewrite string_of_list_ascii_of_string.
    unfold line_is. rewrite <- chars_app, string_of_list_ascii_of_string.
    now rewrite String.eqb_refl.
  - constructor; [ | apply Forall_app; split;
                     [ apply facet_bodies_no_newline | constructor; [ | constructor ] ] ].
    + intros Hin. apply in_app_or in Hin. destruct Hin as [Hin | Hin];
        [ simpl in Hin; intuition discriminate | exact (Hname Hin) ].
    + intros Hin. apply in_app_or in Hin. destruct Hin as [Hin | Hin];
        [ simpl in Hin; intuition discriminate | exact (Hname Hin) ].
Qed.

(** ** Rounding depends on the value only *)

Lemma decimal_exponent_comp (q q' : Q) :
  0 < q -> q == q' -> decimal_exponent q = decimal_exponent q'.
Proof.
  intros Hq E. assert (Hq' : 0 < q') by (now rewrite <- E).
  destruct (decimal_exponent_spec q' Hq') as [Hlo Hhi].
  apply decimal_exponent_unique; now rewrite E.
Qed.

Lemma sig_digits_comp (p : Z) (q q' : Q) :
  0 < q -> q == q' -> sig_digits p q = sig_digits p q'.
Proof.
  intros Hq E. unfold sig_digits.
  rewrite <- (decimal_exponent_comp q q' Hq E).
  assert (Er : round_half_even (q / 10 ^ (decimal_exponent q - (p - 1)))
               = round_half_even (q' / 10 ^ (decimal_exponent q - (p - 1))))
    by (apply round_half_even_comp; unfold Qdiv; apply Qmult_comp;
        [ exact E | reflexivity ]).
  now rewrite Er.
Qed.

Lemma round_sig_comp (p : Z) (x x' : Q) :
  x == x' -> round_sig p x == round_sig p x'.
Proof.
  intros E. unfold round_sig.
  assert (Ez : Qeq_bool x 0 = Qeq_bool x' 0) by (now rewrite E).
  rewrite <- Ez. destruct (Qeq_bool x 0) eqn:Hz; [ reflexivity | ].
  assert (Hx : ~ x == 0) by (now apply Qeq_bool_neq).
  assert (Ea : Qabs x == Qabs x') by (now rewrite E).
  rewrite <- (sig_digits_comp p (Qabs x) (Qabs x') (Qabs_pos_of_nonzero x Hx) Ea).
  assert (El : Qltb x 0 = Qltb x' 0) by (unfold Qltb; now rewrite E).
  rewrite <- El. reflexivity.
Qed.

Lemma round_sig_short (p : Z) (x : Q) :
  (1 <= p)%Z -> short_decimal p x -> round_sig p x == x.
Proof.
  intros Hp (k & j & Hk & E).
  rewrite (round_sig_comp p x _ E), E. now apply round_sig_exact.
Qed.

Lemma round_vec3_short (v : Vec3) : short_vec3 6 v -> Veq (round_vec3 6 v) v.
Proof.
  intros (H0 & H1 & H2). unfold Veq, round_vec3, c0, c1, c2; simpl.
  repeat split; apply round_sig_short; (lia || assumption).
Qed.

Lemma round_mesh_short (ts : list Triangle) :
  Forall (short_triangle 6) ts -> Meq (map (round_triangle 6) ts) ts.
Proof.
  induction 1 as [|t ts (Hn & H1 & H2 & H3) Hts IH]; [ constructor | ].
  cbn [map]. constructor; [ | exact IH ].
  unfold Teq, round_triangle; simpl.
  repeat split; apply round_vec3_short; assumption.
Qed.

(** ** Equal numbers are written alike *)

Lemma format_g_chars_comp (p : Z) (x x' : Q) :
  x == x' -> format_g_chars p x = format_g_chars p x'.
Proof.
  intros E. unfold format_g_chars.
  assert (Ez : Qeq_bool x 0 = Qeq_bool x' 0) by (now rewrite E).
  rewrite <- Ez. destruct (Qeq_bool x 0) eqn:Hz; [ reflexivity | ].
  assert (Hx : ~ x == 0) by (now apply Qeq_bool_neq).
  assert (Ea : Qabs x == Qabs x') by (now rewrite E).
  rewrite <- (sig_digits_comp p (Qabs x) (Qabs x') (Qabs_pos_of_nonzero x Hx) Ea).
  assert (El : Qltb x 0 = Qltb x' 0) by (unfold Qltb; now rewrite E).
  now rewrite <- El.
Qed.

Lemma g6_comp (x x' : Q) : x == x' -> g6 x = g6 x'.
Proof. intros E. unfold g6, format_g. now rewrite (format_g_chars_comp 6 x x' E). Qed.

Lemma vertex_line_Veq (v v' : Vec3) : Veq v v' -> vertex_line v = vertex_line v'.
Proof.
  intros (E0 & E1 & E2). unfold vertex_line.
  now rewrite (g6_comp _ _ E0), (g6_comp _ _ E1), (g6_comp _ _ E2).
Qed.

Lemma facet_lines_Teq (t t' : Triangle) : Teq t t' -> facet_lines t = facet_lines t'.
Proof.
  intros ((E0 & E1 & E2) & H1 & H2 & H3). unfold facet_lines.
  rewrite (g6_comp _ _ E0), (g6_comp _ _ E1), (g6_comp _ _ E2).
  now rewrite (vertex_line_Veq _ _ H1), (vertex_line_Veq _ _ H2),
    (vertex_line_Veq _ _ H3).
Qed.

(** Triangle lists that are equal as numbers are written as the same text. *)
Lemma stl_text_Meq (name : string) (l m : list Triangle) :
  Meq l m -> stl_text name l = stl_text name m.
Proof.
  intros H. unfold stl_text, stl_lines. do 3 f_equal.
  induction H as [|t t' l m Ht Hlm IH]; [ reflexivity | ].
  cbn [flat_map]. now rewrite (facet_lines_Teq _ _ Ht), IH.
Qed.

Lemma swap_identical (a b : Q) :
  (a == b -> a = b) ->
  (if Qltb b a then (b, a) else (a, b)) = (if Qltb a b then (a, b) else (b, a)).
Proof.
  intros Hrep. destruct (Qltb b a) eqn:E1, (Qltb a b) eqn:E2;
    rewrite ?Qltb_true, ?Qltb_false in E1, E2; try reflexivity; [ lra | ].
  assert (E : a == b) by lra. now rewrite (Hrep E).
Qed.

(** C7. [add_box] is symmetric in its two corners: called with the corners
    in either order it appends the same triangle list, with the same number
    of triangles and the same triangles in the same order, coordinates being
    equal as numbers; the two lists are identical term for term whenever
    coordinates that are equal as numbers are written alike.  Reversed
    corners raise no error, the function being total. *)
Theorem add_box_corner_symmetry (ts : list Triangle) (x0 y0 z0 x1 y1 z1 : Q) :
  Meq (add_box ts x0 y0 z0 x1 y1 z1) (add_box ts x1 y1 z1 x0 y0 z0) /\
  List.length (add_box ts x0 y0 z0 x1 y1 z1)
  = List.length (add_box ts x1 y1 z1 x0 y0 z0) /\
  ((x0 == x1 -> x0 = x1) -> (y0 == y1 -> y0 = y1) -> (z0 == z1 -> z0 = z1) ->
   add_box ts x0 y0 z0 x1 y1 z1 = add_box ts x1 y1 z1 x0 y0 z0).
Proof.
  assert (H : Meq (add_box ts x0 y0 z0 x1 y1 z1) (add_box ts x1 y1 z1 x0 y0 z0)).
  { rewrite !add_box_table.
    pose proof (swap_symmetric x0 x1) as Hx.
    pose proof (swap_symmetric y0 y1) as Hy.
    pose proof (swap_symmetric z0 z1) as Hz.
    destruct (if Qltb x1 x0 then (x1, x0) else (x0, x1)) as [a0 a1].
    destruct (if Qltb x0 x1 then (x0, x1) else (x1, x0)) as [a0' a1'].
    destruct (if Qltb y1 y0 then (y1, y0) else (y0, y1)) as [b0 b1].
    destruct (if Qltb y0 y1 then (y0, y1) else (y1, y0)) as [b0' b1'].
    destruct (if Qltb z1 z0 then (z1, z0) else (z0, z1)) as [d0 d1].
    destruct (if Qltb z0 z1 then (z0, z1) else (z1, z0)) as [d0' d1'].
    apply Forall2_app; [ apply Meq_refl | ].
    apply box_table_Meq; tauto. }
  split; [ exact H | ]. split; [ now apply Meq_length | ].
  intros Hx Hy Hz. rewrite !add_box_table.
  now rewrite (swap_identical x0 x1 Hx), (swap_identical y0 y1 Hy),
    (swap_identical z0 z1 Hz).
Qed.

(** ** The file after a run of the serializer *)

Lemma write_ascii_stl_file (filename solid_name : string)
  (triangles : list Triangle) (w : world) :
  openable w filename = true ->
  fst (write_ascii_stl filename solid_name triangles w) = inr tt /\
  file_text filename (oplog (snd (write_ascii_stl filename solid_name triangles w))) ""
  = stl_text solid_name triangles.
Proof.
  intros Ho. rewrite write_ascii_stl_run, Ho. cbn [fst snd oplog].
  split; [ reflexivity | ].
  rewrite file_text_app. cbn [file_text]. rewrite String.eqb_refl.
  rewrite file_text_writes. cbn [file_text]. reflexivity.
Qed.

Lemma str_int_no_newline (n : Z) : (0 <= n)%Z -> no_newline (str_int n).
Proof.
  intros Hn. destruct (str_int_nonneg n Hn) as (u & -> & _ & _).
  unfold no_newline.
  apply (number_char_not _ _ (digit_number_char _ (string_of_uint_digits u))).
  exact newline_not_number.
Qed.

Lemma grid_name_no_newline (cols rows : Z) :
  (0 <= cols)%Z -> (0 <= rows)%Z ->
  no_newline ("grid_" ++ str_int cols ++ "x" ++ str_int rows).
Proof.
  intros Hc Hr. unfold no_newline. rewrite !chars_app. intros Hin.
  apply in_app_or in Hin. destruct Hin as [Hin | Hin];
    [ simpl in Hin; intuition discriminate | ].
  apply in_app_or in Hin. destruct Hin as [Hin | Hin];
    [ exact (str_int_no_newline cols Hc Hin) | ].
  apply in_app_or in Hin. destruct Hin as [Hin | Hin];
    [ simpl in Hin; intuition discriminate | ].
  exact (str_int_no_newline rows Hr Hin).
Qed.

Lemma Meq_nth (l m : list Triangle) (i : nat) (s t : Triangle) :
  Meq l m -> nth_error l i = Some s -> nth_error m i = Some t -> Teq s t.
Proof.
  intros H. revert i. induction H as [|a b l m Hab Hlm IH]; intros i Hs Ht.
  - destruct i; discriminate.
  - destruct i as [|i]; simpl in Hs, Ht.
    + injection Hs as <-. injection Ht as <-. exact Hab.
    + exact (IH i Hs Ht).
Qed.




(** ** Any diagonal of the box *)

Lemma swap_picked (s : bool) (a b : Q) :
  let '(lo, hi) := if Qltb b a then (b, a) else (a, b) in
  let '(lo', hi') :=
    if Qltb (pick s b a) (pick s a b) then (pick s b a, pick s a b)
    else (pick s a b, pick s b a) in
  lo == lo' /\ hi == hi'.
Proof.
  destruct s; cbn [pick].
  - apply swap_symmetric.
  - destruct (Qltb b a); split; reflexivity.
Qed.

(** [add_box] depends on the box only, not on which of its four diagonals
    names it: exchanging the two corner coordinates on any choice of axes
    gives the same triangle list, coordinates being equal as numbers. *)
Theorem add_box_any_diagonal (ts : list Triangle) (x0 y0 z0 x1 y1 z1 : Q)
  (sx sy sz : bool) :
  Meq (add_box ts x0 y0 z0 x1 y1 z1)
      (add_box ts (pick sx x0 x1) (pick sy y0 y1) (pick sz z0 z1)
                  (pick sx x1 x0) (pick sy y1 y0) (pick sz z1 z0)).
Proof.
  rewrite !add_box_table.
  pose proof (swap_picked sx x0 x1) as Hx.
  pose proof (swap_picked sy y0 y1) as Hy.
  pose proof (swap_picked sz z0 z1) as Hz.
  destruct (if Qltb x1 x0 then (x1, x0) else (x0, x1)) as [a0 a1].
  destruct (if Qltb (pick sx x1 x0) (pick sx x0 x1) then _ else _) as [a0' a1'].
  destruct (if Qltb y1 y0 then (y1, y0) else (y0, y1)) as [b0 b1].
  destruct (if Qltb (pick sy y1 y0) (pick sy y0 y1) then _ else _) as [b0' b1'].
  destruct (if Qltb z1 z0 then (z1, z0) else (z0, z1)) as [d0 d1].
  destruct (if Qltb (pick sz z1 z0) (pick sz z0 z1) then _ else _) as [d0' d1'].
  apply Forall2_app; [ apply Meq_refl | ].
  apply box_table_Meq; tauto.
Qed.

(** ** Normals of the box faces *)

(** Whatever the corners, each triangle [add_box] appends states a unit
    normal along an axis, and this normal is perpendicular to the two edges
    of the triangle that leave its first vertex: the triangle lies in the
    plane of its face. *)
Theorem add_box_normals_perpendicular (x0 y0 z0 x1 y1 z1 : Q) (t : Triangle) :
  In t (add_box [] x0 y0 z0 x1 y1 z1) ->
  dot (normal_of t) (normal_of t) == 1 /\
  dot (normal_of t) (vsub (v2_of t) (v1_of t)) == 0 /\
  dot (normal_of t) (vsub (v3_of t) (v1_of t)) == 0 /\
  In (normal_of t)
    [ (0.0, 0.0, -1.0); (0.0, 0.0, 1.0); (-1.0, 0.0, 0.0);
      (1.0, 0.0, 0.0); (0.0, -1.0, 0.0); (0.0, 1.0, 0.0) ].
Proof.
  rewrite add_box_table.
  destruct (if Qltb x1 x0 then (x1, x0) else (x0, x1)) as [a0 a1].
  destruct (if Qltb y1 y0 then (y1, y0) else (y0, y1)) as [b0 b1].
  destruct (if Qltb z1 z0 then (z1, z0) else (z0, z1)) as [d0 d1].
  cbn [app]. unfold box_table. intros Ht. simpl in Ht.
  repeat (destruct Ht as [<- | Ht];
          [ unfold dot, vsub, c0, c1, c2; cbn [normal_of v1_of v2_of v3_of fst snd];
            split; [ reflexivity | split; [ ring | split; [ ring | simpl; tauto ] ] ] | ]).
  contradiction.
Qed.

Lemma add_box_normals_perpendicular_witness :
  let t := ((0.0, 0.0, -1.0), (0, 0, 0), (1, 0, 0), (1, 1, 0)) in
  In t (add_box [] 0 0 0 1 1 1) /\
  dot (normal_of t) (normal_of t) == 1 /\
  dot (normal_of t) (vsub (v2_of t) (v1_of t)) == 0 /\
  dot (normal_of t) (vsub (v3_of t) (v1_of t)) == 0 /\
  In (normal_of t)
    [ (0.0, 0.0, -1.0); (0.0, 0.0, 1.0); (-1.0, 0.0, 0.0);
      (1.0, 0.0, 0.0); (0.0, -1.0, 0.0); (0.0, 1.0, 0.0) ].
Proof.
  intros t.
  assert (H : In t (add_box [] 0 0 0 1 1 1)) by (simpl; left; reflexivity).
  split; [ exact H | ].
  apply (add_box_normals_perpendicular 0 0 0 1 1 1 t H).
Defined.

(** ** The surface of a box is closed *)

Lemma swap_strict (a b : Q) :
  ~ a == b ->
  let '(lo, hi) := if Qltb b a then (b, a) else (a, b) in lo < hi.
Proof.
  intros Hne. destruct (Qltb b a) eqn:E.
  - now apply Qltb_true in E.
  - apply Qltb_false in E. destruct (Qlt_le_dec a b) as [H | H]; [ exact H | ].
    exfalso. apply Hne. lra.
Qed.

Lemma pick_eqb (a b : Q) (i j : bool) :
  a < b -> Qeq_bool (pick i a b) (pick j a b) = Bool.eqb i j.
Proof.
  intros Hab. destruct i, j; cbn [pick Bool.eqb].
  - apply Qeq_bool_iff. reflexivity.
  - apply not_true_iff_false. intros H. apply Qeq_bool_iff in H. lra.
  - apply not_true_iff_false. intros H. apply Qeq_bool_iff in H. lra.
  - apply Qeq_bool_iff. reflexivity.
Qed.

Section BoxEdges.
Variables x0 y0 z0 x1 y1 z1 : Q.
Hypothesis Hx : x0 < x1.
Hypothesis Hy : y0 < y1.
Hypothesis Hz : z0 < z1.

Let corner := corner_at x0 y0 z0 x1 y1 z1.

Lemma corner_eqb (c d : corner_id) : Veqb (corner c) (corner d) = corner_id_eqb c d.
Proof.
  destruct c as [[i j] k], d as [[i' j'] k'].
  unfold corner, corner_at, Veqb, corner_id_eqb, c0, c1, c2. cbn [fst snd].
  now rewrite !pick_eqb by assumption.
Qed.

Lemma box_table_edges :
  mesh_edges (box_table x0 y0 z0 x1 y1 z1)
  = map (fun e => (corner (fst e), corner (snd e))) box_edge_ids.
Proof. reflexivity. Qed.

Lemma count_edge_corners (u v : corner_id) (ids : list (corner_id * corner_id)) :
  count_edge (corner u) (corner v) (map (fun e => (corner (fst e), corner (snd e))) ids)
  = List.length
      (filter (fun e => corner_id_eqb (fst e) u && corner_id_eqb (snd e) v) ids).
Proof.
  unfold count_edge. induction ids as [|[a b] ids IH]; [ reflexivity | ].
  cbn [map filter fst snd]. rewrite !corner_eqb.
  destruct (corner_id_eqb a u && corner_id_eqb b v); cbn [List.length]; now rewrite IH.
Qed.

Lemma box_table_closed : closed_oriented (box_table x0 y0 z0 x1 y1 z1).
Proof.
  assert (Hids : forallb
            (fun e =>
               Nat.eqb (List.length
                          (filter (fun e' => corner_id_eqb (fst e') (fst e)
                                             && corner_id_eqb (snd e') (snd e))
                             box_edge_ids)) 1
               && Nat.eqb (List.length
                             (filter (fun e' => corner_id_eqb (fst e') (snd e)
                                                && corner_id_eqb (snd e') (fst e))
                                box_edge_ids)) 1)
            box_edge_ids = true) by (vm_compute; reflexivity).
  rewrite forallb_forall in Hids.
  intros u v Hin. rewrite box_table_edges in *.
  apply in_map_iff in Hin. destruct Hin as ([cu cv] & E & Hin).
  cbn [fst snd] in E. injection E as <- <-.
  rewrite !count_edge_corners.
  specialize (Hids _ Hin). cbn [fst snd] in Hids.
  apply andb_true_iff in Hids. destruct Hids as [H1 H2].
  apply Nat.eqb_eq in H1, H2. now split.
Qed.
End BoxEdges.

(** The box [add_box] builds is closed, as its docstring says: when the two
    corners differ on every axis, each edge of the twelve triangles is shared
    by exactly two of them, which run along it in opposite directions. *)
Theorem add_box_closed_surface (x0 y0 z0 x1 y1 z1 : Q) :
  ~ x0 == x1 -> ~ y0 == y1 -> ~ z0 == z1 ->
  closed_oriented (add_box [] x0 y0 z0 x1 y1 z1) /\
  List.length (mesh_edges (add_box [] x0 y0 z0 x1 y1 z1)) = 36%nat.
Proof.
  intros Hx Hy Hz. rewrite add_box_table.
  pose proof (swap_strict x0 x1 Hx) as Sx.
  pose proof (swap_strict y0 y1 Hy) as Sy.
  pose proof (swap_strict z0 z1 Hz) as Sz.
  destruct (if Qltb x1 x0 then (x1, x0) else (x0, x1)) as [a0 a1].
  destruct (if Qltb y1 y0 then (y1, y0) else (y0, y1)) as [b0 b1].
  destruct (if Qltb z1 z0 then (z1, z0) else (z0, z1)) as [d0 d1].
  cbn [app]. split; [ now apply box_table_closed | reflexivity ].
Qed.

Lemma add_box_closed_surface_witness :
  ~ 0 == 1 /\ ~ 0 == 2 /\ ~ 0 == 3 /\
  closed_oriented (add_box [] 0 0 0 1 2 3) /\
  List.length (mesh_edges (add_box [] 0 0 0 1 2 3)) = 36%nat.
Proof.
  assert (H1 : ~ 0 == 1) by (intros H; discriminate H).
  assert (H2 : ~ 0 == 2) by (intros H; discriminate H).
  assert (H3 : ~ 0 == 3) by (intros H; discriminate H).
  split; [ exact H1 | ]. split; [ exact H2 | ]. split; [ exact H3 | ].
  apply (add_box_closed_surface 0 0 0 1 2 3 H1 H2 H3).
Defined.

(** ** Orientation of the triangles of a box *)

(** When the two corners differ on every axis, all twelve triangles of
    [add_box] are oriented the same way relative to their stated normals:
    the right-hand-rule normal of the vertex order is a positive multiple of
    the opposite of the stated normal, so that none of them has a zero area
    and exchanging two vertices in each (or negating every normal) would
    make the normals and the vertex orders agree. *)
Theorem add_box_winding_uniformly_reversed (x0 y0 z0 x1 y1 z1 : Q) (t : Triangle) :
  ~ x0 == x1 -> ~ y0 == y1 -> ~ z0 == z1 ->
  In t (add_box [] x0 y0 z0 x1 y1 z1) ->
  normalizes_to (winding_normal t) (vscale (-1) (normal_of t)) /\
  normalizes_to
    (winding_normal (normal_of t, v1_of t, v3_of t, v2_of t)) (normal_of t).
Proof.
  intros Hx Hy Hz. rewrite add_box_table.
  pose proof (swap_strict x0 x1 Hx) as Sx.
  pose proof (swap_strict y0 y1 Hy) as Sy.
  pose proof (swap_strict z0 z1 Hz) as Sz.
  destruct (if Qltb x1 x0 then (x1, x0) else (x0, x1)) as [a0 a1].
  destruct (if Qltb y1 y0 then (y1, y0) else (y0, y1)) as [b0 b1].
  destruct (if Qltb z1 z0 then (z1, z0) else (z0, z1)) as [d0 d1].
  cbn [app]. intros Ht.
  pose proof (box_table_winding_reversed a0 b0 d0 a1 b1 d1 t Sx Sy Sz Ht) as Hrev.
  split; [ exact Hrev | ].
  destruct Hrev as (k & Hk & Hkk & E0 & E1 & E2).
  destruct t as [[[n v1] v2] v3].
  destruct n as [[n0 n1] n2], v1 as [[p0 p1] p2], v2 as [[q0 q1] q2], v3 as [[r0 r1] r2].
  unfold winding_normal, cross, vsub, vscale, dot, Veq, c0, c1, c2 in *.
  cbn [normal_of v1_of v2_of v3_of fst snd] in *.
  exists k. split; [ exact Hk | ]. split.
  - rewrite Hkk. unfold dot, c0, c1, c2. cbn [fst snd]. ring.
  - unfold Veq, vscale, c0, c1, c2. cbn [fst snd].
    split; [ | split ].
    + setoid_replace (k * n0) with (- (k * (-1 * n0))) by ring. rewrite <- E0. ring.
    + setoid_replace (k * n1) with (- (k * (-1 * n1))) by ring. rewrite <- E1. ring.
    + setoid_replace (k * n2) with (- (k * (-1 * n2))) by ring. rewrite <- E2. ring.
Qed.

Lemma add_box_winding_uniformly_reversed_witness :
  let t := ((0.0, 0.0, -1.0), (0, 0, 0), (1, 0, 0), (1, 2, 0)) in
  ~ 0 == 1 /\ ~ 0 == 2 /\ ~ 0 == 3 /\
  In t (add_box [] 0 0 0 1 2 3) /\
  normalizes_to (winding_normal t) (vscale (-1) (normal_of t)) /\
  normalizes_to
    (winding_normal (normal_of t, v1_of t, v3_of t, v2_of t)) (normal_of t).
Proof.
  intros t.
  assert (H1 : ~ 0 == 1) by (intros H; discriminate H).
  assert (H2 : ~ 0 == 2) by (intros H; discriminate H).
  assert (H3 : ~ 0 == 3) by (intros H; discriminate H).
  assert (Ht : In t (add_box [] 0 0 0 1 2 3)) by (simpl; left; reflexivity).
  split; [ exact H1 | ]. split; [ exact H2 | ]. split; [ exact H3 | ].
  split; [ exact Ht | ].
  apply (add_box_winding_uniformly_reversed 0 0 0 1 2 3 t H1 H2 H3 Ht).
Defined.

(** ** Where the cursor walks end *)

Section CursorEnd.
Variables cell wall : Q.
Variable count : Z.
Variable step : Q * list Triangle -> Z -> Q * list Triangle.

Hypothesis step_wall_cursor : forall x ts col,
  (col < count - 1)%Z -> fst (step (x, ts) col) = x + cell + wall.

Hypothesis step_last_cursor : forall x ts,
  fst (step (x, ts) (count - 1)%Z) = x + cell.

Lemma cursor_end_walls (n k : nat) (x : Q) (ts : list Triangle) :
  (Z.of_nat (k + n) <= count - 1)%Z ->
  fst (fold_left step (map Z.of_nat (seq k n)) (x, ts))
  == x + inject_Z (Z.of_nat n) * (cell + wall).
Proof.
  revert k x ts. induction n as [|n IH]; intros k x ts Hk.
  - simpl. ring.
  - cbn [seq map fold_left].
    pose proof (step_wall_cursor x ts (Z.of_nat k) ltac:(lia)) as Hs.
    destruct (step (x, ts) (Z.of_nat k)) as [x' ts']. cbn [fst] in Hs. subst x'.
    rewrite IH by lia. rewrite inject_Z_S. ring.
Qed.

Lemma cursor_end (x : Q) (ts : list Triangle) :
  (1 <= count)%Z ->
  fst (fold_left step (range count) (x, ts))
  == x + inject_Z (count - 1) * (cell + wall) + cell.
Proof.
  intros Hc. rewrite range_last by exact Hc. rewrite fold_left_app.
  pose proof (cursor_end_walls (Z.to_nat (count - 1)) 0 x ts ltac:(lia)) as H.
  destruct (fold_left step (map Z.of_nat (seq 0 (Z.to_nat (count - 1)))) (x, ts))
    as [x' ts'].
  cbn [fold_left]. rewrite step_last_cursor. cbn [fst] in H. rewrite H.
  rewrite Z2Nat.id by lia. reflexivity.
Qed.
End CursorEnd.

(** For every valid parameter set the two cursor walks of [generate_grid]
    end exactly on the inner face of the far outer wall: the cells and the
    dividers fill the inner width and the inner length, nothing is left
    over. *)
Theorem cursor_walks_fill_inner_area
  (outer_width outer_length base_thickness wall_thickness wall_height : Q)
  (cols rows : Z) (ts ts' : list Triangle) :
  valid_params outer_width outer_length base_thickness wall_thickness
    wall_height cols rows ->
  fst (fold_left
         (vertical_step (cell_size outer_width wall_thickness cols) wall_thickness
            base_thickness outer_length (base_thickness + wall_height) cols)
         (range cols) (wall_thickness, ts))
  == outer_width - wall_thickness /\
  fst (fold_left
         (horizontal_step (cell_size outer_length wall_thickness rows) wall_thickness
            base_thickness outer_width (base_thickness + wall_height) rows)
         (range rows) (wall_thickness, ts'))
  == outer_length - wall_thickness.
Proof.
  intros (Hc & Hr & Hwt & Hbt & Hwh & Hiw & Hil & Hcw & Hcl).
  split.
  - rewrite (cursor_end (cell_size outer_width wall_thickness cols) wall_thickness cols).
    + pose proof (cell_size_total outer_width wall_thickness cols Hc) as Ht.
      unfold inner_dim in Ht.
      replace (cols - 1)%Z with (cols + -1)%Z by lia.
      rewrite inject_Z_plus. change (inject_Z (-1)) with (-1). lra.
    + intros x l col H. now rewrite vertical_step_wall.
    + intros x l. now rewrite vertical_step_last.
    + exact Hc.
  - rewrite (cursor_end (cell_size outer_length wall_thickness rows) wall_thickness rows).
    + pose proof (cell_size_total outer_length wall_thickness rows Hr) as Ht.
      unfold inner_dim in Ht.
      replace (rows - 1)%Z with (rows + -1)%Z by lia.
      rewrite inject_Z_plus. change (inject_Z (-1)) with (-1). lra.
    + intros y l row H. now rewrite horizontal_step_wall.
    + intros y l. now rewrite horizontal_step_last.
    + exact Hr.
Qed.

Lemma cursor_walks_fill_inner_area_witness :
  valid_params 215.0 115.0 2.0 2.0 20.0 5 3 /\
  fst (fold_left
         (vertical_step (cell_size 215.0 2.0 5) 2.0 2.0 115.0 (2.0 + 20.0) 5)
         (range 5) (2.0, []))
  == 215.0 - 2.0 /\
  fst (fold_left
         (horizontal_step (cell_size 115.0 2.0 3) 2.0 2.0 215.0 (2.0 + 20.0) 3)
         (range 3) (2.0, []))
  == 115.0 - 2.0.
Proof.
  split; [ check_valid_params | ].
  apply (cursor_walks_fill_inner_area 215.0 115.0 2.0 2.0 20.0 5 3 [] []).
  check_valid_params.
Defined.

(** ** Positions of the dividers in closed form *)

Lemma divider_starts_nth (c w : Q) (n i : nat) (x s : Q) :
  nth_error (divider_starts x c w n) i = Some s ->
  s == x + (inject_Z (Z.of_nat i) + 1) * c + inject_Z (Z.of_nat i) * w.
Proof.
  revert x i. induction n as [|n IH]; intros x i H.
  - destruct i; discriminate.
  - destruct i as [|i]; cbn [divider_starts nth_error] in H.
    + injection H as <-. change (inject_Z (Z.of_nat 0)) with 0. ring.
    + apply IH in H. rewrite H, inject_Z_S. ring.
Qed.

Lemma divider_starts_nth_some (c w : Q) (n i : nat) (x : Q) :
  (i < n)%nat -> exists s, nth_error (divider_starts x c w n) i = Some s.
Proof.
  intros H. destruct (nth_error (divider_starts x c w n) i) eqn:E; [ eauto | ].
  apply nth_error_None in E. rewrite divider_starts_length in E. lia.
Qed.

(** In exact arithmetic, for every valid parameter set, box [5 + i] of
    the mesh (for [i < cols - 1]) is the [i]-th vertical divider, which
    starts at
    [x = wall_thickness + (i+1) cell_width + i wall_thickness] and is
    [wall_thickness] wide; box [5 + (cols-1) + j] (for [j < rows - 1]) is the
    [j]-th horizontal divider, placed likewise along y.  Hence all cells are
    [cell_width] wide and [cell_length] long. *)
Theorem divider_positions
  (outer_width outer_length base_thickness wall_thickness wall_height : Q)
  (cols rows : Z) :
  valid_params outer_width outer_length base_thickness wall_thickness
    wall_height cols rows ->
  let plan := grid_plan outer_width outer_length base_thickness wall_thickness
                wall_height cols rows in
  let cell_width := cell_size outer_width wall_thickness cols in
  let cell_length := cell_size outer_length wall_thickness rows in
  (exists solid_name,
     grid_mesh outer_width outer_length base_thickness wall_thickness wall_height
       cols rows = inr (solid_name, flat_map box_triangles plan)) /\
  (forall i : nat, (Z.of_nat i < cols - 1)%Z ->
     exists x : Q,
       nth_error plan (5 + i)
       = Some ((x, wall_thickness, base_thickness),
               (x + wall_thickness, outer_length - wall_thickness,
                base_thickness + wall_height)) /\
       x == wall_thickness + (inject_Z (Z.of_nat i) + 1) * cell_width
            + inject_Z (Z.of_nat i) * wall_thickness) /\
  (forall j : nat, (Z.of_nat j < rows - 1)%Z ->
     exists y : Q,
       nth_error plan (5 + Z.to_nat (cols - 1) + j)
       = Some ((wall_thickness, y, base_thickness),
               (outer_width - wall_thickness, y + wall_thickness,
                base_thickness + wall_height)) /\
       y == wall_thickness + (inject_Z (Z.of_nat j) + 1) * cell_length
            + inject_Z (Z.of_nat j) * wall_thickness).
Proof.
  intros Hv plan cell_width cell_length.
  split; [ eexists; exact (grid_mesh_valid _ _ _ _ _ _ _ Hv) | ].
  unfold plan, grid_plan, vertical_dividers, horizontal_dividers.
  set (xs := divider_starts wall_thickness (cell_size outer_width wall_thickness cols)
               wall_thickness (Z.to_nat (cols - 1))).
  set (ys := divider_starts wall_thickness (cell_size outer_length wall_thickness rows)
               wall_thickness (Z.to_nat (rows - 1))).
  assert (Hlx : List.length xs = Z.to_nat (cols - 1)) by apply divider_starts_length.
  split.
  - intros i Hi.
    destruct (divider_starts_nth_some (cell_size outer_width wall_thickness cols)
                wall_thickness (Z.to_nat (cols - 1)) i wall_thickness ltac:(lia))
      as [x Hx].
    fold xs in Hx. exists x. split.
    + change (5 + i)%nat with (List.length (shell_boxes outer_width outer_length
                 base_thickness wall_thickness wall_height) + i)%nat.
      rewrite nth_error_app2 by lia.
      replace (_ + i - _)%nat with i by lia.
      rewrite nth_error_app1 by (rewrite length_map; lia).
      rewrite nth_error_map, Hx. reflexivity.
    + exact (divider_starts_nth _ _ _ _ _ _ Hx).
  - intros j Hj.
    destruct (divider_starts_nth_some (cell_size outer_length wall_thickness rows)
                wall_thickness (Z.to_nat (rows - 1)) j wall_thickness ltac:(lia))
      as [y Hy].
    fold ys in Hy. exists y. split.
    + change (5 + Z.to_nat (cols - 1) + j)%nat
        with (List.length (shell_boxes outer_width outer_length
                 base_thickness wall_thickness wall_height)
              + Z.to_nat (cols - 1) + j)%nat.
      rewrite nth_error_app2 by lia.
      rewrite nth_error_app2 by (rewrite length_map; lia).
      rewrite length_map, Hlx.
      replace (_ + _ + j - _ - _)%nat with j by lia.
      rewrite nth_error_map, Hy. reflexivity.
    + exact (divider_starts_nth _ _ _ _ _ _ Hy).
Qed.

Lemma divider_positions_witness :
  valid_params 215.0 115.0 2.0 2.0 20.0 5 3 /\
  let plan := grid_plan 215.0 115.0 2.0 2.0 20.0 5 3 in
  let cell_width := cell_size 215.0 2.0 5 in
  let cell_length := cell_size 115.0 2.0 3 in
  (exists solid_name,
     grid_mesh 215.0 115.0 2.0 2.0 20.0 5 3
     = inr (solid_name, flat_map box_triangles plan)) /\
  (forall i : nat, (Z.of_nat i < 5 - 1)%Z ->
     exists x : Q,
       nth_error plan (5 + i)
       = Some ((x, 2.0, 2.0), (x + 2.0, 115.0 - 2.0, 2.0 + 20.0)) /\
       x == 2.0 + (inject_Z (Z.of_nat i) + 1) * cell_width
            + inject_Z (Z.of_nat i) * 2.0) /\
  (forall j : nat, (Z.of_nat j < 3 - 1)%Z ->
     exists y : Q,
       nth_error plan (5 + Z.to_nat (5 - 1) + j)
       = Some ((2.0, y, 2.0), (215.0 - 2.0, y + 2.0, 2.0 + 20.0)) /\
       y == 2.0 + (inject_Z (Z.of_nat j) + 1) * cell_length
            + inject_Z (Z.of_nat j) * 2.0).
Proof.
  split; [ check_valid_params | ].
  apply (divider_positions 215.0 115.0 2.0 2.0 20.0 5 3). check_valid_params.
Defined.

(** ** The mesh fills the outer dimensions *)

(** For every valid parameter set the origin and the corner
    [(outer_width, outer_length, base_thickness + wall_height)] are vertices
    of the mesh, none lying beyond them: the bounding box of the tray is
    exactly the requested outer width and length and the total height. *)
Theorem mesh_bounding_box_attained
  (outer_width outer_length base_thickness wall_thickness wall_height : Q)
  (cols rows : Z) :
  valid_params outer_width outer_length base_thickness wall_thickness
    wall_height cols rows ->
  exists (solid_name : string) (triangles : list Triangle),
    grid_mesh outer_width outer_length base_thickness wall_thickness
      wall_height cols rows = inr (solid_name, triangles) /\
    (exists t, In t triangles /\ In (0.0, 0.0, 0.0) (vertices t)) /\
    (exists t, In t triangles /\
               In (outer_width, outer_length, base_thickness + wall_height)
                  (vertices t)) /\
    (forall t p, In t triangles -> In p (vertices t) ->
       in_bounds outer_width outer_length (base_thickness + wall_height) p).
Proof.
  intros Hv. pose proof (grid_mesh_valid _ _ _ _ _ _ _ Hv) as Hm.
  pose proof (plan_proper_in_bounds _ _ _ _ _ _ _ Hv) as Hp.
  rewrite Forall_forall in Hp.
  eexists; eexists. split; [ exact Hm | ].
  set (plan := grid_plan outer_width outer_length base_thickness wall_thickness
                 wall_height cols rows) in *.
  assert (Hbase : In ((0.0, 0.0, 0.0), (outer_width, outer_length, base_thickness)) plan)
    by (unfold plan, grid_plan, shell_boxes; simpl; tauto).
  assert (Hright : In ((outer_width - wall_thickness, 0.0, base_thickness),
                       (outer_width, outer_length, base_thickness + wall_height)) plan)
    by (unfold plan, grid_plan, shell_boxes; simpl; tauto).
  split; [ | split ].
  - eexists. split.
    + apply in_flat_map. eexists. split; [ exact Hbase | ].
      rewrite box_triangles_proper by (apply (Hp _ Hbase)).
      unfold box_table; cbn [c0 c1 c2 fst snd]. left. reflexivity.
    + simpl. tauto.
  - eexists. split.
    + apply in_flat_map. eexists. split; [ exact Hright | ].
      rewrite box_triangles_proper by (apply (Hp _ Hright)).
      unfold box_table; cbn [c0 c1 c2 fst snd]. right; right; left. reflexivity.
    + simpl. tauto.
  - intros t p. apply (plan_triangles_in_bounds _ _ _ _ _ _ _ _ t p Hv).
    apply incl_refl.
Qed.

Lemma mesh_bounding_box_attained_witness :
  valid_params 215.0 115.0 2.0 2.0 20.0 5 3 /\
  exists (solid_name : string) (triangles : list Triangle),
    grid_mesh 215.0 115.0 2.0 2.0 20.0 5 3 = inr (solid_name, triangles) /\
    (exists t, In t triangles /\ In (0.0, 0.0, 0.0) (vertices t)) /\
    (exists t, In t triangles /\ In (215.0, 115.0, 2.0 + 20.0) (vertices t)) /\
    (forall t p, In t triangles -> In p (vertices t) ->
       in_bounds 215.0 115.0 (2.0 + 20.0) p).
Proof.
  split; [ check_valid_params | ].
  apply (mesh_bounding_box_attained 215.0 115.0 2.0 2.0 20.0 5 3). check_valid_params.
Defined.

(** ** The file operations of a run *)

Lemma file_text_writes_other (f g : string) (lines : list string)
  (rest : list io_event) (acc : string) :
  f <> g ->
  file_text g (map (FileWrite f) lines ++ rest) acc = file_text g rest acc.
Proof.
  intros Hfg. apply String.eqb_neq in Hfg.
  induction lines as [|l lines IH]; [ reflexivity | ].
  cbn [map app file_text]. now rewrite Hfg.
Qed.

(** Whatever its outcome, a run of [generate_grid] changes the content of
    no file other than its output file. *)
Theorem generate_grid_other_files_untouched
  (outer_width outer_length base_thickness wall_thickness wall_height : Q)
  (cols rows : Z) (filename other : string) (w : world) (before : string) :
  other <> filename ->
  file_text other
    (oplog (snd (generate_grid outer_width outer_length base_thickness
                   wall_thickness wall_height cols rows filename w))) before
  = file_text other (oplog w) before.
Proof.
  intros Hne. unfold generate_grid.
  destruct (grid_mesh outer_width outer_length base_thickness wall_thickness
              wall_height cols rows) as [e | [solid_name triangles]].
  - reflexivity.
  - rewrite write_ascii_stl_run. destruct (openable w filename); [ | reflexivity ].
    cbn [snd oplog]. rewrite file_text_app.
    assert (Hfg : String.eqb filename other = false)
      by (apply String.eqb_neq; congruence).
    cbn [file_text]. rewrite Hfg.
    rewrite file_text_writes_other by congruence. reflexivity.
Qed.

Lemma generate_grid_other_files_untouched_witness :
  let w := mkWorld (fun _ => true) [FileOpen "notes.txt"; FileWrite "notes.txt" "abc"] in
  "notes.txt"%string <> "grid.stl"%string /\
  file_text "notes.txt"
    (oplog (snd (generate_grid 10 10 1 1 1 1 1 "grid.stl" w))) ""
  = file_text "notes.txt" (oplog w) "".
Proof.
  intros w.
  assert (Hne : "notes.txt"%string <> "grid.stl"%string) by discriminate.
  split; [ exact Hne | ].
  apply (generate_grid_other_files_untouched 10 10 1 1 1 1 1 "grid.stl" "notes.txt" w "" Hne).
Defined.

(** ** Shape of the written text *)

Lemma count_newlines_lines (ls : list (list ascii)) :
  Forall (fun l => ~ In (ascii_of_nat 10) l) ls ->
  count_occ ascii_dec (List.concat (map add_newline ls)) (ascii_of_nat 10)
  = List.length ls.
Proof.
  induction 1 as [|l ls Hl Hls IH]; [ reflexivity | ].
  cbn [map List.concat List.length]. unfold add_newline at 1.
  rewrite !count_occ_app, IH.
  rewrite (proj1 (count_occ_not_In ascii_dec l (ascii_of_nat 10)) Hl).
  cbn [count_occ]. destruct (ascii_dec (ascii_of_nat 10) (ascii_of_nat 10)); [ | contradiction ].
  reflexivity.
Qed.

Lemma flat_map_facet_bodies_length (ts : list Triangle) :
  List.length (flat_map facet_bodies ts) = (7 * List.length ts)%nat.
Proof.
  induction ts as [|t ts IH]; [ reflexivity | ].
  cbn [flat_map]. rewrite length_app, IH. cbn [facet_bodies List.length]. lia.
Qed.

Lemma stl_text_newlines (solid_name : string) (triangles : list Triangle) :
  no_newline solid_name ->
  count_occ ascii_dec (list_ascii_of_string (stl_text solid_name triangles))
    (ascii_of_nat 10)
  = (7 * List.length triangles + 2)%nat.
Proof.
  intros Hn.
  unfold stl_text. rewrite chars_concat, stl_lines_chars.
  rewrite count_newlines_lines.
  - cbn [List.length]. rewrite length_app, flat_map_facet_bodies_length.
    cbn [List.length]. lia.
  - constructor; [ | apply Forall_app; split;
                     [ apply facet_bodies_no_newline | constructor; [ | constructor ] ] ].
    + intros Hin. apply in_app_or in Hin. destruct Hin as [Hin | Hin];
        [ simpl in Hin; intuition discriminate | exact (Hn Hin) ].
    + intros Hin. apply in_app_or in Hin. destruct Hin as [Hin | Hin];
        [ simpl in Hin; intuition discriminate | exact (Hn Hin) ].
Qed.

Lemma stl_lines_length (solid_name : string) (triangles : list Triangle) :
  List.length (stl_lines solid_name triangles)
  = (7 * List.length triangles + 2)%nat.
Proof.
  unfold stl_lines. cbn [List.length]. rewrite length_app. cbn [List.length].
  assert (H : forall ts, List.length (flat_map facet_lines ts)
                         = (7 * List.length ts)%nat).
  { induction ts as [|t ts IH]; [ reflexivity | ].
    cbn [flat_map]. rewrite length_app, IH. cbn [facet_lines List.length]. lia. }
  rewrite H. lia.
Qed.

Lemma stl_lines_end_in_newline (solid_name : string) (triangles : list Triangle) :
  Forall (fun l => exists body, l = (body ++ nl)%string)
    (stl_lines solid_name triangles).
Proof.
  unfold stl_lines. constructor.
  - exists ("solid " ++ solid_name)%string. now rewrite string_app_assoc.
  - apply Forall_app. split.
    + induction triangles as [|t ts IH]; [ constructor | ].
      cbn [flat_map]. apply Forall_app. split; [ | exact IH ].
      unfold facet_lines, vertex_line.
      repeat (constructor;
              [ eexists; repeat rewrite <- string_app_assoc; reflexivity | ]).
      constructor.
    + constructor; [ | constructor ].
      exists ("endsolid " ++ solid_name)%string. now rewrite string_app_assoc.
Qed.



(** ** The normal lines of the output *)



(** ** The prompts *)

Section Prompts.
Variable strip : string -> string.
Variable float_of_string : string -> option Q.
Variable int_of_string : string -> option Z.
Variable str_float : Q -> string.

Lemma prompt_float_from_rejects (label : string) (default : Q)
  (bad lines out : list string) :
  Forall (fun b => answer strip float_of_string default b = None) bad ->
  prompt_float_from strip float_of_string str_float label default (bad ++ lines) out
  = prompt_float_from strip float_of_string str_float label default lines
      (out ++ rejections (label ++ " [" ++ str_float default ++ "]: ")
                "Invalid number, please try again." bad).
Proof.
  intros Hbad. revert out. induction Hbad as [|b bad Hb Hbad IH]; intros out.
  - cbn [app rejections flat_map]. now rewrite app_nil_r.
  - cbn [app prompt_float_from]. unfold answer in Hb.
    destruct (String.eqb (strip b) ""); [ discriminate Hb | ].
    rewrite Hb, IH. cbn [rejections flat_map]. f_equal.
    rewrite <- !app_assoc. reflexivity.
Qed.

Lemma prompt_int_from_rejects (label : string) (default : Z)
  (bad lines out : list string) :
  Forall (fun b => answer strip int_of_string default b = None) bad ->
  prompt_int_from strip int_of_string label default (bad ++ lines) out
  = prompt_int_from strip int_of_string label default lines
      (out ++ rejections (label ++ " [" ++ str_int default ++ "]: ")
                "Invalid integer, please try again." bad).
Proof.
  intros Hbad. revert out. induction Hbad as [|b bad Hb Hbad IH]; intros out.
  - cbn [app rejections flat_map]. now rewrite app_nil_r.
  - cbn [app prompt_int_from]. unfold answer in Hb.
    destruct (String.eqb (strip b) ""); [ discriminate Hb | ].
    rewrite Hb, IH. cbn [rejections flat_map]. f_equal.
    rewrite <- !app_assoc. reflexivity.
Qed.

(** [prompt_float] asks again for every line that is neither blank nor a
    number, writing the error message each time, and returns what the first
    other line gives: the default for a blank line, else the number read.
    It consumes the lines up to that one and no more.  When the input ends
    first, it raises [EOFError] after a last prompt. *)
Theorem prompt_float_first_answer (label : string) (default : Q)
  (bad : list string) (c : console) (w : world) :
  Forall (fun b => answer strip float_of_string default b = None) bad ->
  let prompt := (label ++ " [" ++ str_float default ++ "]: ")%string in
  let asked := rejections prompt "Invalid number, please try again." bad ++ [prompt] in
  (forall good rest v,
     stdin c = bad ++ good :: rest ->
     answer strip float_of_string default good = Some v ->
     prompt_float strip float_of_string str_float label default c w
     = (inr v, mkConsole rest (stdout c ++ asked), w)) /\
  (stdin c = bad ->
   prompt_float strip float_of_string str_float label default c w
   = (inl EOFError, mkConsole [] (stdout c ++ asked), w)).
Proof.
  intros Hbad prompt asked. unfold prompt_float, on_console. split.
  - intros good rest v Hin Hv. rewrite Hin, prompt_float_from_rejects by exact Hbad.
    cbn [prompt_float_from]. unfold answer in Hv.
    destruct (String.eqb (strip good) "").
    + injection Hv as <-. unfold asked, prompt. now rewrite <- app_assoc.
    + rewrite Hv. unfold asked, prompt. now rewrite <- app_assoc.
  - intros Hin. rewrite Hin. rewrite <- (app_nil_r bad) at 1.
    rewrite prompt_float_from_rejects by exact Hbad.
    cbn [prompt_float_from]. unfold asked, prompt. now rewrite <- app_assoc.
Qed.

(** [prompt_int] behaves likewise on integers: it asks again for every
    line that is neither blank nor an integer, returns the default for the
    first blank line or the integer read from the first line that is one,
    and raises [EOFError] when the input ends first. *)
Theorem prompt_int_first_answer (label : string) (default : Z)
  (bad : list string) (c : console) (w : world) :
  Forall (fun b => answer strip int_of_string default b = None) bad ->
  let prompt := (label ++ " [" ++ str_int default ++ "]: ")%string in
  let asked := rejections prompt "Invalid integer, please try again." bad ++ [prompt] in
  (forall good rest v,
     stdin c = bad ++ good :: rest ->
     answer strip int_of_string default good = Some v ->
     prompt_int strip int_of_string label default c w
     = (inr v, mkConsole rest (stdout c ++ asked), w)) /\
  (stdin c = bad ->
   prompt_int strip int_of_string label default c w
   = (inl EOFError, mkConsole [] (stdout c ++ asked), w)).
Proof.
  intros Hbad prompt asked. unfold prompt_int, on_console. split.
  - intros good rest v Hin Hv. rewrite Hin, prompt_int_from_rejects by exact Hbad.
    cbn [prompt_int_from]. unfold answer in Hv.
    destruct (String.eqb (strip good) "").
    + injection Hv as <-. unfold asked, prompt. now rewrite <- app_assoc.
    + rewrite Hv. unfold asked, prompt. now rewrite <- app_assoc.
  - intros Hin. rewrite Hin. rewrite <- (app_nil_r bad) at 1.
    rewrite prompt_int_from_rejects by exact Hbad.
    cbn [prompt_int_from]. unfold asked, prompt. now rewrite <- app_assoc.
Qed.
End Prompts.

Lemma prompt_float_first_answer_witness :
  let strip := fun s : string => s in
  let float_of_string := fun s => read_number (list_ascii_of_string s) in
  let c := mkConsole ["abc"; "12.5"; "7"]%string [] in
  let w := mkWorld (fun _ => true) [] in
  let bad := ["abc"%string] in
  Forall (fun b => answer strip float_of_string 215.0 b = None) bad /\
  let prompt := ("Outer width in mm" ++ " [" ++ g6 215.0 ++ "]: ")%string in
  let asked := rejections prompt "Invalid number, please try again." bad ++ [prompt] in
  (forall good rest v,
     stdin c = bad ++ good :: rest ->
     answer strip float_of_string 215.0 good = Some v ->
     prompt_float strip float_of_string g6 "Outer width in mm" 215.0 c w
     = (inr v, mkConsole rest (stdout c ++ asked), w)) /\
  (stdin c = bad ->
   prompt_float strip float_of_string g6 "Outer width in mm" 215.0 c w
   = (inl EOFError, mkConsole [] (stdout c ++ asked), w)).
Proof.
  intros strip float_of_string c w bad.
  assert (Hbad : Forall (fun b => answer strip float_of_string 215.0 b = None) bad)
    by (constructor; [ reflexivity | constructor ]).
  split; [ exact Hbad | ].
  apply (prompt_float_first_answer strip float_of_string g6 "Outer width in mm"
           215.0 bad c w Hbad).
Defined.

Lemma prompt_int_first_answer_witness :
  let strip := fun s : string => s in
  let int_of_string := fun s => if String.eqb s "7" then Some 7%Z else None in
  let c := mkConsole ["x"; "7"]%string [] in
  let w := mkWorld (fun _ => true) [] in
  let bad := ["x"%string] in
  Forall (fun b => answer strip int_of_string 5%Z b = None) bad /\
  let prompt := ("Number of columns" ++ " [" ++ str_int 5 ++ "]: ")%string in
  let asked := rejections prompt "Invalid integer, please try again." bad ++ [prompt] in
  (forall good rest v,
     stdin c = bad ++ good :: rest ->
     answer strip int_of_string 5%Z good = Some v ->
     prompt_int strip int_of_string "Number of columns" 5 c w
     = (inr v, mkConsole rest (stdout c ++ asked), w)) /\
  (stdin c = bad ->
   prompt_int strip int_of_string "Number of columns" 5 c w
   = (inl EOFError, mkConsole [] (stdout c ++ asked), w)).
Proof.
  intros strip int_of_string c w bad.
  assert (Hbad : Forall (fun b => answer strip int_of_string 5%Z b = None) bad)
    by (constructor; [ reflexivity | constructor ]).
  split; [ exact Hbad | ].
  apply (prompt_int_first_answer strip int_of_string "Number of columns" 5 bad c w Hbad).
Defined.

(** ** Runs of the program *)

Lemma generate_grid_valid_run ow ol bt wt wh cols rows filename w :
  valid_params ow ol bt wt wh cols rows ->
  openable w filename = true ->
  generate_grid ow ol bt wt wh cols rows filename w
  = (inr tt,
     mkWorld (openable w)
       (oplog w ++ FileOpen filename
          :: map (FileWrite filename)
               (stl_lines ("grid_" ++ str_int cols ++ "x" ++ str_int rows)
                  (flat_map box_triangles (grid_plan ow ol bt wt wh cols rows)))
          ++ [FileClose filename])).
Proof.
  intros Hv Ho. unfold generate_grid. rewrite (grid_mesh_valid _ _ _ _ _ _ _ Hv).
  now rewrite write_ascii_stl_run, Ho.
Qed.

Lemma generate_grid_outcome ow ol bt wt wh cols rows filename w :
  match generate_grid ow ol bt wt wh cols rows filename w with
  | (inl _, w') => w' = w
  | (inr _, w') => wrote_solid w w' filename
  end.
Proof.
  unfold generate_grid.
  destruct (grid_mesh ow ol bt wt wh cols rows) as [e | [solid_name triangles]].
  - reflexivity.
  - rewrite write_ascii_stl_run. destruct (openable w filename); [ | reflexivity ].
    exists solid_name, triangles. reflexivity.
Qed.

Lemma keeps_files_bind {A} (m : Run A) (k : A -> Run unit) :
  keeps_files m ->
  (forall a c w, done_or_untouched w (k a c w)) ->
  forall c w, done_or_untouched w (rbind m k c w).
Proof.
  intros Hm Hk c w. unfold rbind. specialize (Hm c w).
  destruct (m c w) as [[[e | a] c'] w']; cbn [snd] in Hm; subst w'.
  - destruct e as [| | [msg | f]]; exact I || reflexivity.
  - apply Hk.
Qed.

Lemma keeps_files_print (s : string) : keeps_files (print s).
Proof. intros c w. reflexivity. Qed.

Lemma keeps_files_input (s : string) : keeps_files (input s).
Proof. intros c w. unfold input. now destruct (stdin c). Qed.

Lemma keeps_files_on_console {A} (f : console -> (run_exn + A) * console) :
  keeps_files (on_console f).
Proof. intros c w. unfold on_console. now destruct (f c). Qed.

Lemma generate_then_announce (lead : string) ow ol bt wt wh cols rows output c w :
  lead = ""%string \/ lead = nl ->
  done_or_untouched w
    ((on_files (generate_grid ow ol bt wt wh cols rows output) ;;>
      print (lead ++ "Done. Wrote STL to: " ++ output)) c w).
Proof.
  intros Hlead. unfold rbind, on_files.
  pose proof (generate_grid_outcome ow ol bt wt wh cols rows output w) as Hg.
  destruct (generate_grid ow ol bt wt wh cols rows output w) as [[e | []] w'].
  - destruct e as [msg | f]; [ exact Hg | exact I ].
  - cbn [print done_or_untouched]. exists output. split; [ exact Hg | ].
    exists (stdout c), lead. split; [ reflexivity | exact Hlead ].
Qed.

Section MainRuns.
Variable strip : string -> string.
Variable float_of_string : string -> option Q.
Variable int_of_string : string -> option Z.
Variable str_float : Q -> string.
Variable parse_args : list string -> Run Namespace.

(** The argument parser reads the command line and writes to the console;
    it does nothing to the files. *)
Hypothesis parse_args_keeps_files : forall argv, keeps_files (parse_args argv).

End MainRuns.


(** ** Accepting every default *)

Lemma default_mesh_plan :
  default_mesh = flat_map box_triangles (grid_plan 215.0 115.0 2.0 2.0 20.0 5 3).
Proof.
  unfold default_mesh.
  assert (Hv : valid_params 215.0 115.0 2.0 2.0 20.0 5 3) by check_valid_params.
  now rewrite (grid_mesh_valid _ _ _ _ _ _ _ Hv).
Qed.

Section Defaults.
Variable strip : string -> string.
Variable float_of_string : string -> option Q.
Variable int_of_string : string -> option Z.
Variable str_float : Q -> string.
Variable parse_args : list string -> Run Namespace.

Lemma prompt_float_from_blank (label : string) (default : Q)
  (line : string) (rest out : list string) :
  strip line = ""%string ->
  prompt_float_from strip float_of_string str_float label default (line :: rest) out
  = (inr default,
     mkConsole rest (out ++ [(label ++ " [" ++ str_float default ++ "]: ")%string])).
Proof. intros H. cbn [prompt_float_from]. now rewrite H. Qed.

Lemma prompt_int_from_blank (label : string) (default : Z)
  (line : string) (rest out : list string) :
  strip line = ""%string ->
  prompt_int_from strip int_of_string label default (line :: rest) out
  = (inr default,
     mkConsole rest (out ++ [(label ++ " [" ++ str_int default ++ "]: ")%string])).
Proof. intros H. cbn [prompt_int_from]. now rewrite H. Qed.

End Defaults.


(** * The program in double precision: lemmas *)

Module Binary64Facts.
Import Binary64.

(** ** Converted counts are not zero *)


Lemma digits2_pos_size (p : positive) : digits2_pos p = Pos.size p.
Proof. induction p; cbn; congruence. Qed.

Lemma digits2_pos_le (p : positive) : (2 ^ (Zpos (digits2_pos p) - 1) <= Zpos p)%Z.
Proof.
  rewrite digits2_pos_size.
  pose proof (Pos.size_le p) as H.
  assert (E : (2 ^ Zpos (Pos.size p) = 2 * 2 ^ (Zpos (Pos.size p) - 1))%Z).
  { rewrite <- Z.pow_succ_r by lia. f_equal. lia. }
  assert (H' : (2 ^ Zpos (Pos.size p) <= Zpos p~0)%Z).
  { rewrite <- Pos2Z.inj_pow. apply Pos2Z.pos_le_pos. exact H. }
  rewrite E in H'. rewrite Pos2Z.inj_xO in H'. lia.
Qed.

Lemma shr_1_m (r : shr_record) :
  (0 <= shr_m r)%Z -> shr_m (shr_1 r) = (shr_m r / 2)%Z.
Proof.
  destruct r as [m r s]. cbn [shr_m]. intros H.
  destruct m as [|p|p]; [reflexivity| |lia].
  destruct p as [p|p|]; cbn [shr_1 shr_m].
  - rewrite Pos2Z.inj_xI. apply Z.div_unique with (r := 1%Z); lia.
  - rewrite Pos2Z.inj_xO. apply Z.div_unique with (r := 0%Z); lia.
  - reflexivity.
Qed.

Lemma iter_shr_1_m (n : positive) : forall r,
  (0 <= shr_m r)%Z -> shr_m (iter_pos shr_1 n r) = (shr_m r / 2 ^ Zpos n)%Z.
Proof.
  assert (step : forall r, (0 <= shr_m r)%Z -> (0 <= shr_m (shr_1 r))%Z).
  { intros r H. rewrite shr_1_m by exact H. apply Z.div_pos; lia. }
  assert (P : forall k, (0 < 2 ^ Zpos k)%Z).
  { intros k. apply Z.pow_pos_nonneg; lia. }
  induction n as [n IH|n IH|]; intros r H; cbn [iter_pos].
  - assert (H1 := step r H).
    assert (H2 : (0 <= shr_m (iter_pos shr_1 n (shr_1 r)))%Z).
    { rewrite IH by exact H1. apply Z.div_pos; [exact H1|]. apply Z.pow_pos_nonneg; lia. }
    rewrite IH by exact H2. rewrite IH by exact H1. rewrite shr_1_m by exact H.
    assert (E : (2 ^ Zpos n~1 = 2 * 2 ^ Zpos n * 2 ^ Zpos n)%Z).
    { replace (Zpos n~1) with (1 + Zpos n + Zpos n)%Z by lia.
      rewrite !Z.pow_add_r by lia. reflexivity. }
    rewrite E. rewrite !Z.div_div by (pose proof (P n); lia).
    f_equal. ring.
  - assert (H2 : (0 <= shr_m (iter_pos shr_1 n r))%Z).
    { rewrite IH by exact H. apply Z.div_pos; [exact H|]. apply Z.pow_pos_nonneg; lia. }
    rewrite IH by exact H2. rewrite IH by exact H.
    assert (E : (2 ^ Zpos n~0 = 2 ^ Zpos n * 2 ^ Zpos n)%Z).
    { replace (Zpos n~0) with (Zpos n + Zpos n)%Z by lia.
      rewrite Z.pow_add_r by lia. reflexivity. }
    rewrite E. rewrite Z.div_div by (pose proof (P n); lia). reflexivity.
  - rewrite shr_1_m by exact H. reflexivity.
Qed.

(** Rounding a positive mantissa whose exponent is in range never gives
    a zero. *)
Lemma shr_fexp_positive (m : positive) (e : Z) (l : location) :
  (emin prec emax <= e)%Z ->
  let '(mrs, e') := shr_fexp prec emax (Zpos m) e l in
  (0 < shr_m mrs)%Z /\ (emin prec emax <= e')%Z.
Proof.
  intros He. unfold shr_fexp, shr.
  set (n := (fexp prec emax (Zdigits2 (Zpos m) + e) - e)%Z).
  assert (Hm : shr_m (shr_record_of_loc (Zpos m) l) = Zpos m).
  { destruct l as [|[| |]]; reflexivity. }
  destruct n as [|np|np] eqn:En.
  - rewrite Hm. split; lia.
  - rewrite iter_shr_1_m by (rewrite Hm; lia). rewrite Hm.
    assert (Hn : (Zpos np = Zpos (digits2_pos m) - 53)%Z).
    { subst n. unfold fexp, emin, prec, emax in *. cbn [Zdigits2] in En. lia. }
    split; [|lia].
    apply Z.div_str_pos. split; [apply Z.pow_pos_nonneg; lia|].
    pose proof (digits2_pos_le m) as Hd.
    apply Z.le_trans with (2 := Hd).
    apply Z.pow_le_mono_r; lia.
  - rewrite Hm. split; lia.
Qed.

Lemma round_nearest_even_ge (m : Z) (l : location) :
  (m <= round_nearest_even m l)%Z.
Proof.
  destruct l as [|[| |]]; cbn; try lia.
  destruct (Z.even m); lia.
Qed.

Lemma binary_round_aux_nonzero (s : bool) (m : positive) (e : Z) (l : location) :
  (emin prec emax <= e)%Z ->
  SFeqb (binary_round_aux prec emax s (Zpos m) e l) (S754_zero false) = false.
Proof.
  intros He. unfold binary_round_aux.
  pose proof (shr_fexp_positive m e l He) as H1.
  destruct (shr_fexp prec emax (Zpos m) e l) as [mrs' e'].
  destruct H1 as [Hm1 He1].
  pose proof (round_nearest_even_ge (shr_m mrs') (loc_of_shr_record mrs')) as Hr.
  destruct (round_nearest_even (shr_m mrs') (loc_of_shr_record mrs')) as [|m2|m2];
    try lia.
  pose proof (shr_fexp_positive m2 e' loc_Exact He1) as H2.
  destruct (shr_fexp prec emax (Zpos m2) e' loc_Exact) as [mrs'' e''].
  destruct H2 as [Hm2 _].
  destruct (shr_m mrs'') as [|m3|m3]; try lia.
  destruct (e'' <=? emax - prec)%Z; destruct s; reflexivity.
Qed.

Lemma of_Z_nonzero (n : Z) :
  n <> 0%Z -> SFeqb (of_Z n) (S754_zero false) = false.
Proof.
  intros Hn. unfold of_Z, binary_normalize.
  assert (R : forall s p, SFeqb (binary_round prec emax s p 0) (S754_zero false) = false).
  { intros s p. unfold binary_round.
    destruct (shl_align p 0 (fexp prec emax (Zpos (digits2_pos p) + 0))) as [mz ez] eqn:E.
    apply binary_round_aux_nonzero.
    unfold shl_align in E.
    destruct (fexp prec emax (Zpos (digits2_pos p) + 0) - 0)%Z eqn:D;
      inversion E; subst; unfold fexp, emin, prec, emax in *; lia. }
  destruct n as [|p|p]; [congruence| |]; apply R.
Qed.

(** The conversion of an [int] fails with [OverflowError] only. *)
Lemma float_of_int_error (n : Z) (e : exn) :
  float_of_int n = inl e -> e = OverflowError.
Proof.
  unfold float_of_int. destruct (of_Z n); congruence.
Qed.

Lemma float_of_int_nonzero (n : Z) (y : float) :
  float_of_int n = inr y -> n <> 0%Z -> SFeqb y (S754_zero false) = false.
Proof.
  intros H Hn. pose proof (of_Z_nonzero n Hn) as Hz.
  unfold float_of_int in H. destruct (of_Z n); inversion H; subst; exact Hz.
Qed.

(** ** The box builder in double precision *)

Lemma add_box_double_app (ts : list Triangle) (x0 y0 z0 x1 y1 z1 : float) :
  add_box ts x0 y0 z0 x1 y1 z1 = ts ++ add_box [] x0 y0 z0 x1 y1 z1.
Proof.
  unfold add_box, face.
  destruct (fltb x1 x0), (fltb y1 y0), (fltb z1 z0);
    repeat (rewrite <- app_assoc; cbn [app]); reflexivity.
Qed.

Lemma add_box_double_length (ts : list Triangle) (x0 y0 z0 x1 y1 z1 : float) :
  List.length (add_box ts x0 y0 z0 x1 y1 z1) = (List.length ts + 12)%nat.
Proof.
  rewrite add_box_double_app, length_app. f_equal.
  unfold add_box, face.
  destruct (fltb x1 x0), (fltb y1 y0), (fltb z1 z0); reflexivity.
Qed.

(** ** The loops of the planner in double precision *)

Section Loops64.
Variable count : Z.
Variable step : float * list Triangle -> Z -> float * list Triangle.

Hypothesis step_length : forall x ts i,
  List.length (snd (step (x, ts) i))
  = (List.length ts + (if (i <? count - 1)%Z then 12 else 0))%nat.

Lemma loop_length (k : nat) : forall (a : nat) x ts,
  Z.of_nat (a + k) = count ->
  List.length (snd (fold_left step (map Z.of_nat (seq a k)) (x, ts)))
  = (List.length ts + 12 * Nat.pred k)%nat.
Proof.
  induction k as [|k IH]; intros a x ts Hc.
  - cbn. lia.
  - cbn [seq map fold_left].
    pose proof (step_length x ts (Z.of_nat a)) as Hs.
    destruct (step (x, ts) (Z.of_nat a)) as [x' ts'] eqn:E. cbn [snd] in Hs.
    rewrite IH by lia. rewrite Hs.
    destruct (Z.ltb_spec (Z.of_nat a) (count - 1)); destruct k; cbn [Nat.pred]; lia.
Qed.

Lemma range_loop_length (x : float) (ts : list Triangle) :
  (1 <= count)%Z ->
  Z.of_nat (List.length (snd (fold_left step (range count) (x, ts))))
  = (Z.of_nat (List.length ts) + 12 * (count - 1))%Z.
Proof.
  intros Hc. unfold range.
  rewrite loop_length by (cbn; lia).
  destruct (Z.to_nat count) eqn:E; [lia|]. cbn [Nat.pred]. lia.
Qed.

End Loops64.

Lemma vertical_step_length cw wt bt ol th cols x ts i :
  List.length (snd (vertical_step cw wt bt ol th cols (x, ts) i))
  = (List.length ts + (if (i <? cols - 1)%Z then 12 else 0))%nat.
Proof.
  unfold vertical_step. destruct (i <? cols - 1)%Z; cbn [snd].
  - apply add_box_double_length.
  - lia.
Qed.

Lemma horizontal_step_length cl wt bt ow th rows y ts i :
  List.length (snd (horizontal_step cl wt bt ow th rows (y, ts) i))
  = (List.length ts + (if (i <? rows - 1)%Z then 12 else 0))%nat.
Proof.
  unfold horizontal_step. destruct (i <? rows - 1)%Z; cbn [snd].
  - apply add_box_double_length.
  - lia.
Qed.

(** ** The checks of the planner in double precision *)

Lemma not_nonpositive (x : float) : ~ nonpositive x <-> fleb x (of_Z 0) = false.
Proof. unfold nonpositive. destruct (fleb x (of_Z 0)); split; congruence. Qed.

Lemma nonpositive_dec (x : float) : nonpositive x \/ ~ nonpositive x.
Proof. unfold nonpositive. destruct (fleb x (of_Z 0)); [left|right]; congruence. Qed.

Lemma int_mul_float_spec (n : Z) (x : float) :
  int_mul_float n x
  = match float_of_int n with
    | inl _ => inl OverflowError
    | inr y => inr (fmul y x)
    end.
Proof.
  unfold int_mul_float, andthen.
  destruct (float_of_int n) as [e|y] eqn:E; [|reflexivity].
  now rewrite (float_of_int_error n e E).
Qed.

(** The division by a count never meets a zero divisor. *)
Lemma float_div_int_spec (x : float) (n : Z) :
  (1 <= n)%Z ->
  float_div_int x n
  = match float_of_int n with
    | inl _ => inl OverflowError
    | inr y => inr (SFdiv prec emax x y)
    end.
Proof.
  intros Hn. unfold float_div_int, andthen.
  destruct (float_of_int n) as [e|y] eqn:E.
  - now rewrite (float_of_int_error n e E).
  - rewrite (float_of_int_nonzero n y E) by lia. reflexivity.
Qed.

(** The outcome of lines 107-198, check by check. *)
Lemma grid_mesh_double_outcome (ow ol bt wt wh : float) (cols rows : Z) :
  let r := grid_mesh ow ol bt wt wh cols rows in
  (~ counts_ok cols rows /\
   r = inl (ValueError "cols and rows must be >= 1")) \/
  (counts_ok cols rows /\ ~ thickness_ok wt bt wh /\
   r = inl (ValueError "Thicknesses and heights must be > 0")) \/
  (counts_ok cols rows /\ thickness_ok wt bt wh /\ ~ inner_ok ow ol wt /\
   r = inl (ValueError "Outer size is too small for the chosen wall thickness.")) \/
  (counts_ok cols rows /\ thickness_ok wt bt wh /\ inner_ok ow ol wt /\
   cell_sizes ow ol wt cols rows = None /\
   r = inl OverflowError) \/
  (counts_ok cols rows /\ thickness_ok wt bt wh /\ inner_ok ow ol wt /\
   (exists cw cl, cell_sizes ow ol wt cols rows = Some (cw, cl) /\
                  (nonpositive cw \/ nonpositive cl)) /\
   r = inl (ValueError
              "Outer size too small for the chosen wall thickness and grid count.")) \/
  (counts_ok cols rows /\ thickness_ok wt bt wh /\ inner_ok ow ol wt /\
   (exists cw cl, cell_sizes ow ol wt cols rows = Some (cw, cl) /\
                  ~ nonpositive cw /\ ~ nonpositive cl) /\
   exists mesh,
     r = inr (("grid_" ++ str_int cols ++ "x" ++ str_int rows)%string, mesh) /\
     Z.of_nat (List.length mesh) = (12 * (5 + (cols - 1) + (rows - 1)))%Z).
Proof.
  intros r. subst r. unfold grid_mesh.
  destruct (Z.ltb_spec cols 1) as [Hc|Hc]; cbn [orb].
  { left. split; [unfold counts_ok; lia | reflexivity]. }
  destruct (Z.ltb_spec rows 1) as [Hr|Hr].
  { left. split; [unfold counts_ok; lia | reflexivity]. }
  right.
  assert (Hcounts : counts_ok cols rows) by (unfold counts_ok; lia).
  destruct (fleb wt (of_Z 0)) eqn:Ewt; cbn [orb].
  { left. split; [exact Hcounts|]. split; [|reflexivity].
    unfold thickness_ok, nonpositive. intros [H _]. congruence. }
  destruct (fleb bt (of_Z 0)) eqn:Ebt; cbn [orb].
  { left. split; [exact Hcounts|]. split; [|reflexivity].
    unfold thickness_ok, nonpositive. intros (_ & H & _). congruence. }
  destruct (fleb wh (of_Z 0)) eqn:Ewh.
  { left. split; [exact Hcounts|]. split; [|reflexivity].
    unfold thickness_ok, nonpositive. intros (_ & _ & H). congruence. }
  right.
  assert (Hthick : thickness_ok wt bt wh).
  { unfold thickness_ok, nonpositive. repeat split; congruence. }
  fold (inner_dim ow wt). fold (inner_dim ol wt).
  destruct (fleb (inner_dim ow wt) (of_Z 0)) eqn:Eiw; cbn [orb].
  { left. split; [exact Hcounts|]. split; [exact Hthick|]. split; [|reflexivity].
    unfold inner_ok, nonpositive. intros [H _]. congruence. }
  destruct (fleb (inner_dim ol wt) (of_Z 0)) eqn:Eil.
  { left. split; [exact Hcounts|]. split; [exact Hthick|]. split; [|reflexivity].
    unfold inner_ok, nonpositive. intros [_ H]. congruence. }
  right.
  assert (Hinner : inner_ok ow ol wt).
  { unfold inner_ok, nonpositive. split; congruence. }
  unfold cell_sizes, cell_size.
  rewrite int_mul_float_spec.
  destruct (float_of_int (cols - 1)) as [e1|a] eqn:E1; cbn [andthen].
  { left. now repeat (split; [assumption|]). }
  rewrite int_mul_float_spec.
  destruct (float_of_int (rows - 1)) as [e2|b] eqn:E2; cbn [andthen].
  { left. repeat (split; [assumption|]).
    split; [|reflexivity]. destruct (float_of_int cols); reflexivity. }
  rewrite float_div_int_spec by lia.
  destruct (float_of_int cols) as [e3|c] eqn:E3; cbn [andthen].
  { left. now repeat (split; [assumption|]). }
  rewrite float_div_int_spec by lia.
  destruct (float_of_int rows) as [e4|d] eqn:E4; cbn [andthen].
  { left. now repeat (split; [assumption|]). }
  right.
  set (cw := SFdiv prec emax (fsub (inner_dim ow wt) (fmul a wt)) c).
  set (cl := SFdiv prec emax (fsub (inner_dim ol wt) (fmul b wt)) d).
  destruct (fleb cw (of_Z 0)) eqn:Ecw; cbn [orb].
  { left. repeat (split; [assumption|]). split; [|reflexivity].
    exists cw, cl. split; [reflexivity|]. left. exact Ecw. }
  destruct (fleb cl (of_Z 0)) eqn:Ecl.
  { left. repeat (split; [assumption|]). split; [|reflexivity].
    exists cw, cl. split; [reflexivity|]. right. exact Ecl. }
  right. repeat (split; [assumption|]).
  split.
  { exists cw, cl. unfold nonpositive.
    split; [reflexivity|]. split; congruence. }
  cbv zeta.
  match goal with
  | |- context [fold_left (vertical_step ?p1 ?p2 ?p3 ?p4 ?p5 ?p6) (range cols) (?x, ?ts)] =>
      pose proof (range_loop_length cols (vertical_step p1 p2 p3 p4 p5 p6)
                    (vertical_step_length p1 p2 p3 p4 p5 p6) x ts Hc) as L1;
      destruct (fold_left (vertical_step p1 p2 p3 p4 p5 p6) (range cols) (x, ts))
        as [x' ts1]
  end.
  match goal with
  | |- context [fold_left (horizontal_step ?p1 ?p2 ?p3 ?p4 ?p5 ?p6) (range rows) (?y, ?ts)] =>
      pose proof (range_loop_length rows (horizontal_step p1 p2 p3 p4 p5 p6)
                    (horizontal_step_length p1 p2 p3 p4 p5 p6) y ts Hr) as L2;
      destruct (fold_left (horizontal_step p1 p2 p3 p4 p5 p6) (range rows) (y, ts))
        as [y' ts2]
  end.
  exists ts2. split; [reflexivity|].
  cbn [snd] in L1, L2. rewrite L2, L1.
  rewrite !add_box_double_length. cbn [List.length]. lia.
Qed.

(** ** The serializer on a device that may fail *)

Lemma bind_assoc {A B C} (c : IO A) (k : A -> IO B) (h : B -> IO C) (w : world) :
  bind (bind c k) h w = bind c (fun a => bind (k a) h) w.
Proof.
  unfold bind. destruct (c w) as [[e|a] w']; reflexivity.
Qed.

Lemma bind_ext {A B} (c : IO A) (k k' : A -> IO B) (w : world) :
  (forall a w', k a w' = k' a w') -> bind c k w = bind c k' w.
Proof.
  intros H. unfold bind. destruct (c w) as [[e|a] w']; [reflexivity | apply H].
Qed.

Lemma bind_cong {A B} (c c' : IO A) (k k' : A -> IO B) (w : world) :
  c w = c' w -> (forall a w', k a w' = k' a w') -> bind c k w = bind c' k' w.
Proof.
  intros Hc H. unfold bind. rewrite Hc.
  destruct (c' w) as [[e|a] w']; [reflexivity | apply H].
Qed.

Lemma for_each_app {A} (xs ys : list A) (body : A -> IO unit) (w : world) :
  for_each (xs ++ ys) body w
  = bind (for_each xs body) (fun _ => for_each ys body) w.
Proof.
  revert w. induction xs as [|x xs IH]; intros w; cbn [app for_each].
  - reflexivity.
  - rewrite bind_assoc. apply bind_ext. intros _ w'. apply IH.
Qed.

(** The loop over the triangles makes the writes of their lines. *)
Lemma for_each_facet_lines (f : string) (ts : list Triangle) (w : world) :
  for_each ts (fun '(normal, v1, v2, v3) =>
    let '(nx, ny, nz) := normal in
    bind (f_write f ("  facet normal " ++ g6 nx ++ " " ++ g6 ny ++ " " ++ g6 nz ++ nl))
      (fun _ =>
    bind (f_write f ("    outer loop" ++ nl)) (fun _ =>
    bind (f_write f ("      vertex " ++ g6 (c0 v1) ++ " " ++ g6 (c1 v1) ++ " " ++ g6 (c2 v1) ++ nl))
      (fun _ =>
    bind (f_write f ("      vertex " ++ g6 (c0 v2) ++ " " ++ g6 (c1 v2) ++ " " ++ g6 (c2 v2) ++ nl))
      (fun _ =>
    bind (f_write f ("      vertex " ++ g6 (c0 v3) ++ " " ++ g6 (c1 v3) ++ " " ++ g6 (c2 v3) ++ nl))
      (fun _ =>
    bind (f_write f ("    endloop" ++ nl)) (fun _ =>
    f_write f ("  endfacet" ++ nl)))))))) w
  = for_each (flat_map facet_lines ts) (f_write f) w.
Proof.
  revert w. induction ts as [|t ts IH]; intros w; [reflexivity|].
  destruct t as [[[[[nx ny] nz] v1] v2] v3].
  cbn [for_each flat_map]. rewrite for_each_app.
  unfold facet_lines, vertex_line. cbn [for_each].
  rewrite !bind_assoc.
  repeat (apply bind_ext; intros _ ?; rewrite ?bind_assoc).
  rewrite IH. reflexivity.
Qed.

(** A run of writes on a device that does not fail. *)
Lemma write_lines_ok (f : string) (lines : list string) : forall (w : world),
  (forall k, (k < List.length lines)%nat ->
     faulty w (oplog w ++ map (FileWrite f) (firstn k lines)) = false) ->
  for_each lines (f_write f) w
  = (inr tt, mkWorld (openable w) (faulty w) (oplog w ++ map (FileWrite f) lines)).
Proof.
  induction lines as [|l lines IH]; intros w H; cbn [for_each map].
  - unfold ret. rewrite List.app_nil_r. now destruct w.
  - unfold bind, f_write at 1.
    pose proof (H 0%nat ltac:(cbn; lia)) as H0. cbn [firstn map] in H0.
    rewrite List.app_nil_r in H0. rewrite H0. unfold emit.
    rewrite IH.
    + cbn [openable faulty oplog]. rewrite <- app_assoc. reflexivity.
    + intros k Hk. cbn [openable faulty oplog]. rewrite <- app_assoc.
      apply (H (S k)). cbn [List.length]. lia.
Qed.

(** A run of writes that the device stops at line [k]. *)
Lemma write_lines_fail (f : string) (lines : list string) : forall (k : nat) (w : world),
  (k < List.length lines)%nat ->
  faulty w (oplog w ++ map (FileWrite f) (firstn k lines)) = true ->
  (forall j, (j < k)%nat ->
     faulty w (oplog w ++ map (FileWrite f) (firstn j lines)) = false) ->
  for_each lines (f_write f) w
  = (inl (OSError f),
     mkWorld (openable w) (faulty w) (oplog w ++ map (FileWrite f) (firstn k lines))).
Proof.
  induction lines as [|l lines IH]; intros k w Hk Hf Hb; cbn [List.length] in Hk; [lia|].
  cbn [for_each]. unfold bind, f_write at 1.
  destruct k as [|k].
  - cbn [firstn map] in Hf |- *. rewrite List.app_nil_r in Hf |- *. rewrite Hf.
    now destruct w.
  - pose proof (Hb 0%nat ltac:(lia)) as H0. cbn [firstn map] in H0.
    rewrite List.app_nil_r in H0. rewrite H0. unfold emit.
    rewrite (IH k).
    + cbn [openable faulty oplog firstn map]. rewrite <- app_assoc. reflexivity.
    + lia.
    + cbn [openable faulty oplog]. rewrite <- app_assoc. exact Hf.
    + intros j Hj. cbn [openable faulty oplog]. rewrite <- app_assoc.
      apply (Hb (S j)). lia.
Qed.

Lemma first_true (p : nat -> bool) (n : nat) :
  (forall k, (k <= n)%nat -> p k = false) \/
  exists k, (k <= n)%nat /\ p k = true /\ forall j, (j < k)%nat -> p j = false.
Proof.
  induction n as [|n IH].
  - destruct (p 0%nat) eqn:E.
    + right. exists 0%nat. repeat split; [lia | exact E | intros j Hj; lia].
    + left. intros k Hk. replace k with 0%nat by lia. exact E.
  - destruct IH as [IH | (k & Hk & Hf & Hb)].
    + destruct (p (S n)) eqn:E.
      * right. exists (S n). repeat split; [lia | exact E |].
        intros j Hj. apply IH. lia.
      * left. intros k Hk.
        destruct (Nat.eq_dec k (S n)) as [->|Hne]; [exact E | apply IH; lia].
    + right. exists k. repeat split; [lia | exact Hf | exact Hb].
Qed.

(** The device fails at a first operation or at none. *)
Lemma fault_free_or_fails (w : world) (filename : string) (lines : list string) :
  fault_free w filename lines \/ exists k, fails_at w filename lines k.
Proof.
  exact (first_true (fun k => faulty w (after_writes w filename lines k))
           (List.length lines)).
Qed.

Lemma fault_free_not_fails (w : world) (filename : string) (lines : list string) (k : nat) :
  fault_free w filename lines -> fails_at w filename lines k -> False.
Proof.
  intros H (Hk & Hf & _). rewrite (H k Hk) in Hf. discriminate.
Qed.

Lemma fails_at_unique (w : world) (filename : string) (lines : list string) (j k : nat) :
  fails_at w filename lines j -> fails_at w filename lines k -> j = k.
Proof.
  intros (Hj & Hfj & Hbj) (Hk & Hfk & Hbk).
  destruct (Nat.lt_trichotomy j k) as [H|[H|H]]; [|exact H|].
  - rewrite (Hbk j H) in Hfj. discriminate.
  - rewrite (Hbj k H) in Hfk. discriminate.
Qed.

(** The serializer makes the writes of the lines of the solid. *)
Lemma write_ascii_stl_as_lines (filename solid_name : string) (ts : list Triangle)
  (w : world) :
  write_ascii_stl filename solid_name ts w
  = with_open filename
      (fun f => for_each (stl_lines solid_name ts) (f_write f)) w.
Proof.
  unfold write_ascii_stl, with_open. apply bind_ext. intros f w'.
  assert (E : forall w0,
    bind (f_write f ("solid " ++ solid_name ++ nl))
      (fun _ => bind
         (for_each ts (fun '(normal, v1, v2, v3) =>
            let '(nx, ny, nz) := normal in
            bind (f_write f ("  facet normal " ++ g6 nx ++ " " ++ g6 ny ++ " " ++ g6 nz ++ nl))
              (fun _ =>
            bind (f_write f ("    outer loop" ++ nl)) (fun _ =>
            bind (f_write f ("      vertex " ++ g6 (c0 v1) ++ " " ++ g6 (c1 v1) ++ " " ++ g6 (c2 v1) ++ nl))
              (fun _ =>
            bind (f_write f ("      vertex " ++ g6 (c0 v2) ++ " " ++ g6 (c1 v2) ++ " " ++ g6 (c2 v2) ++ nl))
              (fun _ =>
            bind (f_write f ("      vertex " ++ g6 (c0 v3) ++ " " ++ g6 (c1 v3) ++ " " ++ g6 (c2 v3) ++ nl))
              (fun _ =>
            bind (f_write f ("    endloop" ++ nl)) (fun _ =>
            f_write f ("  endfacet" ++ nl)))))))))
         (fun _ => f_write f ("endsolid " ++ solid_name ++ nl))) w0
    = for_each (stl_lines solid_name ts) (f_write f) w0).
  { intros w0. unfold stl_lines. cbn [app for_each].
    apply bind_ext. intros _ w1. rewrite for_each_app.
    apply bind_cong; [apply for_each_facet_lines|].
    intros _ w2. cbn [for_each]. unfold bind, ret.
    destruct (f_write f ("endsolid " ++ solid_name ++ nl) w2) as [[e|[]] w3];
      reflexivity. }
  rewrite E. reflexivity.
Qed.

(** The four outcomes of the serializer. *)
Lemma write_ascii_stl_outcome (filename solid_name : string) (ts : list Triangle)
  (w : world) :
  let lines := stl_lines solid_name ts in
  let r := write_ascii_stl filename solid_name ts w in
  (has_nul filename = true /\
   r = (inl (ValueError "embedded null byte"), w)) \/
  (has_nul filename = false /\ openable w filename = false /\
   r = (inl (OSError filename), w)) \/
  (has_nul filename = false /\ openable w filename = true /\
   fault_free w filename lines /\
   r = (inr tt,
        mkWorld (openable w) (faulty w)
          (after_writes w filename lines (List.length lines) ++ [FileClose filename]))) \/
  (has_nul filename = false /\ openable w filename = true /\
   exists k, fails_at w filename lines k /\
   r = (inl (OSError filename),
        mkWorld (openable w) (faulty w)
          (after_writes w filename lines k ++ [FileClose filename]))).
Proof.
  intros lines r. subst r. rewrite write_ascii_stl_as_lines. fold lines.
  unfold with_open, bind, open_w.
  destruct (has_nul filename) eqn:Hn; [left; split; reflexivity|].
  right.
  destruct (openable w filename) eqn:Ho; [|left; repeat split; reflexivity].
  right.
  assert (L : forall k,
    (oplog w ++ [FileOpen filename]) ++ map (FileWrite filename) (firstn k lines)
    = after_writes w filename lines k).
  { intros k. unfold after_writes. now rewrite <- app_assoc. }
  pose proof (L (List.length lines)) as Ln. rewrite firstn_all in Ln.
  destruct (fault_free_or_fails w filename lines) as [Hff | (k & Hfail)].
  - left. repeat split; try reflexivity; [exact Hff|].
    rewrite write_lines_ok.
    + unfold f_close. cbn [openable faulty oplog].
      rewrite Ln. rewrite (Hff (List.length lines)) by lia.
      unfold emit. cbn [openable faulty oplog]. reflexivity.
    + intros k Hk. cbn [openable faulty oplog]. rewrite L. apply Hff. lia.
  - right. repeat split; try reflexivity. exists k. split; [exact Hfail|].
    destruct Hfail as (Hk & Hf & Hb).
    destruct (Nat.eq_dec k (List.length lines)) as [->|Hne].
    + rewrite write_lines_ok.
      * unfold f_close. cbn [openable faulty oplog].
        rewrite Ln. rewrite Hf. reflexivity.
      * intros j Hj. cbn [openable faulty oplog]. rewrite L. apply Hb. exact Hj.
    + rewrite (write_lines_fail filename lines k).
      * cbn [openable faulty oplog]. rewrite L. reflexivity.
      * lia.
      * cbn [openable faulty oplog]. rewrite L. exact Hf.
      * intros j Hj. cbn [openable faulty oplog]. rewrite L. apply Hb. exact Hj.
Qed.

(** ** The three kinds of parameters *)

Lemma grid_mesh_double_cases (ow ol bt wt wh : float) (cols rows : Z) :
  (invalid_params ow ol bt wt wh cols rows /\
   exists msg, In msg validation_messages /\
     grid_mesh ow ol bt wt wh cols rows = inl (ValueError msg)) \/
  (unconvertible_params ow ol bt wt wh cols rows /\
   grid_mesh ow ol bt wt wh cols rows = inl OverflowError) \/
  (valid_params ow ol bt wt wh cols rows /\
   exists mesh,
     grid_mesh ow ol bt wt wh cols rows
     = inr (("grid_" ++ str_int cols ++ "x" ++ str_int rows)%string, mesh) /\
     Z.of_nat (List.length mesh) = (12 * (5 + (cols - 1) + (rows - 1)))%Z).
Proof.
  pose proof (grid_mesh_double_outcome ow ol bt wt wh cols rows) as O.
  cbv zeta in O. unfold invalid_params, unconvertible_params, valid_params.
  destruct O as [(H1 & R) | [(H1 & H2 & R) | [(H1 & H2 & H3 & R) |
                [(H1 & H2 & H3 & H4 & R) | [(H1 & H2 & H3 & H4 & R) |
                 (H1 & H2 & H3 & H4 & R)]]]]].
  - left. split.
    + unfold counts_ok in H1. lia.
    + eexists. split; [|exact R]. cbn. tauto.
  - left. split.
    + unfold thickness_ok in H2.
      destruct (nonpositive_dec wt), (nonpositive_dec bt), (nonpositive_dec wh); tauto.
    + eexists. split; [|exact R]. cbn. tauto.
  - left. split.
    + unfold inner_ok in H3.
      destruct (nonpositive_dec (inner_dim ow wt)), (nonpositive_dec (inner_dim ol wt)); tauto.
    + eexists. split; [|exact R]. cbn. tauto.
  - right. left. tauto.
  - left. split.
    + do 7 right. exact H4.
    + eexists. split; [|exact R]. cbn. tauto.
  - right. right. tauto.
Qed.

Lemma invalid_not_valid (ow ol bt wt wh : float) (cols rows : Z) :
  invalid_params ow ol bt wt wh cols rows ->
  valid_params ow ol bt wt wh cols rows -> False.
Proof.
  unfold invalid_params, valid_params, counts_ok, thickness_ok, inner_ok.
  intros I ((Hc & Hr) & (T1 & T2 & T3) & (I1 & I2) & cw & cl & E & N1 & N2).
  destruct I as [I|[I|[I|[I|[I|[I|[I|(cw' & cl' & E' & I)]]]]]]]; try tauto; try lia.
  rewrite E in E'. inversion E'; subst. tauto.
Qed.

Lemma invalid_not_unconvertible (ow ol bt wt wh : float) (cols rows : Z) :
  invalid_params ow ol bt wt wh cols rows ->
  unconvertible_params ow ol bt wt wh cols rows -> False.
Proof.
  unfold invalid_params, unconvertible_params, counts_ok, thickness_ok, inner_ok.
  intros I ((Hc & Hr) & (T1 & T2 & T3) & (I1 & I2) & E).
  destruct I as [I|[I|[I|[I|[I|[I|[I|(cw' & cl' & E' & I)]]]]]]]; try tauto; try lia.
  congruence.
Qed.

Lemma unconvertible_not_valid (ow ol bt wt wh : float) (cols rows : Z) :
  unconvertible_params ow ol bt wt wh cols rows ->
  valid_params ow ol bt wt wh cols rows -> False.
Proof.
  unfold unconvertible_params, valid_params.
  intros (_ & _ & _ & E) (_ & _ & _ & cw & cl & E' & _). congruence.
Qed.

(** A message of the parameter checks is not the message of [open]. *)
Lemma validation_message_not_nul (msg : string) :
  In msg validation_messages -> msg <> "embedded null byte"%string.
Proof.
  cbn. intros [<-|[<-|[<-|[<-|[]]]]]; discriminate.
Qed.

Lemma generate_grid_raises (ow ol bt wt wh : float) (cols rows : Z)
  (filename : string) (w : world) (e : exn) :
  grid_mesh ow ol bt wt wh cols rows = inl e ->
  generate_grid ow ol bt wt wh cols rows filename w = (inl e, w).
Proof. intros H. unfold generate_grid. rewrite H. reflexivity. Qed.

Lemma generate_grid_serializes (ow ol bt wt wh : float) (cols rows : Z)
  (filename : string) (w : world) (solid_name : string) (mesh : list Triangle) :
  grid_mesh ow ol bt wt wh cols rows = inr (solid_name, mesh) ->
  generate_grid ow ol bt wt wh cols rows filename w
  = write_ascii_stl filename solid_name mesh w.
Proof. intros H. unfold generate_grid. rewrite H. reflexivity. Qed.

(** The serializer raises the error of [open] or an [OSError]. *)
Lemma write_ascii_stl_errors (filename solid_name : string) (ts : list Triangle)
  (w : world) (e : exn) :
  fst (write_ascii_stl filename solid_name ts w) = inl e ->
  (e = ValueError "embedded null byte" /\ has_nul filename = true) \/
  (e = OSError filename /\ has_nul filename = false).
Proof.
  pose proof (write_ascii_stl_outcome filename solid_name ts w) as O.
  cbv zeta in O.
  destruct O as [(Hn & R) | [(Hn & Ho & R) | [(Hn & Ho & Hff & R) |
                 (Hn & Ho & k & Hk & R)]]]; rewrite R; cbn [fst]; intros H;
    inversion H; subst; tauto.
Qed.

Lemma counts_ok_iff (cols rows : Z) :
  counts_ok cols rows <-> ~ (cols < 1 \/ rows < 1)%Z.
Proof. unfold counts_ok. lia. Qed.

Lemma counts_bad_iff (cols rows : Z) :
  ~ counts_ok cols rows <-> (cols < 1 \/ rows < 1)%Z.
Proof. unfold counts_ok. lia. Qed.

Lemma thickness_ok_iff (wt bt wh : float) :
  thickness_ok wt bt wh <-> ~ (nonpositive wt \/ nonpositive bt \/ nonpositive wh).
Proof. unfold thickness_ok. tauto. Qed.

Lemma thickness_bad_iff (wt bt wh : float) :
  ~ thickness_ok wt bt wh <-> (nonpositive wt \/ nonpositive bt \/ nonpositive wh).
Proof.
  unfold thickness_ok.
  destruct (nonpositive_dec wt), (nonpositive_dec bt), (nonpositive_dec wh); tauto.
Qed.

Lemma inner_ok_iff (ow ol wt : float) :
  inner_ok ow ol wt
  <-> ~ (nonpositive (inner_dim ow wt) \/ nonpositive (inner_dim ol wt)).
Proof. unfold inner_ok. tauto. Qed.

Lemma inner_bad_iff (ow ol wt : float) :
  ~ inner_ok ow ol wt
  <-> (nonpositive (inner_dim ow wt) \/ nonpositive (inner_dim ol wt)).
Proof.
  unfold inner_ok.
  destruct (nonpositive_dec (inner_dim ow wt)), (nonpositive_dec (inner_dim ol wt)); tauto.
Qed.

Lemma facet_lines_double_length (t : Triangle) : List.length (facet_lines t) = 7%nat.
Proof. destruct t as [[[[[nx ny] nz] v1] v2] v3]. reflexivity. Qed.

Lemma flat_map_facet_lines_length (ts : list Triangle) :
  List.length (flat_map facet_lines ts) = (7 * List.length ts)%nat.
Proof.
  induction ts as [|t ts IH]; [reflexivity|].
  cbn [flat_map]. rewrite length_app, facet_lines_double_length, IH.
  cbn [List.length]. lia.
Qed.

Lemma stl_lines_double_length (solid_name : string) (ts : list Triangle) :
  List.length (stl_lines solid_name ts) = (2 + 7 * List.length ts)%nat.
Proof.
  unfold stl_lines. rewrite length_app. cbn [List.length].
  rewrite flat_map_facet_lines_length. lia.
Qed.

(** The text of the file once it has been opened, the lines written and
    the file closed. *)
Lemma file_text_after_writes (w : world) (filename : string) (lines : list string)
  (before : string) :
  file_text filename
    (after_writes w filename lines (List.length lines) ++ [FileClose filename]) before
  = String.concat "" lines.
Proof.
  unfold after_writes. rewrite firstn_all.
  rewrite <- app_assoc. rewrite file_text_app. cbn [app file_text].
  rewrite String.eqb_refl. rewrite file_text_writes. reflexivity.
Qed.

(** A file other than the one written keeps its text. *)
Lemma file_text_after_writes_other (w : world) (filename other : string)
  (lines : list string) (k : nat) (before : string) :
  other <> filename ->
  file_text other (after_writes w filename lines k ++ [FileClose filename]) before
  = file_text other (oplog w) before.
Proof.
  intros Hne. unfold after_writes.
  rewrite <- app_assoc. rewrite file_text_app. cbn [app file_text].
  assert (Hfg : String.eqb filename other = false)
    by (apply String.eqb_neq; congruence).
  rewrite Hfg. rewrite file_text_writes_other by congruence. reflexivity.
Qed.

End Binary64Facts.

(** ** The errors of [generate_grid] in double precision *)




(** The checks of [generate_grid] are made in a fixed order, on the doubles
    the program computes, and the first that fails names the error: the
    counts, then the three thicknesses, then the inner dimensions, then the
    conversion of the counts to doubles ([OverflowError]), then the cell
    sizes.  The division by a count never meets a zero divisor, and the mesh
    is built exactly when everything passes. *)
Theorem grid_mesh_check_order (ow ol bt wt wh : Binary64.float) (cols rows : Z) :
  let result := Binary64.grid_mesh ow ol bt wt wh cols rows in
  let counts_bad := (cols < 1 \/ rows < 1)%Z in
  let thickness_bad :=
    Binary64.nonpositive wt \/ Binary64.nonpositive bt \/ Binary64.nonpositive wh in
  let inner_bad :=
    Binary64.nonpositive (Binary64.inner_dim ow wt) \/
    Binary64.nonpositive (Binary64.inner_dim ol wt) in
  let cells := Binary64.cell_sizes ow ol wt cols rows in
  (result = inl (Binary64.ValueError "cols and rows must be >= 1")
   <-> counts_bad) /\
  (result = inl (Binary64.ValueError "Thicknesses and heights must be > 0")
   <-> ~ counts_bad /\ thickness_bad) /\
  (result = inl (Binary64.ValueError
                   "Outer size is too small for the chosen wall thickness.")
   <-> ~ counts_bad /\ ~ thickness_bad /\ inner_bad) /\
  (result = inl Binary64.OverflowError
   <-> ~ counts_bad /\ ~ thickness_bad /\ ~ inner_bad /\ cells = None) /\
  (result = inl (Binary64.ValueError
                   "Outer size too small for the chosen wall thickness and grid count.")
   <-> ~ counts_bad /\ ~ thickness_bad /\ ~ inner_bad /\
       exists cw cl, cells = Some (cw, cl) /\
         (Binary64.nonpositive cw \/ Binary64.nonpositive cl)) /\
  ((exists mesh,
      result = inr (("grid_" ++ str_int cols ++ "x" ++ str_int rows)%string, mesh) /\
      Z.of_nat (List.length mesh) = (12 * (5 + (cols - 1) + (rows - 1)))%Z)
   <-> ~ counts_bad /\ ~ thickness_bad /\ ~ inner_bad /\
       exists cw cl, cells = Some (cw, cl) /\
         ~ Binary64.nonpositive cw /\ ~ Binary64.nonpositive cl) /\
  result <> inl Binary64.ZeroDivisionError /\
  (forall filename, result <> inl (Binary64.OSError filename)).
Proof.
  cbv zeta.
  pose proof (Binary64Facts.grid_mesh_double_outcome ow ol bt wt wh cols rows) as O.
  cbv zeta in O.
  rewrite Binary64Facts.counts_bad_iff, Binary64Facts.counts_ok_iff,
    Binary64Facts.thickness_bad_iff, Binary64Facts.thickness_ok_iff,
    Binary64Facts.inner_bad_iff, Binary64Facts.inner_ok_iff in O.
  destruct O as [(H1 & R) | [(H1 & H2 & R) | [(H1 & H2 & H3 & R) |
                [(H1 & H2 & H3 & H4 & R) | [(H1 & H2 & H3 & (cw & cl & H4 & H5) & R) |
                 (H1 & H2 & H3 & (cw & cl & H4 & H5 & H6) & mesh & R & L)]]]]];
    rewrite R; clear R;
    (split; [|split; [|split; [|split; [|split; [|split; [|split]]]]]]);
    try (intros ? ?; discriminate);
    try discriminate;
    (split; intros H;
     first [ reflexivity
           | discriminate H
           | tauto
           | exfalso; tauto
           | match type of H with ex _ => destruct H as (? & H & _); discriminate H end
           | idtac ]).
  all: try (repeat (split; [assumption|]); exists cw, cl; tauto).
  all: try (destruct H as (_ & _ & _ & ? & ? & E & _); rewrite H4 in E; discriminate E).
  all: try (destruct H as (_ & _ & _ & ? & ? & E & N); rewrite H4 in E;
            inversion E; subst; tauto).
  all: try (exists mesh; split; [reflexivity | exact L]).
  all: destruct H as (_ & _ & _ & E); rewrite H4 in E; discriminate E.
Qed.

(** ** The output file in double precision *)

(** When all checks pass on the doubles the program computes, the path has
    no null character and can be opened, and the device does not fail:
    [generate_grid] opens the file once, makes
    [2 + 84 * (5 + (cols-1) + (rows-1))] writes (header, seven per triangle,
    footer), closes the file and returns; the file then holds the lines of
    the solid [grid_<cols>x<rows>] whose triangles lines 133-196 computed,
    whatever it held before. *)
Theorem generate_grid_writes_file_double
  (outer_width outer_length base_thickness wall_thickness wall_height : Binary64.float)
  (cols rows : Z) (filename : string) (w : Binary64.world) :
  Binary64.valid_params outer_width outer_length base_thickness wall_thickness
    wall_height cols rows ->
  Binary64.has_nul filename = false ->
  Binary64.openable w filename = true ->
  let solid_name := ("grid_" ++ str_int cols ++ "x" ++ str_int rows)%string in
  let r := Binary64.generate_grid outer_width outer_length base_thickness
             wall_thickness wall_height cols rows filename w in
  exists mesh,
    let lines := Binary64.stl_lines solid_name mesh in
    Binary64.grid_mesh outer_width outer_length base_thickness wall_thickness
      wall_height cols rows = inr (solid_name, mesh) /\
    Z.of_nat (List.length mesh) = (12 * (5 + (cols - 1) + (rows - 1)))%Z /\
    Z.of_nat (List.length lines) = (2 + 84 * (5 + (cols - 1) + (rows - 1)))%Z /\
    (Binary64.fault_free w filename lines ->
     r = (inr tt,
          Binary64.mkWorld (Binary64.openable w) (Binary64.faulty w)
            (Binary64.oplog w ++ FileOpen filename
               :: map (FileWrite filename) lines ++ [FileClose filename])) /\
     forall before : string,
       file_text filename (Binary64.oplog (snd r)) before
       = Binary64.stl_text solid_name mesh).
Proof.
  intros Hv Hn Ho solid_name r.
  destruct (Binary64Facts.grid_mesh_double_cases outer_width outer_length
              base_thickness wall_thickness wall_height cols rows)
    as [(I & _) | [(U & _) | (_ & mesh & R & L)]].
  - destruct (Binary64Facts.invalid_not_valid _ _ _ _ _ _ _ I Hv).
  - destruct (Binary64Facts.unconvertible_not_valid _ _ _ _ _ _ _ U Hv).
  - exists mesh. cbv zeta. fold solid_name in R |- *.
    split; [exact R|]. split; [exact L|]. split.
    + rewrite Binary64Facts.stl_lines_double_length. lia.
    + intros Hff. subst r.
      rewrite (Binary64Facts.generate_grid_serializes _ _ _ _ _ _ _ filename w _ _ R).
      pose proof (Binary64Facts.write_ascii_stl_outcome filename solid_name mesh w) as O.
      cbv zeta in O.
      destruct O as [(Hn' & _) | [(_ & Ho' & _) | [(_ & _ & _ & E) |
                     (_ & _ & k & Hk & _)]]].
      * congruence.
      * congruence.
      * rewrite E. cbn [snd Binary64.oplog]. split.
        -- unfold Binary64.after_writes. rewrite firstn_all.
           rewrite <- app_assoc. reflexivity.
        -- intros before. apply Binary64Facts.file_text_after_writes.
      * destruct (Binary64Facts.fault_free_not_fails _ _ _ _ Hff Hk).
Qed.

(** [generate_grid] and the errors of the file system, in double
    precision.  A failure before the file is opened (a parameter check, a
    count too large for a double, a path with a null character, a path that
    cannot be opened) leaves the files untouched.  Once the file has been
    opened the device may fail at any write or at the closing of the file:
    the program then raises [OSError], having opened (and so emptied) the
    file, written the lines before the failure and closed the file.  These
    are the only ways in which [generate_grid] raises [OSError]. *)
Theorem generate_grid_os_error_double
  (outer_width outer_length base_thickness wall_thickness wall_height : Binary64.float)
  (cols rows : Z) (filename : string) (w : Binary64.world) :
  let solid_name := ("grid_" ++ str_int cols ++ "x" ++ str_int rows)%string in
  let mesh_is mesh :=
    Binary64.grid_mesh outer_width outer_length base_thickness wall_thickness
      wall_height cols rows = inr (solid_name, mesh) in
  let valid :=
    Binary64.valid_params outer_width outer_length base_thickness wall_thickness
      wall_height cols rows in
  let r := Binary64.generate_grid outer_width outer_length base_thickness
             wall_thickness wall_height cols rows filename w in
  (~ valid \/ Binary64.has_nul filename = true \/ Binary64.openable w filename = false ->
   exists e, r = (inl e, w)) /\
  (valid -> Binary64.has_nul filename = false ->
   Binary64.openable w filename = false ->
   r = (inl (Binary64.OSError filename), w)) /\
  (forall mesh k,
     mesh_is mesh -> Binary64.has_nul filename = false ->
     Binary64.openable w filename = true ->
     Binary64.fails_at w filename (Binary64.stl_lines solid_name mesh) k ->
     r = (inl (Binary64.OSError filename),
          Binary64.mkWorld (Binary64.openable w) (Binary64.faulty w)
            (Binary64.oplog w ++ FileOpen filename
               :: map (FileWrite filename)
                    (firstn k (Binary64.stl_lines solid_name mesh))
               ++ [FileClose filename]))) /\
  ((exists f, fst r = inl (Binary64.OSError f))
   <-> valid /\ Binary64.has_nul filename = false /\
       (Binary64.openable w filename = false \/
        exists mesh k,
          mesh_is mesh /\
          Binary64.fails_at w filename (Binary64.stl_lines solid_name mesh) k)).
Proof.
  intros solid_name mesh_is valid r. subst mesh_is valid r.
  destruct (Binary64Facts.grid_mesh_double_cases outer_width outer_length
              base_thickness wall_thickness wall_height cols rows)
    as [(I & msg & _ & R) | [(U & R) | (V & mesh & R & _)]].
  - rewrite (Binary64Facts.generate_grid_raises _ _ _ _ _ _ _ filename w _ R).
    split; [intros _; eexists; reflexivity|].
    split; [intros V; destruct (Binary64Facts.invalid_not_valid _ _ _ _ _ _ _ I V)|].
    split; [intros mesh k Hm; rewrite R in Hm; discriminate Hm|].
    split; [intros [f H]; discriminate H|].
    intros (V & _). destruct (Binary64Facts.invalid_not_valid _ _ _ _ _ _ _ I V).
  - rewrite (Binary64Facts.generate_grid_raises _ _ _ _ _ _ _ filename w _ R).
    split; [intros _; eexists; reflexivity|].
    split; [intros V; destruct (Binary64Facts.unconvertible_not_valid _ _ _ _ _ _ _ U V)|].
    split; [intros mesh k Hm; rewrite R in Hm; discriminate Hm|].
    split; [intros [f H]; discriminate H|].
    intros (V & _). destruct (Binary64Facts.unconvertible_not_valid _ _ _ _ _ _ _ U V).
  - fold solid_name in R |- *.
    rewrite (Binary64Facts.generate_grid_serializes _ _ _ _ _ _ _ filename w _ _ R).
    pose proof (Binary64Facts.write_ascii_stl_outcome filename solid_name mesh w) as O.
    cbv zeta in O.
    assert (A : forall k,
      Binary64.after_writes w filename (Binary64.stl_lines solid_name mesh) k
        ++ [FileClose filename]
      = Binary64.oplog w ++ FileOpen filename
          :: map (FileWrite filename) (firstn k (Binary64.stl_lines solid_name mesh))
          ++ [FileClose filename]).
    { intros k. unfold Binary64.after_writes. now rewrite <- app_assoc. }
    destruct O as [(Hn & E) | [(Hn & Ho & E) | [(Hn & Ho & Hff & E) |
                   (Hn & Ho & k & Hk & E)]]]; rewrite E; clear E; cbn [fst].
    + split; [intros _; eexists; reflexivity|].
      split; [intros _ Hn'; congruence|].
      split; [intros mesh' k _ Hn'; congruence|].
      split; [intros [f H]; discriminate H|].
      intros (_ & Hn' & _). congruence.
    + split; [intros _; eexists; reflexivity|].
      split; [intros _ _ _; reflexivity|].
      split; [intros mesh' k _ _ Ho'; congruence|].
      split; [intros _|intros _; eexists; reflexivity].
      split; [exact V|]. split; [exact Hn|]. left. exact Ho.
    + split; [intros [H|[H|H]]; [destruct (H V) | congruence | congruence]|].
      split; [intros _ _ Ho'; congruence|].
      split.
      { intros mesh' k Hm _ _ Hk. rewrite R in Hm. inversion Hm; subst mesh'.
        destruct (Binary64Facts.fault_free_not_fails _ _ _ _ Hff Hk). }
      split; [intros [f H]; discriminate H|].
      intros (_ & _ & [Ho' | (mesh' & k & Hm & Hk)]); [congruence|].
      rewrite R in Hm. inversion Hm; subst mesh'.
      destruct (Binary64Facts.fault_free_not_fails _ _ _ _ Hff Hk).
    + split; [intros [H|[H|H]]; [destruct (H V) | congruence | congruence]|].
      split; [intros _ _ Ho'; congruence|].
      split.
      { intros mesh' k' Hm _ _ Hk'. rewrite R in Hm. inversion Hm; subst mesh'.
        rewrite (Binary64Facts.fails_at_unique _ _ _ _ _ Hk' Hk).
        rewrite A. reflexivity. }
      split; [intros _|intros _; eexists; reflexivity].
      split; [exact V|]. split; [exact Hn|]. right.
      exists mesh, k. split; [exact R | exact Hk].
Qed.

Lemma tray_params_valid_double :
  Binary64.valid_params Binary64.d132_75 (Binary64.of_Z 115) (Binary64.of_Z 2)
    Binary64.d2_4 (Binary64.of_Z 20) 4 1.
Proof.
  unfold Binary64.valid_params, Binary64.counts_ok, Binary64.thickness_ok,
    Binary64.inner_ok, Binary64.nonpositive.
  split; [lia|].
  split; [repeat split; vm_compute; discriminate|].
  split; [repeat split; vm_compute; discriminate|].
  eexists; eexists. split; [vm_compute; reflexivity|].
  split; vm_compute; discriminate.
Qed.

Lemma generate_grid_writes_file_double_witness :
  Binary64.valid_params Binary64.d132_75 (Binary64.of_Z 115) (Binary64.of_Z 2)
    Binary64.d2_4 (Binary64.of_Z 20) 4 1 /\
  Binary64.has_nul "tray.stl" = false /\
  Binary64.openable Binary64.sound_world "tray.stl" = true /\
  exists mesh,
    Binary64.grid_mesh Binary64.d132_75 (Binary64.of_Z 115) (Binary64.of_Z 2)
      Binary64.d2_4 (Binary64.of_Z 20) 4 1 = inr ("grid_4x1"%string, mesh) /\
    Z.of_nat (List.length mesh) = 96%Z /\
    Z.of_nat (List.length (Binary64.stl_lines "grid_4x1" mesh)) = 674%Z /\
    (Binary64.fault_free Binary64.sound_world "tray.stl"
       (Binary64.stl_lines "grid_4x1" mesh) ->
     Binary64.generate_grid Binary64.d132_75 (Binary64.of_Z 115) (Binary64.of_Z 2)
       Binary64.d2_4 (Binary64.of_Z 20) 4 1 "tray.stl" Binary64.sound_world
     = (inr tt,
        Binary64.mkWorld (Binary64.openable Binary64.sound_world)
          (Binary64.faulty Binary64.sound_world)
          (Binary64.oplog Binary64.sound_world ++ FileOpen "tray.stl"
             :: map (FileWrite "tray.stl") (Binary64.stl_lines "grid_4x1" mesh)
             ++ [FileClose "tray.stl"])) /\
     forall before : string,
       file_text "tray.stl"
         (Binary64.oplog
            (snd (Binary64.generate_grid Binary64.d132_75 (Binary64.of_Z 115)
                    (Binary64.of_Z 2) Binary64.d2_4 (Binary64.of_Z 20) 4 1
                    "tray.stl" Binary64.sound_world))) before
       = Binary64.stl_text "grid_4x1" mesh).
Proof.
  split; [exact tray_params_valid_double|].
  split; [reflexivity|]. split; [reflexivity|].
  exact (generate_grid_writes_file_double _ _ _ _ _ 4 1 "tray.stl"
           Binary64.sound_world tray_params_valid_double eq_refl eq_refl).
Defined.

Lemma small_params_valid_double :
  Binary64.valid_params (Binary64.of_Z 10) (Binary64.of_Z 10) (Binary64.of_Z 1)
    (Binary64.of_Z 1) (Binary64.of_Z 1) 1 1.
Proof.
  unfold Binary64.valid_params, Binary64.counts_ok, Binary64.thickness_ok,
    Binary64.inner_ok, Binary64.nonpositive.
  split; [lia|].
  split; [repeat split; vm_compute; discriminate|].
  split; [repeat split; vm_compute; discriminate|].
  eexists; eexists. split; [vm_compute; reflexivity|].
  split; vm_compute; discriminate.
Qed.

Lemma generate_grid_os_error_double_witness :
  exists mesh,
    Binary64.grid_mesh (Binary64.of_Z 10) (Binary64.of_Z 10) (Binary64.of_Z 1)
      (Binary64.of_Z 1) (Binary64.of_Z 1) 1 1 = inr ("grid_1x1"%string, mesh) /\
    Binary64.has_nul "tray.stl" = false /\
    Binary64.openable (Binary64.full_after 1) "tray.stl" = true /\
    Binary64.fails_at (Binary64.full_after 1) "tray.stl"
      (Binary64.stl_lines "grid_1x1" mesh) 1 /\
    Binary64.generate_grid (Binary64.of_Z 10) (Binary64.of_Z 10) (Binary64.of_Z 1)
      (Binary64.of_Z 1) (Binary64.of_Z 1) 1 1 "tray.stl" (Binary64.full_after 1)
    = (inl (Binary64.OSError "tray.stl"),
       Binary64.mkWorld (Binary64.openable (Binary64.full_after 1))
         (Binary64.faulty (Binary64.full_after 1))
         [FileOpen "tray.stl";
          FileWrite "tray.stl" ("solid grid_1x1" ++ nl);
          FileClose "tray.stl"]).
Proof.
  destruct (Binary64Facts.grid_mesh_double_cases (Binary64.of_Z 10) (Binary64.of_Z 10)
              (Binary64.of_Z 1) (Binary64.of_Z 1) (Binary64.of_Z 1) 1 1)
    as [(I & _) | [(U & _) | (_ & mesh & R & _)]].
  - destruct (Binary64Facts.invalid_not_valid _ _ _ _ _ _ _ I small_params_valid_double).
  - destruct (Binary64Facts.unconvertible_not_valid _ _ _ _ _ _ _ U
                small_params_valid_double).
  - exists mesh.
    assert (F : Binary64.fails_at (Binary64.full_after 1) "tray.stl"
                  (Binary64.stl_lines "grid_1x1" mesh) 1).
    { split; [cbn; lia|]. split; [reflexivity|].
      intros j Hj. replace j with 0%nat by lia. reflexivity. }
    split; [exact R|]. split; [reflexivity|]. split; [reflexivity|].
    split; [exact F|].
    exact (proj1 (proj2 (proj2
             (generate_grid_os_error_double (Binary64.of_Z 10) (Binary64.of_Z 10)
                (Binary64.of_Z 1) (Binary64.of_Z 1) (Binary64.of_Z 1) 1 1
                "tray.stl" (Binary64.full_after 1)))) mesh 1%nat R eq_refl eq_refl F).
Defined.

(** ** Where double precision departs from exact arithmetic *)

(** Rounding reaches the file.  With [outer_width = 132.75],
    [wall_thickness = 2.4] and four columns the cursor of the column loop,
    advanced in doubles, ends the third divider at [100.16250000000001]
    (the double [7048309338695271 / 2^46]) and the program writes
    [100.163]; the exact sum is [100.1625], which the format would write
    [100.162]. *)
Theorem rounded_cursor_reaches_file :
  let run64 :=
    Binary64.generate_grid Binary64.d132_75 (Binary64.of_Z 115) (Binary64.of_Z 2)
      Binary64.d2_4 (Binary64.of_Z 20) 4 1 "tray.stl" Binary64.sound_world in
  let run :=
    generate_grid 132.75 115.0 2.0 2.4 20.0 4 1 "tray.stl"
      (mkWorld (fun _ => true) []) in
  (exists mesh wall,
     Binary64.grid_mesh Binary64.d132_75 (Binary64.of_Z 115) (Binary64.of_Z 2)
       Binary64.d2_4 (Binary64.of_Z 20) 4 1 = inr ("grid_4x1"%string, mesh) /\
     Binary64.box_extent mesh 7 = Some wall /\
     Binary64.c0 (snd wall) = Binary64.dyadic 7048309338695271 46 /\
     Binary64.to_Q (Binary64.c0 (snd wall)) == 100.1625 + (3 # 351843720888320)) /\
  fst run64 = inr tt /\
  nth_error (Binary64.oplog (snd run64)) 593
  = Some (FileWrite "tray.stl" ("      vertex 100.163 2.4 2" ++ nl)) /\
  (exists solid_name,
     grid_mesh 132.75 115.0 2.0 2.4 20.0 4 1
     = inr (solid_name,
            flat_map box_triangles (grid_plan 132.75 115.0 2.0 2.4 20.0 4 1))) /\
  (exists wall,
     nth_error (grid_plan 132.75 115.0 2.0 2.4 20.0 4 1) 7 = Some wall /\
     c0 (snd wall) == 100.1625) /\
  fst run = inr tt /\
  nth_error (oplog (snd run)) 593
  = Some (FileWrite "tray.stl" ("      vertex 100.162 2.4 2" ++ nl)).
Proof.
  cbv zeta.
  split; [|split; [|split; [|split; [|split; [|split]]]]].
  - eexists; eexists.
    split; [vm_compute; reflexivity|].
    split; [vm_compute; reflexivity|].
    split; vm_compute; reflexivity.
  - vm_compute. reflexivity.
  - vm_compute. reflexivity.
  - eexists. apply grid_mesh_valid.
    unfold valid_params, cell_size, inner_dim.
    repeat split; try lia; apply Qlt_alt; vm_compute; reflexivity.
  - eexists. split; [vm_compute; reflexivity|]. vm_compute. reflexivity.
  - vm_compute. reflexivity.
  - vm_compute. reflexivity.
Qed.

(** In doubles a divider can run into the outer wall.  With
    [outer_width = 1.1000000000000005], [wall_thickness = 0.1] and ten
    columns all checks pass; the last vertical divider (box 13) spans
    [x] from [0.9000000000000008] to [1.0000000000000009] and the right wall
    (box 2) starts at [x = 1.0000000000000004]: the two boxes share interior
    points. *)
Theorem rounded_divider_overlaps_wall :
  exists mesh wall divider,
    Binary64.grid_mesh Binary64.d1_1000000000000005 (Binary64.of_Z 1) Binary64.d0_1
      Binary64.d0_1 Binary64.d0_3 10 1 = inr ("grid_10x1"%string, mesh) /\
    Z.of_nat (List.length mesh) = (12 * (5 + (10 - 1) + (1 - 1)))%Z /\
    Binary64.box_extent mesh 2 = Some wall /\
    Binary64.box_extent mesh 13 = Some divider /\
    Binary64.numbers (fst wall) = ((4503599627370498 # 4503599627370496), 0,
                                   Binary64.to_Q Binary64.d0_1) /\
    Binary64.to_Q (Binary64.c0 (snd divider)) == (4503599627370500 # 4503599627370496) /\
    ~ interiors_disjoint
        (Binary64.numbers (fst wall), Binary64.numbers (snd wall))
        (Binary64.numbers (fst divider), Binary64.numbers (snd divider)).
Proof.
  eexists; eexists; eexists.
  split; [vm_compute; reflexivity|].
  split; [vm_compute; reflexivity|].
  split; [vm_compute; reflexivity|].
  split; [vm_compute; reflexivity|].
  split; [vm_compute; reflexivity|].
  split; [vm_compute; reflexivity|].
  intros H.
  apply (H ((4503599627370499 # 4503599627370496), (1 # 2), (1 # 4))).
  vm_compute. repeat split; left; split; reflexivity.
Qed.
